(** * TransactAI: the local storage service, the notification filter and the
    hybrid categorization core

    Three parts of the repository are embedded here.

    - [LocalStorageService]: the browser-side persistence layer
      (localStorageService.ts): user-keyed lists of transactions and
      categories kept in [localStorage].
    - [NotificationService]: the Android notification filter
      (NotificationService.kt, [isTransactionNotification]).
    - [Core]: the hybrid categorization engine (normalizer, rule engine,
      fusion controller).  Its Python sources (core/preprocessor.py,
      core/rules.py, core/model.py) are not part of the checked-in tree, so
      this part follows the design document section by section. *)

From Stdlib Require Import Ascii String QArith Lqa.
From stdpp Require Import gmap strings list.

Local Open Scope string_scope.
Local Open Scope list_scope.

(* ===================================================================== *)
(** * Part I. Definitions                                                 *)
(* ===================================================================== *)

(** ** localStorageService.ts *)

Module LocalStorageService.

(** [interface Transaction].  [amount: number] is carried around and never
    computed with; it is kept as a rational. *)
Inductive TransactionType := debit | credit.

Record Transaction := mkTransaction {
  id : string;
  description : string;
  amount : Q;
  category : string;
  date : string;
  recipient : option string;
  type : option TransactionType
}.

(** [Partial<Transaction>]: every key may be absent ([None]).  For the two
    optional fields a present key may still carry [undefined]
    ([Some None]), which the spread copies over the old value. *)
Module Partial.
Record t := mk {
  id : option string;
  description : option string;
  amount : option Q;
  category : option string;
  date : option string;
  recipient : option (option string);
  type : option (option TransactionType)
}.
End Partial.

(** [interface Category]. *)
Record Category := mkCategory {
  name : string;
  createdAt : string
}.

(** What [JSON.parse] makes of the item under [transactai_auth_session],
    as far as [getUserKey] and [getSession] tell items apart:
    - [SessionUnreadable]: the text is not JSON, or it is a value whose
      [phone] is neither a string nor missing; [JSON.parse] or
      [phone.replace] throws;
    - [SessionParsed phone]: a truthy value (an object, as [saveSession]
      writes it) whose [phone] is a string or is missing;
    - [SessionNull]: the text [null]; reading [parsed.phone] throws, and
      [getSession] returns [null];
    - [SessionFalsy]: the number [0], [false] or the empty string; the
      value has no [phone] and is itself falsy. *)
Inductive SessionItem :=
| SessionUnreadable
| SessionParsed (phone : option string)
| SessionNull
| SessionFalsy.

(** The part of [localStorage] the two services use.  An item is
    represented by the value its JSON text parses to; [auth_session] is
    [None] when there is no session item or its text is empty.  The keys
    of the two list families start with different base keys, so they are
    kept in two maps. *)
Record LocalStorage := mkLocalStorage {
  auth_session : option SessionItem;
  transactions : gmap string (list Transaction);
  categories : gmap string (list Category)
}.

(** [typeof window === 'undefined'] is [None] (server-side rendering). *)
Definition Window := option LocalStorage.

Module STORAGE_KEYS.
Definition USER_PROFILE := "transactai_user_profile".
Definition TRANSACTIONS := "transactai_transactions".
Definition CATEGORIES := "transactai_categories".
Definition PIN := "transactai_pin".
Definition AUTH_SESSION := "transactai_auth_session".
Definition ONBOARDING_COMPLETE := "transactai_onboarding_complete".
End STORAGE_KEYS.

(** [s.replace(/\+/g, '')]. *)
Fixpoint removePlus (s : string) : string :=
  match s with
  | EmptyString => EmptyString
  | String c s' =>
      if Ascii.eqb c "+"%char then removePlus s' else String c (removePlus s')
  end.

(** JavaScript truthiness of an optional string: [undefined] and [''] are
    falsy. *)
Definition truthy (s : option string) : bool :=
  match s with
  | Some u => negb (String.eqb u "")
  | None => false
  end.

(** [a || b] on optional strings. *)
Definition orElse (a : option string) (b : string) : string :=
  match a with
  | Some u => if truthy a then u else b
  | None => b
  end.

(** The second half of [getUserKey]: the key taken from the session item. *)
Definition sessionKey (ls : LocalStorage) (baseKey : string) : string :=
  match auth_session ls with
  | Some (SessionParsed phone) =>
      baseKey +:+ "_" +:+ orElse (removePlus <$> phone) "default"
  | Some SessionFalsy => baseKey +:+ "_" +:+ "default"
  | Some SessionUnreadable => baseKey
  | Some SessionNull => baseKey
  | None => baseKey
  end.

(** [getUserKey(baseKey, userId)], called with a window present. *)
Definition getUserKey (ls : LocalStorage) (baseKey : string)
    (userId : option string) : string :=
  match userId with
  | Some u =>
      if truthy userId then baseKey +:+ "_" +:+ u else sessionKey ls baseKey
  | None => sessionKey ls baseKey
  end.

(** [Array.prototype.findIndex]: the index of the first element satisfying
    [p], [-1] when there is none. *)
Fixpoint findIndex {A} (p : A -> bool) (l : list A) : Z :=
  match l with
  | [] => (-1)%Z
  | x :: l' =>
      if p x then 0%Z
      else let i := findIndex p l' in
           if (i =? -1)%Z then (-1)%Z else (i + 1)%Z
  end.

(** The object spread [{ ...t, ...updates }]. *)
Definition spread (t : Transaction) (updates : Partial.t) : Transaction :=
  {| id := default (id t) (Partial.id updates);
     description := default (description t) (Partial.description updates);
     amount := default (amount t) (Partial.amount updates);
     category := default (category t) (Partial.category updates);
     date := default (date t) (Partial.date updates);
     recipient := default (recipient t) (Partial.recipient updates);
     type := default (type t) (Partial.type updates) |}.

Module transactionService.

Definition getAll (w : Window) (userId : option string) : list Transaction :=
  match w with
  | None => []
  | Some ls =>
      let key := getUserKey ls STORAGE_KEYS.TRANSACTIONS userId in
      default [] (transactions ls !! key)
  end.

Definition save (transaction : Transaction) (userId : option string)
    (w : Window) : Window :=
  match w with
  | None => None
  | Some ls =>
      let transactions' := getAll w userId ++ [transaction] in
      let key := getUserKey ls STORAGE_KEYS.TRANSACTIONS userId in
      Some {| auth_session := auth_session ls;
              transactions := <[key := transactions']> (transactions ls);
              categories := categories ls |}
  end.

Definition update (id0 : string) (updates : Partial.t)
    (userId : option string) (w : Window) : Window :=
  match w with
  | None => None
  | Some ls =>
      let all := getAll w userId in
      let index := findIndex (fun t => String.eqb (id t) id0) all in
      if negb (index =? -1)%Z then
        match all !! Z.to_nat index with
        | Some old =>
            let all' := <[Z.to_nat index := spread old updates]> all in
            let key := getUserKey ls STORAGE_KEYS.TRANSACTIONS userId in
            Some {| auth_session := auth_session ls;
                    transactions := <[key := all']> (transactions ls);
                    categories := categories ls |}
        | None => w
        end
      else w
  end.

End transactionService.

Module categoryService.

Definition getAll (w : Window) (userId : option string) : list Category :=
  match w with
  | None => []
  | Some ls =>
      let key := getUserKey ls STORAGE_KEYS.CATEGORIES userId in
      default [] (categories ls !! key)
  end.

(** [add(categoryName, userId)].  [toLowerCase] is the engine's
    [String.prototype.toLowerCase]; [now] is what
    [new Date().toISOString()] returns at the call. *)
Definition add (toLowerCase : string -> string) (now : string)
    (categoryName : string) (userId : option string) (w : Window) : Window :=
  match w with
  | None => None
  | Some ls =>
      let all := getAll w userId in
      match
        List.find
          (fun c => String.eqb (toLowerCase (name c)) (toLowerCase categoryName))
          all
      with
      | None =>
          let all' := all ++ [ {| name := categoryName; createdAt := now |} ] in
          let key := getUserKey ls STORAGE_KEYS.CATEGORIES userId in
          Some {| auth_session := auth_session ls;
                  transactions := transactions ls;
                  categories := <[key := all']> (categories ls) |}
      | Some _ => w
      end
  end.

Definition remove (categoryName : string) (userId : option string)
    (w : Window) : Window :=
  match w with
  | None => None
  | Some ls =>
      let all := getAll w userId in
      let filtered :=
        List.filter (fun c => negb (String.eqb (name c) categoryName)) all in
      let key := getUserKey ls STORAGE_KEYS.CATEGORIES userId in
      Some {| auth_session := auth_session ls;
              transactions := transactions ls;
              categories := <[key := filtered]> (categories ls) |}
  end.

Definition getNames (w : Window) (userId : option string) : list string :=
  List.map name (getAll w userId).

End categoryService.

End LocalStorageService.

(** ** NotificationService.kt *)

Module NotificationService.

(** A Kotlin [Char] is a UTF-16 code unit and a [String] a sequence of
    them. *)
Definition Char := N.
Definition Text := list Char.

(** A string literal of the source whose characters are all ASCII. *)
Definition lit (s : string) : Text :=
  List.map N_of_ascii (list_ascii_of_string s).

(** The rupee sign, U+20B9. *)
Definition RUPEE : Char := 8377%N.

(** Regular expressions over code units, as far as the pattern of the source
    needs them: character tests, alternation, sequence and repetition. *)
Inductive Regex :=
| Never
| Eps
| Class (p : Char -> bool)
| Alt (r1 r2 : Regex)
| Seq (r1 r2 : Regex)
| Star (r : Regex).

(** [r?] and [r+]. *)
Definition Opt (r : Regex) : Regex := Alt r Eps.
Definition Plus (r : Regex) : Regex := Seq r (Star r).

Fixpoint nullable (r : Regex) : bool :=
  match r with
  | Never => false
  | Eps => true
  | Class _ => false
  | Alt r1 r2 => nullable r1 || nullable r2
  | Seq r1 r2 => nullable r1 && nullable r2
  | Star _ => true
  end.

(** What is left of [r] after reading [c]. *)
Fixpoint deriv (c : Char) (r : Regex) : Regex :=
  match r with
  | Never => Never
  | Eps => Never
  | Class p => if p c then Eps else Never
  | Alt r1 r2 => Alt (deriv c r1) (deriv c r2)
  | Seq r1 r2 =>
      if nullable r1 then Alt (Seq (deriv c r1) r2) (deriv c r2)
      else Seq (deriv c r1) r2
  | Star r1 => Seq (deriv c r1) (Star r1)
  end.

(** Does a match of [r] start at the beginning of [s]? *)
Fixpoint lookingAt (r : Regex) (s : Text) : bool :=
  nullable r ||
  match s with
  | [] => false
  | c :: s' => lookingAt (deriv c r) s'
  end.

(** [Regex.containsMatchIn]: does a match start at some position of [s]? *)
Fixpoint containsMatchIn (r : Regex) (s : Text) : bool :=
  lookingAt r s ||
  match s with
  | [] => false
  | _ :: s' => containsMatchIn r s'
  end.

Section Platform.

(** [Char.uppercaseChar()] and [Char.lowercaseChar()] of the runtime. *)
Variable uppercaseChar lowercaseChar : Char -> Char.

(** The regular expression engine of the runtime: how it compares a
    character of the pattern with a character of the input under
    [RegexOption.IGNORE_CASE], and its classes [\s] and [\d]. *)
Variable regexEqualsIgnoreCase : Char -> Char -> bool.
Variable regexSpace regexDigit : Char -> bool.

(** How [regionMatches] compares two characters: equal, or, ignoring case,
    equal in upper case or equal after upper and then lower case. *)
Definition charEquals (ignoreCase : bool) (a b : Char) : bool :=
  (a =? b)%N ||
  (ignoreCase &&
     ((uppercaseChar a =? uppercaseChar b)%N ||
      (lowercaseChar (uppercaseChar a) =? lowercaseChar (uppercaseChar b))%N)).

(** [other.regionMatches(0, this, index, other.length, ignoreCase)], with
    [this] already cut at [index]. *)
Fixpoint regionMatches (ignoreCase : bool) (other this : Text) : bool :=
  match other, this with
  | [], _ => true
  | _ :: _, [] => false
  | o :: other', c :: this' =>
      charEquals ignoreCase o c && regionMatches ignoreCase other' this'
  end.

(** [this.contains(other, ignoreCase)]: [indexOf] tries every index from 0
    to [length]. *)
Fixpoint contains (this other : Text) (ignoreCase : bool) : bool :=
  regionMatches ignoreCase other this ||
  match this with
  | [] => false
  | _ :: this' => contains this' other ignoreCase
  end.

(** A literal of a pattern compiled with [IGNORE_CASE]. *)
Fixpoint literal (s : Text) : Regex :=
  match s with
  | [] => Eps
  | c :: s' => Seq (Class (regexEqualsIgnoreCase c)) (literal s')
  end.

(** The pattern [(₹|rs\.?|inr)\s*\d+] compiled with
    [RegexOption.IGNORE_CASE]. *)
Definition amountPattern : Regex :=
  Seq (Alt (literal [RUPEE])
         (Alt (Seq (literal (lit "rs")) (Opt (literal (lit "."))))
              (literal (lit "inr"))))
      (Seq (Star (Class regexSpace)) (Plus (Class regexDigit))).

Definition transactionKeywords : list Text :=
  [ lit "paid"; lit "received"; lit "sent"; lit "transfer"; lit "upi";
    lit "transaction"; lit "debited"; lit "credited"; lit "payment";
    lit "purchase"; lit "order"; lit "rs."; [RUPEE]; lit "inr";
    lit "amount"; lit "bank"; lit "account" ].

Definition paymentPackages : list Text :=
  [ lit "com.whatsapp"; lit "com.phonepe.app";
    lit "com.google.android.apps.nbu.paisa.user"; lit "in.org.npci.upiapp";
    lit "com.paytm"; lit "com.amazon.in" ].

Definition isTransactionNotification (packageName text : Text) : bool :=
  let isPaymentApp :=
    contains packageName (lit "payment") true ||
    contains packageName (lit "bank") true ||
    contains packageName (lit "upi") true ||
    contains packageName (lit "wallet") true ||
    contains packageName (lit "pay") true ||
    bool_decide (packageName ∈ paymentPackages) in
  let hasTransactionKeywords :=
    existsb (fun keyword => contains text keyword true) transactionKeywords in
  let hasAmountPattern := containsMatchIn amountPattern text in
  (isPaymentApp && hasTransactionKeywords) || hasAmountPattern.

End Platform.

End NotificationService.

(** ** The hybrid categorization core *)

Module Core.

Definition RawText := string.
Definition CleanText := string.
Definition CategoryLabel := string.

(** The reserved fallback label. *)
Definition Others : CategoryLabel := "Others".

(** *** Normalizer (design section 4.1) *)

Module Normalizer.

Definition Token := list ascii.

(** The fixed data of the normalizer: the substitution table of informal
    spelling variants, the app-name prefixes recognised as boilerplate, and
    how many digits make a digit sequence "long". *)
Record Tables := mkTables {
  substitutions : list (string * string);
  boilerplate : list string;
  entity_min_digits : nat
}.

Definition isWhitespace (c : ascii) : bool :=
  let n := nat_of_ascii c in
  (n =? 32)%nat || ((9 <=? n)%nat && (n <=? 13)%nat).

Definition isDigit (c : ascii) : bool :=
  let n := nat_of_ascii c in (48 <=? n)%nat && (n <=? 57)%nat.

Definition toLower (c : ascii) : ascii :=
  let n := nat_of_ascii c in
  if (65 <=? n)%nat && (n <=? 90)%nat then ascii_of_nat (n + 32) else c.

Definition lowercase (s : list ascii) : list ascii := List.map toLower s.

Definition isEmpty {A} (l : list A) : bool :=
  match l with [] => true | _ => false end.

(** Splitting at whitespace; runs of whitespace separate once and leading
    and trailing whitespace gives no token.  [cur] is the token being read,
    last character first. *)
Fixpoint tokens_from (cur : Token) (s : list ascii) : list Token :=
  match s with
  | [] => if isEmpty cur then [] else [List.rev cur]
  | c :: s' =>
      if isWhitespace c then
        if isEmpty cur then tokens_from [] s'
        else List.rev cur :: tokens_from [] s'
      else tokens_from (c :: cur) s'
  end.

Definition tokens (s : list ascii) : list Token := tokens_from [] s.

(** Tokens joined by single spaces. *)
Fixpoint join (ts : list Token) : list ascii :=
  match ts with
  | [] => []
  | t :: ts' => if isEmpty ts' then t else t ++ " "%char :: join ts'
  end.

Fixpoint token_eqb (a b : Token) : bool :=
  match a, b with
  | [], [] => true
  | x :: a', y :: b' => Ascii.eqb x y && token_eqb a' b'
  | _, _ => false
  end.

(** [stripPrefix p t]: what follows [p] in [t], when [t] starts with [p]. *)
Fixpoint stripPrefix (p t : Token) : option Token :=
  match p, t with
  | [], _ => Some t
  | x :: p', y :: t' => if Ascii.eqb x y then stripPrefix p' t' else None
  | _ :: _, [] => None
  end.

(** The currency markers, lowercased: the rupee sign (three bytes in
    UTF-8), [rs.], [rs] and [inr]. *)
Definition currencyMarkers : list Token :=
  [ [ascii_of_nat 226; ascii_of_nat 130; ascii_of_nat 185];
    list_ascii_of_string "rs."; list_ascii_of_string "rs";
    list_ascii_of_string "inr" ].

Definition allDigits (t : Token) : bool :=
  negb (isEmpty t) && forallb isDigit t.

(** Digits as amounts are written: a digit first, then digits, grouping
    commas and a decimal point. *)
Definition amountDigits (t : Token) : bool :=
  match t with
  | [] => false
  | c :: _ =>
      isDigit c &&
      forallb
        (fun d => isDigit d || Ascii.eqb d ","%char || Ascii.eqb d "."%char) t
  end.

(** An amount-like token: digits, optionally preceded by a currency
    marker. *)
Definition isAmount (t : Token) : bool :=
  amountDigits t ||
  existsb
    (fun m => match stripPrefix m t with
              | Some rest => amountDigits rest
              | None => false
              end)
    currencyMarkers.

(** A phone-number-shaped or long digit sequence. *)
Definition isEntity (T : Tables) (t : Token) : bool :=
  allDigits t && (entity_min_digits T <=? length t)%nat.

Definition AMOUNT_TOKEN : Token := list_ascii_of_string "amounttoken".
Definition ENTITY_TOKEN : Token := list_ascii_of_string "entitytoken".

(** The canonical form of a spelling variant: the first entry of the table
    whose key is the token. *)
Fixpoint canonical (table : list (string * string)) (t : Token) : option Token :=
  match table with
  | [] => None
  | (variant, form) :: table' =>
      if token_eqb (list_ascii_of_string variant) t
      then Some (list_ascii_of_string form)
      else canonical table' t
  end.

Definition normalize_token (T : Tables) (t : Token) : Token :=
  if isEntity T t then ENTITY_TOKEN
  else if isAmount t then AMOUNT_TOKEN
  else default t (canonical (substitutions T) t).

Definition isBoilerplate (T : Tables) (t : Token) : bool :=
  existsb (fun b => token_eqb (list_ascii_of_string b) t) (boilerplate T).

Fixpoint dropWhile {A} (p : A -> bool) (l : list A) : list A :=
  match l with
  | [] => []
  | x :: l' => if p x then dropWhile p l' else l
  end.

(** The words of the clean text: the tokens of the lower-cased text, each
    through the token step, without the leading boilerplate. *)
Definition words (T : Tables) (raw : RawText) : list Token :=
  dropWhile (isBoilerplate T)
    (List.map (normalize_token T)
       (tokens (lowercase (list_ascii_of_string raw)))).

(** Modelled from the spec: the normalizer (core/preprocessor.py) is not in
    the tree.  Section 4.1: lowercase; collapse whitespace; mask amount-like
    tokens by one placeholder; replace phone-number-shaped and long digit
    sequences by an entity placeholder; bring spelling variants to their
    canonical form by a fixed table; strip leading app-name boilerplate. *)
Definition normalize (T : Tables) (raw : RawText) : CleanText :=
  string_of_list_ascii (join (words T raw)).

(** What makes a character fit for a clean word. *)
Definition cleanChar (c : ascii) : Prop :=
  isWhitespace c = false /\ toLower c = c.

(** A word as the normalizer emits it: not empty, no whitespace, no
    upper-case letter. *)
Definition cleanWord (t : Token) : bool :=
  negb (isEmpty t) &&
  forallb (fun c => negb (isWhitespace c) && Ascii.eqb (toLower c) c) t.

(** A canonical form is a clean word that the token step leaves alone. *)
Definition stable (T : Tables) (t : Token) : bool :=
  cleanWord t && token_eqb (normalize_token T t) t.

(** The tables are canonical when every form they can produce is stable:
    the right-hand sides of the substitution table and the two
    placeholders. *)
Definition canonicalTables (T : Tables) : bool :=
  forallb (fun kv => stable T (list_ascii_of_string (snd kv))) (substitutions T)
  && stable T AMOUNT_TOKEN && stable T ENTITY_TOKEN.

End Normalizer.

(** *** Rule Engine (design section 4.2) *)

Record Rule := mkRule {
  predicate : RawText -> CleanText -> bool;
  target : CategoryLabel;
  base_confidence : Q
}.

(** [matched_pattern] identifies the rule by its position in the table. *)
Module RuleVerdict.
Record t := mk {
  label : option CategoryLabel;
  confidence : Q;
  matched_pattern : option nat
}.
End RuleVerdict.

(** The null verdict: confidence 0, label undefined. *)
Definition null_verdict : RuleVerdict.t :=
  {| RuleVerdict.label := None;
     RuleVerdict.confidence := 0;
     RuleVerdict.matched_pattern := None |}.

Definition verdict_of (i : nat) (r : Rule) : RuleVerdict.t :=
  {| RuleVerdict.label := Some (target r);
     RuleVerdict.confidence := base_confidence r;
     RuleVerdict.matched_pattern := Some i |}.

Fixpoint evaluate_from (i : nat) (rules : list Rule) (raw : RawText)
    (clean : CleanText) : RuleVerdict.t :=
  match rules with
  | [] => null_verdict
  | r :: rules' =>
      if predicate r raw clean then verdict_of i r
      else evaluate_from (S i) rules' raw clean
  end.

(** Modelled from the spec: the rule engine (core/rules.py) is not in the
    tree.  Section 4.2: the rules are scanned in priority order and the
    first whose predicate holds gives the verdict; when none holds the
    verdict is null. *)
Definition evaluate (rules : list Rule) (raw : RawText) (clean : CleanText)
    : RuleVerdict.t :=
  evaluate_from 0 rules raw clean.

(** *** Sequence classifier and centroid store (sections 4.3 and 4.4) *)

(** [label_probabilities]: the trained labels with their probabilities. *)
Definition ClassifierVerdict := list (CategoryLabel * Q).

(** The entry with the greatest score; of equal scores the earlier one. *)
Fixpoint argmax (scores : list (CategoryLabel * Q)) : option (CategoryLabel * Q) :=
  match scores with
  | [] => None
  | (l, p) :: rest =>
      match argmax rest with
      | Some (l', p') => if Qle_bool p' p then Some (l, p) else Some (l', p')
      | None => Some (l, p)
      end
  end.

(** The classifier's arg-max label and its probability. *)
Definition top (cv : ClassifierVerdict) : CategoryLabel * Q :=
  default (Others, 0%Q) (argmax cv).

Definition Embedding := list Q.

(** The thresholds the design gives no value for: the rescue threshold, the
    margin by which a cosine score "meaningfully exceeds" the classifier's
    probability, and the weight of the probability in the blend. *)
Record Config := mkConfig {
  RESCUE_THRESHOLD : Q;
  HYBRID_MARGIN : Q;
  BLEND_WEIGHT : Q
}.

Definition HIGH_RULE_THRESHOLD : Q := 9 # 10.
Definition ML_ACCEPT_THRESHOLD : Q := 7 # 10.

(** The loaded state the fusion controller works on: normalizer tables,
    registered labels, rule table, classifier, embedding model with its
    cosine similarity, centroid store and thresholds. *)
Record Context := mkContext {
  tables : Normalizer.Tables;
  labels : list CategoryLabel;
  rules : list Rule;
  predict : CleanText -> ClassifierVerdict;
  embed : CleanText -> Embedding;
  cosine : Embedding -> Embedding -> Q;
  centroids : list (CategoryLabel * Embedding);
  config : Config
}.

(** Modelled from the spec: the centroid lookup (core/model.py) is not in
    the tree.  Section 4.4: the text is embedded once and compared with
    every stored centroid; the label of greatest cosine similarity is
    returned with that similarity.  With no centroid stored there is no
    answer. *)
Definition nearest_label (ctx : Context) (clean : CleanText)
    : option (CategoryLabel * Q) :=
  let e := embed ctx clean in
  argmax (List.map (fun lc => (fst lc, cosine ctx e (snd lc))) (centroids ctx)).

(** *** Fusion controller (sections 4.5 and 7) *)

Inductive Strategy := RULE | ML | HYBRID | FALLBACK.

(** The verdicts a decision can have consulted. *)
Inductive Verdict :=
| RuleConsulted (rv : RuleVerdict.t)
| ClassifierConsulted (cv : ClassifierVerdict)
| CentroidConsulted (near : option (CategoryLabel * Q)).

Module Decision.
Record t := mk {
  category : CategoryLabel;
  confidence : Q;
  strategy : Strategy;
  trace : list Verdict
}.
End Decision.

Definition blend (w p s : Q) : Q := (w * p + (1 - w) * s)%Q.

(** State 4, embedding rescue, and state 5, fallback. *)
Definition embedding_rescue (ctx : Context) (rv : RuleVerdict.t)
    (cv : ClassifierVerdict) (clean : CleanText) : Decision.t :=
  let (l, p) := top cv in
  let near := nearest_label ctx clean in
  let consulted :=
    [RuleConsulted rv; ClassifierConsulted cv; CentroidConsulted near] in
  match near with
  | Some (cl, cosine_score) =>
      if Qle_bool (RESCUE_THRESHOLD (config ctx)) cosine_score &&
         (String.eqb cl l ||
          Qle_bool (p + HYBRID_MARGIN (config ctx))%Q cosine_score)
      then {| Decision.category := cl;
              Decision.confidence :=
                blend (BLEND_WEIGHT (config ctx)) p cosine_score;
              Decision.strategy := HYBRID;
              Decision.trace := consulted |}
      else {| Decision.category := Others;
              Decision.confidence := p;
              Decision.strategy := FALLBACK;
              Decision.trace := consulted |}
  | None =>
      {| Decision.category := Others;
         Decision.confidence := p;
         Decision.strategy := FALLBACK;
         Decision.trace := consulted |}
  end.

(** State 3, classifier check. *)
Definition classifier_check (ctx : Context) (rv : RuleVerdict.t)
    (clean : CleanText) : Decision.t :=
  let cv := predict ctx clean in
  let (l, p) := top cv in
  if Qle_bool ML_ACCEPT_THRESHOLD p
  then {| Decision.category := l;
          Decision.confidence := p;
          Decision.strategy := ML;
          Decision.trace := [RuleConsulted rv; ClassifierConsulted cv] |}
  else embedding_rescue ctx rv cv clean.

(** Modelled from the spec: the fusion controller (core/model.py) is not in
    the tree.  Section 4.5: normalize once; the rule check is terminal at
    [HIGH_RULE_THRESHOLD]; then the classifier check, the embedding rescue
    and the fallback.  Section 7: on empty text the classifier is not
    invoked and the decision is [Others] with confidence 0. *)
Definition classify (ctx : Context) (text : RawText) : Decision.t :=
  let clean := Normalizer.normalize (tables ctx) text in
  let rv := evaluate (rules ctx) text clean in
  if Qle_bool HIGH_RULE_THRESHOLD (RuleVerdict.confidence rv)
  then {| Decision.category := default Others (RuleVerdict.label rv);
          Decision.confidence := RuleVerdict.confidence rv;
          Decision.strategy := RULE;
          Decision.trace := [RuleConsulted rv] |}
  else if String.eqb clean ""
  then {| Decision.category := Others;
          Decision.confidence := 0%Q;
          Decision.strategy := FALLBACK;
          Decision.trace := [RuleConsulted rv] |}
  else classifier_check ctx rv clean.

(** *** The service around the controller (sections 4.6 and 6) *)








End Core.

(** ** Vocabulary of the statements about the storage service *)

Module StorageSpec.
Import LocalStorageService.

(** The names of a category list are pairwise distinct ignoring case. *)
Definition caseDistinct (toLowerCase : string -> string) (l : list Category) : Prop :=
  NoDup (List.map (fun c => toLowerCase (name c)) l).

(** Every stored category list, whichever user it belongs to, is
    duplicate-free ignoring case. *)
Definition duplicateFree (toLowerCase : string -> string) (w : Window) : Prop :=
  forall userId, caseDistinct toLowerCase (categoryService.getAll w userId).

(** The calls that write the category list. *)
Inductive CategoryCall :=
| CallAdd (now categoryName : string) (userId : option string)
| CallRemove (categoryName : string) (userId : option string).

Definition perform (toLowerCase : string -> string) (c : CategoryCall)
    (w : Window) : Window :=
  match c with
  | CallAdd now categoryName userId =>
      categoryService.add toLowerCase now categoryName userId w
  | CallRemove categoryName userId =>
      categoryService.remove categoryName userId w
  end.

Definition performAll (toLowerCase : string -> string) (cs : list CategoryCall)
    (w : Window) : Window :=
  fold_left (fun w c => perform toLowerCase c w) cs w.

(** Two windows hold the same items except, possibly, the category list
    under [key]. *)
Definition sameExceptCategories (key : string) (w w' : Window) : Prop :=
  match w, w' with
  | Some ls, Some ls' =>
      auth_session ls' = auth_session ls /\
      transactions ls' = transactions ls /\
      forall k, k <> key -> categories ls' !! k = categories ls !! k
  | None, None => True
  | _, _ => False
  end.

(** The same for the transaction list under [key]. *)
Definition sameExceptTransactions (key : string) (w w' : Window) : Prop :=
  match w, w' with
  | Some ls, Some ls' =>
      auth_session ls' = auth_session ls /\
      categories ls' = categories ls /\
      forall k, k <> key -> transactions ls' !! k = transactions ls !! k
  | None, None => True
  | _, _ => False
  end.

(** One field of a merge: [new] is the value the update carries for the
    field when it carries one, and the old value otherwise. *)
Definition Overrides {A} (old : A) (update : option A) (new : A) : Prop :=
  match update with
  | Some v => new = v
  | None => new = old
  end.

(** [t'] is the field-wise merge of [t] with [updates]. *)
Definition MergeOf (t : Transaction) (updates : Partial.t) (t' : Transaction)
    : Prop :=
  Overrides (id t) (Partial.id updates) (id t') /\
  Overrides (description t) (Partial.description updates) (description t') /\
  Overrides (amount t) (Partial.amount updates) (amount t') /\
  Overrides (category t) (Partial.category updates) (category t') /\
  Overrides (date t) (Partial.date updates) (date t') /\
  Overrides (recipient t) (Partial.recipient updates) (recipient t') /\
  Overrides (type t) (Partial.type updates) (type t').

(** ASCII lower-casing, the part of [toLowerCase] the examples need. *)
Definition asciiLower (s : string) : string :=
  string_of_list_ascii
    (List.map Core.Normalizer.toLower (list_ascii_of_string s)).

End StorageSpec.

(** ** Vocabulary of the statements about the notification filter *)

Module NotifierSpec.
Import NotificationService.

(** The words a regular expression matches. *)
Inductive Matches : Regex -> Text -> Prop :=
| MatchesEps : Matches Eps []
| MatchesClass p c : p c = true -> Matches (Class p) [c]
| MatchesAltL r1 r2 s : Matches r1 s -> Matches (Alt r1 r2) s
| MatchesAltR r1 r2 s : Matches r2 s -> Matches (Alt r1 r2) s
| MatchesSeq r1 r2 s1 s2 :
    Matches r1 s1 -> Matches r2 s2 -> Matches (Seq r1 r2) (s1 ++ s2)
| MatchesStarNil r : Matches (Star r) []
| MatchesStarApp r s1 s2 :
    Matches r s1 -> Matches (Star r) s2 -> Matches (Star r) (s1 ++ s2).

(** The five words of the payment-app check. *)
Definition paymentWords : list Text :=
  [ lit "payment"; lit "bank"; lit "upi"; lit "wallet"; lit "pay" ].

(** The six packages that pass the payment-app check by their name alone:
    WhatsApp, PhonePe, Google Pay, BHIM, Paytm and Amazon. *)
Definition listedPackages : list Text :=
  [ lit "com.whatsapp";
    lit "com.phonepe.app";
    lit "com.google.android.apps.nbu.paisa.user";
    lit "in.org.npci.upiapp";
    lit "com.paytm";
    lit "com.amazon.in" ].

(** The seventeen transaction keywords: eleven words for what happened to
    the money, three currency marks and three words for where it is. *)
Definition keywords : list Text :=
  [ lit "paid"; lit "received"; lit "sent"; lit "transfer"; lit "upi";
    lit "transaction"; lit "debited"; lit "credited"; lit "payment";
    lit "purchase"; lit "order" ] ++
  [ lit "rs."; [8377%N]; lit "inr" ] ++
  [ lit "amount"; lit "bank"; lit "account" ].

Section Platform.

Variable uppercaseChar lowercaseChar : Char -> Char.
Variable regexEqualsIgnoreCase : Char -> Char -> bool.
Variable regexSpace regexDigit : Char -> bool.

(** Two characters are equal ignoring case: they are the same character,
    or have the same upper case, or their upper cases have the same lower
    case. *)
Definition EqualIgnoringCase (a b : Char) : Prop :=
  a = b \/
  uppercaseChar a = uppercaseChar b \/
  lowercaseChar (uppercaseChar a) = lowercaseChar (uppercaseChar b).

(** [word] occurs in [text], ignoring case: some piece of the text has the
    length of the word and equals it character by character, ignoring
    case. *)
Definition Occurs (word text : Text) : Prop :=
  exists pre found post,
    text = pre ++ found ++ post /\ Forall2 EqualIgnoringCase word found.

(** The payment-app check: the package name contains one of the payment
    words, or is one of the six listed packages. *)
Definition IsPaymentApp (packageName : Text) : Prop :=
  (exists word, In word paymentWords /\ Occurs word packageName) \/
  In packageName listedPackages.

Definition HasTransactionKeyword (text : Text) : Prop :=
  exists keyword, In keyword keywords /\ Occurs keyword text.

(** [s] spells [word], up to the case-insensitive comparison of the regular
    expression engine. *)
Definition Spells (word s : Text) : Prop :=
  Forall2 (fun o c => regexEqualsIgnoreCase o c = true) word s.

(** A currency marker: the rupee sign, [rs.], [rs] or [inr]. *)
Definition CurrencyMarker (s : Text) : Prop :=
  Spells [RUPEE] s \/ Spells (lit "rs.") s \/ Spells (lit "rs") s \/
  Spells (lit "inr") s.

(** An amount: a currency marker, any whitespace, one digit or more. *)
Definition IsAmount (s : Text) : Prop :=
  exists marker spaces digits,
    s = marker ++ spaces ++ digits /\
    CurrencyMarker marker /\
    Forall (fun c => regexSpace c = true) spaces /\
    digits <> [] /\
    Forall (fun c => regexDigit c = true) digits.

Definition HasAmountPattern (text : Text) : Prop :=
  exists pre found post, text = pre ++ found ++ post /\ IsAmount found.

End Platform.

End NotifierSpec.

(** ** Sample data *)

Module StorageSamples.
Import LocalStorageService StorageSpec.

Definition food : Category :=
  {| name := "Food"; createdAt := "2025-11-20T13:22:01.122Z" |}.
Definition bills : Category :=
  {| name := "Bills"; createdAt := "2025-11-20T13:22:01.122Z" |}.

Definition lunch : Transaction :=
  {| id := "txn_1"; description := "Payment to Swiggy"; amount := 389 # 1;
     category := "Food & Dining"; date := "2025-11-20T13:22:01.122Z";
     recipient := Some "Swiggy"; type := Some debit |}.
Definition cab : Transaction :=
  {| id := "txn_2"; description := "Payment to Uber"; amount := 120 # 1;
     category := "Shopping"; date := "2025-11-21T09:00:00.000Z";
     recipient := Some "Uber"; type := Some debit |}.
Definition cabAgain : Transaction :=
  {| id := "txn_2"; description := "Refund from Uber"; amount := 120 # 1;
     category := "Shopping"; date := "2025-11-22T09:00:00.000Z";
     recipient := None; type := Some credit |}.

(** A signed-in browser: the session carries the phone number, and the two
    lists live under the keys derived from it. *)
Definition browser : LocalStorage :=
  {| auth_session := Some (SessionParsed (Some "+919876543210"));
     transactions :=
       {[ "transactai_transactions_919876543210" := [lunch; cab; cabAgain] ]};
     categories :=
       {[ "transactai_categories_919876543210" := [food; bills] ]} |}.

(** [{ category: newCat }], the update the transactions page sends. *)
Definition recategorize (newCat : string) : Partial.t :=
  {| Partial.id := None; Partial.description := None; Partial.amount := None;
     Partial.category := Some newCat; Partial.date := None;
     Partial.recipient := None; Partial.type := None |}.

End StorageSamples.

Module NotifierSamples.
Import NotificationService.

(** An ASCII-only runtime: letters [A]-[Z] and [a]-[z] are the only
    characters with case, [\s] is space and the controls 9 to 13, [\d] is
    [0]-[9]. *)
Definition asciiUpper (c : Char) : Char :=
  if ((97 <=? c) && (c <=? 122))%N then (c - 32)%N else c.
Definition asciiLower (c : Char) : Char :=
  if ((65 <=? c) && (c <=? 90))%N then (c + 32)%N else c.
Definition asciiEqualsIgnoreCase (a b : Char) : bool :=
  (asciiLower a =? asciiLower b)%N.
Definition asciiSpace (c : Char) : bool :=
  ((c =? 32) || ((9 <=? c) && (c <=? 13)))%N.
Definition asciiDigit (c : Char) : bool := ((48 <=? c) && (c <=? 57))%N.

Definition isTransactionNotificationAscii : Text -> Text -> bool :=
  isTransactionNotification asciiUpper asciiLower asciiEqualsIgnoreCase
    asciiSpace asciiDigit.

End NotifierSamples.

(** ** Vocabulary of the statements about the core *)

Module CoreSpec.
Import Core.

(** Rule [r], at position [i] of the table, is the pattern the rule engine
    matches on [text]: the first rule in priority order whose predicate
    holds on the raw and the normalized text. *)
Definition Fires (ctx : Context) (text : RawText) (i : nat) (r : Rule) : Prop :=
  rules ctx !! i = Some r /\
  RuleVerdict.matched_pattern
    (evaluate (rules ctx) text (Normalizer.normalize (tables ctx) text)) = Some i.

(** Two contexts that differ at most in the classifier, the embedding model
    and the centroid store. *)
Definition sameRules (ctx ctx' : Context) : Prop :=
  tables ctx' = tables ctx /\ rules ctx' = rules ctx.


Definition centroidConsulted (d : Decision.t) : bool :=
  existsb (fun v => match v with CentroidConsulted _ => true | _ => false end)
    (Decision.trace d).

(** The decisions among the results of a run. *)
Definition decisions (results : list (option Decision.t)) : list Decision.t :=
  omap (fun d => d) results.

End CoreSpec.

Module CoreSamples.
Import Core.

Definition sampleTables : Normalizer.Tables :=
  {| Normalizer.substitutions :=
       [ ("pymt", "payment"); ("txn", "transaction"); ("rcvd", "received");
         ("recd", "received"); ("rs.", "inr") ];
     Normalizer.boilerplate := [ "gpay:"; "phonepe:" ];
     Normalizer.entity_min_digits := 10 |}.

(** Does [needle] occur in [hay]? *)
Fixpoint occursIn (needle hay : string) : bool :=
  String.prefix needle hay ||
  match hay with
  | EmptyString => false
  | String _ hay' => occursIn needle hay'
  end.

Definition swiggyRule : Rule :=
  {| predicate := fun _ clean => occursIn "swiggy" clean;
     target := "Food";
     base_confidence := 95 # 100 |}.

Definition salaryRule : Rule :=
  {| predicate := fun _ clean => occursIn "salary credited" clean;
     target := "Income";
     base_confidence := 1 |}.

(** A rule whose predicate holds on every text. *)
Definition catchAllRule : Rule :=
  {| predicate := fun _ _ => true;
     target := "Bills";
     base_confidence := 1 |}.

Definition dot (u v : Embedding) : Q :=
  fold_right Qplus 0%Q (List.map (fun uv => (fst uv * snd uv)%Q) (combine u v)).

Definition sampleConfig : Config :=
  {| RESCUE_THRESHOLD := 6 # 10; HYBRID_MARGIN := 2 # 10; BLEND_WEIGHT := 1 # 2 |}.

(** A context whose classifier answers every text with the same
    distribution and whose embedding model maps every text to the same unit
    vector. *)
Definition sampleContext (rs : list Rule) (cv : ClassifierVerdict) : Context :=
  {| tables := sampleTables;
     labels := [ "Food"; "Fuel"; "Bills"; "Income" ];
     rules := rs;
     predict := fun _ => cv;
     embed := fun _ => [ 1; 0 ]%Q;
     cosine := dot;
     centroids := [ ("Fuel", [ 4 # 5; 3 # 5 ]); ("Food", [ 0; 1 ]%Q) ];
     config := sampleConfig |}.

Definition unsure : ClassifierVerdict :=
  [ ("Food", 20 # 100); ("Fuel", 55 # 100); ("Bills", 25 # 100) ].

Definition sure : ClassifierVerdict :=
  [ ("Food", 10 # 100); ("Fuel", 10 # 100); ("Bills", 80 # 100) ].

Definition atThreshold : ClassifierVerdict :=
  [ ("Food", 7 # 10); ("Fuel", 2 # 10); ("Bills", 1 # 10) ].

End CoreSamples.

(** ** localStorageService.ts: the remaining operations *)

Module StorageRest.
Import LocalStorageService.

Module transactionService.

Definition saveMany (transactions0 : list Transaction) (userId : option string)
    (w : Window) : Window :=
  match w with
  | None => None
  | Some ls =>
      let key := getUserKey ls STORAGE_KEYS.TRANSACTIONS userId in
      Some {| auth_session := auth_session ls;
              transactions := <[key := transactions0]> (transactions ls);
              categories := categories ls |}
  end.

Definition delete (id0 : string) (userId : option string) (w : Window) : Window :=
  match w with
  | None => None
  | Some ls =>
      let all := LocalStorageService.transactionService.getAll w userId in
      let filtered := List.filter (fun t => negb (String.eqb (id t) id0)) all in
      let key := getUserKey ls STORAGE_KEYS.TRANSACTIONS userId in
      Some {| auth_session := auth_session ls;
              transactions := <[key := filtered]> (transactions ls);
              categories := categories ls |}
  end.

Definition getByCategory (category0 : string) (userId : option string)
    (w : Window) : list Transaction :=
  List.filter (fun t => String.eqb (category t) category0)
    (LocalStorageService.transactionService.getAll w userId).

End transactionService.

Module authService.

(** [saveSession(phone)].  The item written is an object with the phone and
    a timestamp; the representation of the session item keeps the phone. *)
Definition saveSession (phone : string) (w : Window) : Window :=
  match w with
  | None => None
  | Some ls =>
      Some {| auth_session := Some (SessionParsed (Some phone));
              transactions := transactions ls;
              categories := categories ls |}
  end.

(** What [getSession()] gives its caller:
    - [NoSession]: [null];
    - [FalsySession]: a falsy value that is not [null] ([0], [false] or
      the empty string): a caller testing [session] takes it for no
      session, a caller reading [session?.phone.replace] throws;
    - [SessionOf phone]: an object with the phone, as [saveSession] writes
      it;
    - [ForeignSession]: [getSession] throws (the item is no JSON), or it
      returns a truthy value whose [phone] is no string, so that reading
      [session.phone.replace] throws. *)
Inductive SessionRead :=
| NoSession
| FalsySession
| SessionOf (phone : string)
| ForeignSession.

Definition getSession (w : Window) : SessionRead :=
  match w with
  | None => NoSession
  | Some ls =>
      match auth_session ls with
      | None => NoSession
      | Some SessionNull => NoSession
      | Some SessionFalsy => FalsySession
      | Some (SessionParsed (Some phone)) => SessionOf phone
      | Some (SessionParsed None) => ForeignSession
      | Some SessionUnreadable => ForeignSession
      end
  end.

End authService.

Definition defaultCategories : list string :=
  [ "Food & Dining"; "Shopping"; "Transportation"; "Bills & Utilities";
    "Entertainment"; "Healthcare"; "Education"; "Travel"; "Groceries" ].

(** [cats.forEach(cat => categoryService.add(cat, userId))]; the [i]-th call
    of the page reads the clock as [now i]. *)
Fixpoint addEach (toLowerCase : string -> string) (now : nat -> string)
    (i : nat) (cats : list string) (userId : option string) (w : Window) : Window :=
  match cats with
  | [] => w
  | cat :: cats' =>
      addEach toLowerCase now (S i) cats' userId
        (categoryService.add toLowerCase (now i) cat userId w)
  end.

(** [initializeData(userId)].  [simulated] is what
    [generateSimulatedTransactions(50)] returns at this call. *)
Definition initializeData (toLowerCase : string -> string)
    (simulated : list Transaction) (now : nat -> string)
    (userId : option string) (w : Window) : Window :=
  match w with
  | None => None
  | Some _ =>
      let w1 :=
        if (length (LocalStorageService.transactionService.getAll w userId) =? 0)%nat
        then transactionService.saveMany simulated userId w
        else w in
      if (length (categoryService.getAll w1 userId) =? 0)%nat
      then addEach toLowerCase now 0 defaultCategories userId w1
      else w1
  end.

(** The user id the pages compute before calling the services:
    [session?.phone.replace(/\+/g, '')].  [None] stands for [undefined]. *)
Definition pageUserId (phone : option string) : option string :=
  removePlus <$> phone.

(** The truthiness of [names.find(c => c.toLowerCase() ===
    name.toLowerCase())]: a name was found and it is not the empty
    string. *)
Definition foundName (toLowerCase : string -> string) (name0 : string)
    (names : list string) : bool :=
  match
    List.find (fun c => String.eqb (toLowerCase c) (toLowerCase name0)) names
  with
  | Some found => negb (String.eqb found "")
  | None => false
  end.

Module CategorizeTransactionDialog.

(** What the dialog does with the name typed in. *)
Inductive DialogOutcome :=
| PleaseEnterName
| AlreadyExists
| Added (shown : list string).

(** [handleAddCategory] of CategorizeTransactionDialog, for a session that
    is absent ([phone = None]) or was written by [saveSession].  [trim] is
    [String.prototype.trim]. *)
Definition handleAddCategory (toLowerCase trim : string -> string)
    (now : string) (newCategory : string) (phone : option string)
    (w : Window) : DialogOutcome * Window :=
  if String.eqb (trim newCategory) "" then (PleaseEnterName, w)
  else
    let userId := pageUserId phone in
    let categoryName := trim newCategory in
    let existing := categoryService.getNames w userId in
    if foundName toLowerCase categoryName existing then (AlreadyExists, w)
    else
      let w' := categoryService.add toLowerCase now categoryName userId w in
      (Added (categoryService.getNames w' None), w').

End CategorizeTransactionDialog.

Module NotificationSimulator.

(** [saveTransaction(amount, receiver, category)] of the notification
    simulator, for a session that is absent ([phone = None]) or was written
    by [saveSession].  [newId] is the id built from the clock and the
    random source, [nowCategory] and [nowTransaction] the two readings of
    the clock. *)
Definition saveTransaction (toLowerCase : string -> string)
    (newId nowCategory nowTransaction : string) (amount0 : Q)
    (receiver category0 : string) (phone : option string) (w : Window) : Window :=
  let userId := pageUserId phone in
  let names := categoryService.getNames w userId in
  let w1 :=
    if negb (foundName toLowerCase category0 names)
    then categoryService.add toLowerCase nowCategory category0 userId w
    else w in
  let transaction :=
    {| id := newId;
       description := "Payment to " +:+ receiver;
       amount := amount0;
       category := category0;
       date := nowTransaction;
       recipient := Some receiver;
       type := Some debit |} in
  LocalStorageService.transactionService.save transaction userId w1.

End NotificationSimulator.

Module TransactionsPage.

(** [handleCategoryChange(id, newCat)] of the transactions page: the user
    id is [session?.phone?.replace(/\+/g, "") || ""]. *)
Definition handleCategoryChange (id0 newCat : string) (phone : option string)
    (w : Window) : Window :=
  let userId := Some (orElse (removePlus <$> phone) "") in
  LocalStorageService.transactionService.update id0
    {| Partial.id := None; Partial.description := None; Partial.amount := None;
       Partial.category := Some newCat; Partial.date := None;
       Partial.recipient := None; Partial.type := None |}
    userId w.

End TransactionsPage.

End StorageRest.

(** ** localStorageService.ts: profile, PIN, session and onboarding, and the
    pages that route on them *)

Module BrowserServices.
Import LocalStorageService.

(** [interface UserProfile]. *)
Module UserProfile.
Record t := mk {
  phone : string;
  name : option string;
  fullName : option string;
  gender : option string;
  email : option string;
  createdAt : option string;
  updatedAt : option string
}.
End UserProfile.

(** [Partial<UserProfile>]; as for transactions, a key of an optional field
    may be present and carry [undefined]. *)
Module PartialProfile.
Record t := mk {
  phone : option string;
  name : option (option string);
  fullName : option (option string);
  gender : option (option string);
  email : option (option string);
  createdAt : option (option string);
  updatedAt : option (option string)
}.
End PartialProfile.

(** The browser of a page: the items of [localStorage] the services of the
    first part use, the profile items, the PIN items, the onboarding item,
    and [sessionStorage]. *)
Record Browser := mkBrowser {
  local : LocalStorage;
  profiles : gmap string UserProfile.t;
  pins : gmap string string;
  onboarding : option string;
  sessionStorage : gmap string string
}.

(** [None] where [typeof window === 'undefined']. *)
Definition Page := option Browser.

Definition window (p : Page) : Window := local <$> p.

(** The object spread [{ ...current, ...updates }] of profiles. *)
Definition spreadProfile (p : UserProfile.t) (u : PartialProfile.t) : UserProfile.t :=
  {| UserProfile.phone := default (UserProfile.phone p) (PartialProfile.phone u);
     UserProfile.name := default (UserProfile.name p) (PartialProfile.name u);
     UserProfile.fullName :=
       default (UserProfile.fullName p) (PartialProfile.fullName u);
     UserProfile.gender := default (UserProfile.gender p) (PartialProfile.gender u);
     UserProfile.email := default (UserProfile.email p) (PartialProfile.email u);
     UserProfile.createdAt :=
       default (UserProfile.createdAt p) (PartialProfile.createdAt u);
     UserProfile.updatedAt :=
       default (UserProfile.updatedAt p) (PartialProfile.updatedAt u) |}.

Module userService.

(** [saveProfile(profile, userId)]; [now] is the clock reading. *)
Definition saveProfile (now : string) (profile : UserProfile.t)
    (userId : option string) (p : Page) : Page :=
  match p with
  | None => None
  | Some b =>
      let data :=
        {| UserProfile.phone := UserProfile.phone profile;
           UserProfile.name := UserProfile.name profile;
           UserProfile.fullName := UserProfile.fullName profile;
           UserProfile.gender := UserProfile.gender profile;
           UserProfile.email := UserProfile.email profile;
           UserProfile.createdAt := UserProfile.createdAt profile;
           UserProfile.updatedAt := Some now |} in
      let owner :=
        if truthy userId then userId
        else Some (removePlus (UserProfile.phone profile)) in
      let key := getUserKey (local b) STORAGE_KEYS.USER_PROFILE owner in
      Some {| local := local b;
              profiles := <[key := data]> (profiles b);
              pins := pins b;
              onboarding := onboarding b;
              sessionStorage := sessionStorage b |}
  end.

Definition getProfile (userId : option string) (p : Page) : option UserProfile.t :=
  match p with
  | None => None
  | Some b =>
      let key := getUserKey (local b) STORAGE_KEYS.USER_PROFILE userId in
      profiles b !! key
  end.

Definition updateProfile (now : string) (updates : PartialProfile.t)
    (userId : option string) (p : Page) : Page :=
  match getProfile userId p with
  | Some current => saveProfile now (spreadProfile current updates) userId p
  | None => p
  end.

End userService.

Module pinService.

(** [userId ? `${STORAGE_KEYS.PIN}_${userId}` : STORAGE_KEYS.PIN]. *)
Definition key (userId : option string) : string :=
  match userId with
  | Some u => if truthy userId then STORAGE_KEYS.PIN +:+ "_" +:+ u else STORAGE_KEYS.PIN
  | None => STORAGE_KEYS.PIN
  end.

Definition save (pin : string) (userId : option string) (p : Page) : Page :=
  match p with
  | None => None
  | Some b =>
      Some {| local := local b;
              profiles := profiles b;
              pins := <[key userId := pin]> (pins b);
              onboarding := onboarding b;
              sessionStorage := sessionStorage b |}
  end.

Definition verify (pin : string) (userId : option string) (p : Page) : bool :=
  match p with
  | None => false
  | Some b => bool_decide (pins b !! key userId = Some pin)
  end.

Definition exists_ (userId : option string) (p : Page) : bool :=
  match p with
  | None => false
  | Some b => truthy (pins b !! key userId)
  end.

Definition remove (userId : option string) (p : Page) : Page :=
  match p with
  | None => None
  | Some b =>
      Some {| local := local b;
              profiles := profiles b;
              pins := base.delete (key userId) (pins b);
              onboarding := onboarding b;
              sessionStorage := sessionStorage b |}
  end.

Definition get (userId : option string) (p : Page) : option string :=
  match p with
  | None => None
  | Some b => pins b !! key userId
  end.

End pinService.

(** [`app_unlocked_${phone}`]. *)
Definition unlockKey (userId : string) : string := "app_unlocked_" +:+ userId.

Module authService.

Definition saveSession (phone : string) (p : Page) : Page :=
  match p with
  | None => None
  | Some b =>
      Some {| local := {| auth_session := Some (SessionParsed (Some phone));
                          transactions := transactions (local b);
                          categories := categories (local b) |};
              profiles := profiles b;
              pins := pins b;
              onboarding := onboarding b;
              sessionStorage := sessionStorage b |}
  end.

Definition getSession (p : Page) : StorageRest.authService.SessionRead :=
  StorageRest.authService.getSession (window p).

(** [clearSession()].  The result is [None] where the call throws before
    it removes anything: [getSession] throws, or [session.phone.replace]
    does. *)
Definition clearSession (p : Page) : option Page :=
  match p with
  | None => Some None
  | Some b =>
      let cleared (store : gmap string string) :=
        Some (Some {| local := {| auth_session := None;
                                  transactions := transactions (local b);
                                  categories := categories (local b) |};
                      profiles := profiles b;
                      pins := pins b;
                      onboarding := onboarding b;
                      sessionStorage := store |}) in
      match getSession p with
      | StorageRest.authService.NoSession => cleared (sessionStorage b)
      | StorageRest.authService.FalsySession => cleared (sessionStorage b)
      | StorageRest.authService.SessionOf phone =>
          cleared (base.delete (unlockKey (removePlus phone)) (sessionStorage b))
      | StorageRest.authService.ForeignSession => None
      end
  end.

End authService.

Module onboardingService.

Definition markComplete (p : Page) : Page :=
  match p with
  | None => None
  | Some b =>
      Some {| local := local b; profiles := profiles b; pins := pins b;
              onboarding := Some "true"; sessionStorage := sessionStorage b |}
  end.

Definition isComplete (p : Page) : bool :=
  match p with
  | None => false
  | Some b => bool_decide (onboarding b = Some "true")
  end.

Definition reset (p : Page) : Page :=
  match p with
  | None => None
  | Some b =>
      Some {| local := local b; profiles := profiles b; pins := pins b;
              onboarding := None; sessionStorage := sessionStorage b |}
  end.

End onboardingService.

Inductive Route := Onboarding | Login | Setup | Unlock | Dashboard.

Module Home.

(** [checkAuthFlow] of the landing page, which runs in a browser.  The
    result is [None] where the function throws before it routes:
    [getSession] throws, or [session.phone.replace] does. *)
Definition checkAuthFlow (b : Browser) : option Route :=
  if negb (onboardingService.isComplete (Some b)) then Some Onboarding
  else
    match authService.getSession (Some b) with
    | StorageRest.authService.NoSession => Some Login
    | StorageRest.authService.FalsySession => Some Login
    | StorageRest.authService.ForeignSession => None
    | StorageRest.authService.SessionOf phone =>
        let userId := removePlus phone in
        match userService.getProfile (Some userId) (Some b) with
        | None => Some Setup
        | Some profile =>
            if negb (truthy (UserProfile.fullName profile)) then Some Setup
            else if pinService.exists_ (Some userId) (Some b) &&
                    negb (truthy (sessionStorage b !! unlockKey userId))
            then Some Unlock
            else Some Dashboard
        end
    end.

End Home.

Module UnlockPage.

(** [handlePinComplete(pin)] of the unlock page; [userId] is the state the
    page set when it mounted. *)
Definition handlePinComplete (pin : string) (userId : option string) (b : Browser)
    : Browser :=
  match userId with
  | Some u =>
      if truthy userId then
        if pinService.verify pin userId (Some b)
        then {| local := local b; profiles := profiles b; pins := pins b;
                onboarding := onboarding b;
                sessionStorage := <[unlockKey u := "true"]> (sessionStorage b) |}
        else b
      else b
  | None => b
  end.

End UnlockPage.

Module PinSetupPage.

(** [handlePinComplete(pin)] of the PIN setup page: the user id is
    [session?.phone.replace(/\+/g, "") || "default"], for a session that is
    absent ([phone = None]) or was written by [saveSession]. *)
Definition handlePinComplete (pin : string) (phone : option string) (b : Browser)
    : Page :=
  let userId := orElse (removePlus <$> phone) "default" in
  match pinService.save pin (Some userId) (Some b) with
  | Some b1 =>
      Some {| local := local b1; profiles := profiles b1; pins := pins b1;
              onboarding := onboarding b1;
              sessionStorage := <[unlockKey userId := "true"]> (sessionStorage b1) |}
  | None => None
  end.

End PinSetupPage.

Module Sidebar.

(** [handleLogout] of the sidebar.  The result is [None] where the handler
    throws before it removes anything. *)
Definition handleLogout (b : Browser) : option Page :=
  match authService.getSession (Some b) with
  | StorageRest.authService.NoSession => authService.clearSession (Some b)
  | StorageRest.authService.FalsySession => authService.clearSession (Some b)
  | StorageRest.authService.SessionOf phone =>
      authService.clearSession
        (Some {| local := local b; profiles := profiles b; pins := pins b;
                 onboarding := onboarding b;
                 sessionStorage :=
                   base.delete (unlockKey (removePlus phone)) (sessionStorage b) |})
  | StorageRest.authService.ForeignSession => None
  end.

End Sidebar.

End BrowserServices.

Module StorageRestSpec.
Import LocalStorageService.

(** The page computed its user id from the session the window holds:
    [phone] is [None] when [getSession()] is [null], and the phone of the
    session otherwise. *)
Definition ReadsSession (w : Window) (phone : option string) : Prop :=
  match phone with
  | None => StorageRest.authService.getSession w = StorageRest.authService.NoSession
  | Some p => StorageRest.authService.getSession w = StorageRest.authService.SessionOf p
  end.

(** A transaction with another category. *)
Definition withCategory (c : string) (t : Transaction) : Transaction :=
  {| id := id t; description := description t; amount := amount t;
     category := c; date := date t; recipient := recipient t; type := type t |}.

End StorageRestSpec.

Module BrowserSpec.
Import LocalStorageService BrowserServices.

(** [{ ...profile, updatedAt: now }]: the profile as [saveProfile] writes
    it. *)
Definition stamped (now : string) (profile : UserProfile.t) : UserProfile.t :=
  {| UserProfile.phone := UserProfile.phone profile;
     UserProfile.name := UserProfile.name profile;
     UserProfile.fullName := UserProfile.fullName profile;
     UserProfile.gender := UserProfile.gender profile;
     UserProfile.email := UserProfile.email profile;
     UserProfile.createdAt := UserProfile.createdAt profile;
     UserProfile.updatedAt := Some now |}.

(** [updated] is [current] overridden field by field by [updates], with
    [now] as its time stamp whatever the update carries for it. *)
Definition UpdatedProfile (now : string) (current : UserProfile.t)
    (updates : PartialProfile.t) (updated : UserProfile.t) : Prop :=
  StorageSpec.Overrides (UserProfile.phone current) (PartialProfile.phone updates)
    (UserProfile.phone updated) /\
  StorageSpec.Overrides (UserProfile.name current) (PartialProfile.name updates)
    (UserProfile.name updated) /\
  StorageSpec.Overrides (UserProfile.fullName current)
    (PartialProfile.fullName updates) (UserProfile.fullName updated) /\
  StorageSpec.Overrides (UserProfile.gender current) (PartialProfile.gender updates)
    (UserProfile.gender updated) /\
  StorageSpec.Overrides (UserProfile.email current) (PartialProfile.email updates)
    (UserProfile.email updated) /\
  StorageSpec.Overrides (UserProfile.createdAt current)
    (PartialProfile.createdAt updates) (UserProfile.createdAt updated) /\
  UserProfile.updatedAt updated = Some now.

(** Two browsers that differ at most in [sessionStorage]. *)
Definition sameLocalStorage (b1 b2 : Browser) : Prop :=
  local b1 = local b2 /\ profiles b1 = profiles b2 /\ pins b1 = pins b2 /\
  onboarding b1 = onboarding b2.

End BrowserSpec.


(** ** NotificationService.kt: the listener around the filter *)

Module NotificationListener.
Import NotificationService.

(** The space of the template ["$title $text $bigText"]. *)
Definition SPACE : Char := 32%N.

(** What [extras.getString] returns for the three keys [android.title],
    [android.text] and [android.bigText]; [None] is [null]. *)
Record Extras := mkExtras {
  android_title : option Text;
  android_text : option Text;
  android_bigText : option Text
}.

(** A [StatusBarNotification], as far as the service reads it.  [extras] is
    [None] where reading the extras throws. *)
Record StatusBarNotification := mkStatusBarNotification {
  packageName : Text;
  extras : option Extras
}.

Section Platform.

(** [Char.isWhitespace()] of the runtime. *)
Variable isWhitespace : Char -> bool.

Variable uppercaseChar lowercaseChar : Char -> Char.
Variable regexEqualsIgnoreCase : Char -> Char -> bool.
Variable regexSpace regexDigit : Char -> bool.

(** [trimStart()], [trimEnd()] and [trim()]: the text without its leading
    and without its trailing whitespace. *)
Fixpoint trimStart (s : Text) : Text :=
  match s with
  | [] => []
  | c :: s' => if isWhitespace c then trimStart s' else s
  end.

Definition trimEnd (s : Text) : Text := rev (trimStart (rev s)).

Definition trim (s : Text) : Text := trimEnd (trimStart s).

(** [extractNotificationText(sbn)]; the [catch] returns the empty text. *)
Definition extractNotificationText (sbn : StatusBarNotification) : Text :=
  match extras sbn with
  | Some e =>
      let title := default [] (android_title e) in
      let text := default [] (android_text e) in
      let bigText := default [] (android_bigText e) in
      trim (title ++ [SPACE] ++ text ++ [SPACE] ++ bigText)
  | None => []
  end.

(** [onNotificationPosted(sbn)]: the text handed to
    [ApiClient.categorizeTransaction], [None] when the notification is
    skipped. *)
Definition onNotificationPosted (sbn : StatusBarNotification) : option Text :=
  let notificationText := extractNotificationText sbn in
  if isTransactionNotification uppercaseChar lowercaseChar regexEqualsIgnoreCase
       regexSpace regexDigit (packageName sbn) notificationText
  then Some notificationText
  else None.

End Platform.

End NotificationListener.

Module NotifierRestSpec.
Import NotificationService.

(** The payment words and the listed packages without the word [payment]
    and without the two packages whose name holds a payment word. *)
Definition decidingWords : list Text :=
  [ lit "bank"; lit "upi"; lit "wallet"; lit "pay" ].

Definition decidingPackages : list Text :=
  [ lit "com.whatsapp"; lit "com.phonepe.app";
    lit "com.google.android.apps.nbu.paisa.user"; lit "com.amazon.in" ].

Section Platform.

Variable uppercaseChar lowercaseChar : Char -> Char.
Variable regexEqualsIgnoreCase : Char -> Char -> bool.
Variable regexSpace regexDigit : Char -> bool.

(** The filter with the shorter payment-app check. *)
Definition reducedFilter (packageName text : Text) : bool :=
  ((existsb (fun word => contains uppercaseChar lowercaseChar packageName word true)
      decidingWords
    || bool_decide (packageName ∈ decidingPackages))
   && existsb (fun keyword => contains uppercaseChar lowercaseChar text keyword true)
        (transactionKeywords))
  || containsMatchIn (amountPattern regexEqualsIgnoreCase regexSpace regexDigit) text.

(** A character the regular expression engine takes for the first letter
    of a currency marker. *)
Definition startsMarker (c : Char) : bool :=
  regexEqualsIgnoreCase RUPEE c ||
  regexEqualsIgnoreCase (N_of_ascii "r") c ||
  regexEqualsIgnoreCase (N_of_ascii "i") c.

End Platform.

(** The text of a field: [getString(key) ?: ""]. *)
Definition field (f : option Text) : Text := default [] f.

End NotifierRestSpec.


(** ** Sample browsers and notifications *)

Module BrowserSamples.
Import LocalStorageService BrowserServices StorageSamples.

Definition asha : UserProfile.t :=
  {| UserProfile.phone := "+919876543210";
     UserProfile.name := Some "Asha";
     UserProfile.fullName := Some "Asha Rao";
     UserProfile.gender := Some "female";
     UserProfile.email := None;
     UserProfile.createdAt := Some "2025-11-20T13:00:00.000Z";
     UserProfile.updatedAt := Some "2025-11-20T13:00:00.000Z" |}.

(** The signed-in browser of the first part, with a complete profile and a
    PIN, after onboarding, in a tab that was not unlocked yet. *)
Definition locked : Browser :=
  {| local := browser;
     profiles := {[ "transactai_user_profile_919876543210" := asha ]};
     pins := {[ "transactai_pin_919876543210" := "4821" ]};
     onboarding := Some "true";
     sessionStorage := ∅ |}.

(** The same browser in a tab that was unlocked. *)
Definition unlocked : Browser :=
  {| local := browser;
     profiles := {[ "transactai_user_profile_919876543210" := asha ]};
     pins := {[ "transactai_pin_919876543210" := "4821" ]};
     onboarding := Some "true";
     sessionStorage := {[ "app_unlocked_919876543210" := "true" ]} |}.

(** A browser nobody is signed in to. *)
Definition signedOut : Browser :=
  {| local := {| auth_session := None; transactions := ∅; categories := ∅ |};
     profiles := ∅;
     pins := ∅;
     onboarding := Some "true";
     sessionStorage := ∅ |}.

(** A browser whose session holds a phone made of a plus sign only; the
    profile lies under the user id [default], and there is no PIN. *)
Definition plusOnly : Browser :=
  {| local := {| auth_session := Some (SessionParsed (Some "+"));
                 transactions := ∅; categories := ∅ |};
     profiles := {[ "transactai_user_profile_default" := asha ]};
     pins := ∅;
     onboarding := Some "true";
     sessionStorage := ∅ |}.

(** [{ email: "asha@example.com" }]. *)
Definition newEmail : PartialProfile.t :=
  {| PartialProfile.phone := None; PartialProfile.name := None;
     PartialProfile.fullName := None; PartialProfile.gender := None;
     PartialProfile.email := Some (Some "asha@example.com");
     PartialProfile.createdAt := None; PartialProfile.updatedAt := None |}.

End BrowserSamples.

Module ListenerSamples.
Import NotificationService NotificationListener NotifierSamples.

(** A payment notification of a chat app: the amount is in the text. *)
Definition paid : StatusBarNotification :=
  {| packageName := lit "com.whatsapp";
     extras :=
       Some {| android_title := Some (lit "Ravi");
               android_text := Some (lit "  Rs. 250 paid to Ravi ");
               android_bigText := None |} |}.

(** A notification of a payment app with blank fields. *)
Definition blank : StatusBarNotification :=
  {| packageName := lit "com.phonepe.app";
     extras :=
       Some {| android_title := Some (lit "  ");
               android_text := None;
               android_bigText := Some (lit " ") |} |}.

Definition onNotificationPostedAscii : StatusBarNotification -> option Text :=
  onNotificationPosted asciiSpace asciiUpper asciiLower asciiEqualsIgnoreCase
    asciiSpace asciiDigit.

End ListenerSamples.


Module DialogSamples.

(** [String.prototype.trim] on texts whose only whitespace is the space. *)
Fixpoint dropSpaces (l : list ascii) : list ascii :=
  match l with
  | c :: l' => if Ascii.eqb c " " then dropSpaces l' else l
  | [] => []
  end.

Definition trimSpaces (s : string) : string :=
  string_of_list_ascii
    (rev (dropSpaces (rev (dropSpaces (list_ascii_of_string s))))).

End DialogSamples.


(** ** localStorageService.ts: transactions by date *)

Module StorageDates.
Import LocalStorageService.

(** The time value of a [Date], in milliseconds; [None] is [NaN], the time
    value of an invalid date. *)
Definition TimeValue := option Z.

(** [a >= b] and [a <= b] on dates compare the time values, and are false
    when one of them is [NaN]. *)
Definition geq (a b : TimeValue) : bool :=
  match a, b with
  | Some x, Some y => (y <=? x)%Z
  | _, _ => false
  end.

Definition leq (a b : TimeValue) : bool :=
  match a, b with
  | Some x, Some y => (x <=? y)%Z
  | _, _ => false
  end.

Module transactionService.

(** [getByDateRange(startDate, endDate, userId)]; [dateValue s] is the time
    value of [new Date(s)]. *)
Definition getByDateRange (dateValue : string -> TimeValue)
    (startDate endDate : string) (userId : option string) (w : Window)
    : list Transaction :=
  List.filter
    (fun t =>
       let date0 := dateValue (date t) in
       geq date0 (dateValue startDate) && leq date0 (dateValue endDate))
    (LocalStorageService.transactionService.getAll w userId).

End transactionService.

(** The date of [t] is a valid date between the start and the end, both
    of them valid and both included. *)
Definition withinRange (dateValue : string -> TimeValue)
    (startDate endDate : string) (t : Transaction) : bool :=
  match dateValue (date t), dateValue startDate, dateValue endDate with
  | Some d, Some s, Some e => bool_decide (s <= d <= e)%Z
  | _, _, _ => false
  end.

(** A date parser for the sample data: the three dates of the sample
    transactions and the first days of two months. *)
Definition sampleDateValue (s : string) : TimeValue :=
  if String.eqb s "2025-11-20T13:22:01.122Z" then Some 1763644921122%Z
  else if String.eqb s "2025-11-21T09:00:00.000Z" then Some 1763715600000%Z
  else if String.eqb s "2025-11-22T09:00:00.000Z" then Some 1763802000000%Z
  else if String.eqb s "2025-11-01" then Some 1761955200000%Z
  else if String.eqb s "2025-11-21" then Some 1763683200000%Z
  else if String.eqb s "2025-12-01" then Some 1764547200000%Z
  else None.

End StorageDates.


(* ===================================================================== *)
(** * Part II. Properties                                                 *)
(* ===================================================================== *)

(** ** localStorageService.ts *)

Module StorageFacts.
Import LocalStorageService StorageSpec.

Lemma findIndex_none {A} (p : A -> bool) (l : list A) :
  findIndex p l = (-1)%Z <-> (forall x, In x l -> p x = false).
Proof.
  induction l as [|x l IH]; simpl.
  - split; [intros _ y [] | reflexivity].
  - destruct (p x) eqn:Hx.
    + split; [discriminate |].
      intros H. specialize (H x (or_introl eq_refl)). congruence.
    + destruct (findIndex p l =? -1)%Z eqn:Hi.
      * apply Z.eqb_eq in Hi. split; [| reflexivity].
        intros _ y [<- | Hy]; [assumption | now apply IH].
      * apply Z.eqb_neq in Hi. split.
        -- intros H. exfalso.
           assert (0 <= findIndex p l)%Z.
           { clear -Hi. revert Hi. induction l as [|y l IH]; simpl; [lia |].
             destruct (p y); [lia |].
             destruct (findIndex p l =? -1)%Z eqn:E; [lia |].
             apply Z.eqb_neq in E. intros _. specialize (IH E). lia. }
           lia.
        -- intros H. exfalso. apply Hi, IH. intros y Hy. apply H. now right.
Qed.

Lemma findIndex_first {A} (p : A -> bool) (pre post : list A) (x : A) :
  (forall y, In y pre -> p y = false) -> p x = true ->
  findIndex p (pre ++ x :: post) = Z.of_nat (length pre).
Proof.
  intros Hpre Hx. induction pre as [|y pre IH]; simpl.
  - now rewrite Hx.
  - rewrite (Hpre y (or_introl eq_refl)).
    rewrite IH by (intros z Hz; apply Hpre; now right).
    destruct (Z.of_nat (length pre) =? -1)%Z eqn:E; [apply Z.eqb_eq in E |]; lia.
Qed.

(** A hit of [findIndex] splits the list at the first element satisfying
    [p]. *)
Lemma findIndex_some {A} (p : A -> bool) (l : list A) :
  findIndex p l <> (-1)%Z ->
  exists pre x post,
    l = pre ++ x :: post /\ (forall y, In y pre -> p y = false) /\ p x = true.
Proof.
  induction l as [|x l IH]; simpl; [congruence |].
  destruct (p x) eqn:Hx.
  - intros _. exists [], x, l. repeat split; [intros y [] | assumption].
  - destruct (findIndex p l =? -1)%Z eqn:Hi; [congruence |].
    apply Z.eqb_neq in Hi. intros _.
    destruct (IH Hi) as (pre & y & post & -> & Hpre & Hy).
    exists (x :: pre), y, post. repeat split; [| assumption].
    intros z [<- | Hz]; [assumption | now apply Hpre].
Qed.

Lemma find_none_iff {A} (p : A -> bool) (l : list A) :
  List.find p l = None <-> (forall x, In x l -> p x = false).
Proof.
  split; [apply find_none |].
  induction l as [|x l IH]; simpl; [reflexivity |].
  intros H. rewrite (H x (or_introl eq_refl)). apply IH.
  intros y Hy. apply H. now right.
Qed.

Lemma filter_sublist {A} (p : A -> bool) (l : list A) :
  sublist (List.filter p l) l.
Proof.
  induction l as [|x l IH]; simpl; [constructor |].
  destruct (p x); now constructor.
Qed.

Lemma map_sublist {A B} (f : A -> B) (l k : list A) :
  sublist l k -> sublist (List.map f l) (List.map f k).
Proof. induction 1; simpl; now constructor. Qed.

(** The storage key depends on the session item only. *)
Lemma getUserKey_session ls ls' baseKey userId :
  auth_session ls' = auth_session ls ->
  getUserKey ls' baseKey userId = getUserKey ls baseKey userId.
Proof. intros H. unfold getUserKey, sessionKey. now rewrite H. Qed.

Section Categories.

Variable toLowerCase : string -> string.

Lemma caseDistinct_snoc (l : list Category) (c : Category) :
  caseDistinct toLowerCase l ->
  (forall c', In c' l -> toLowerCase (name c') <> toLowerCase (name c)) ->
  caseDistinct toLowerCase (l ++ [c]).
Proof.
  unfold caseDistinct. intros Hl Hc. rewrite map_app. simpl.
  apply NoDup_app. split; [assumption |]. split.
  - intros x Hx Hx'. apply list_elem_of_In in Hx.
    apply in_map_iff in Hx as (c' & <- & Hc').
    apply list_elem_of_In in Hx'. destruct Hx' as [E | []].
    now apply (Hc c' Hc').
  - apply NoDup_singleton.
Qed.

Lemma caseDistinct_filter (p : Category -> bool) (l : list Category) :
  caseDistinct toLowerCase l -> caseDistinct toLowerCase (List.filter p l).
Proof.
  unfold caseDistinct. intros H.
  eapply sublist_NoDup; [exact H | apply map_sublist, filter_sublist].
Qed.

(** What [add] does to the list of the user it is called for. *)
Lemma add_existing now categoryName userId ls :
  (exists c, In c (categoryService.getAll (Some ls) userId) /\
             toLowerCase (name c) = toLowerCase categoryName) ->
  categoryService.add toLowerCase now categoryName userId (Some ls) = Some ls.
Proof.
  intros (c & Hc & E). unfold categoryService.add.
  destruct (List.find _ _) eqn:F; [reflexivity |].
  apply (find_none _ _ F) in Hc. rewrite E, String.eqb_refl in Hc. discriminate.
Qed.

Lemma add_fresh now categoryName userId ls :
  (forall c, In c (categoryService.getAll (Some ls) userId) ->
             toLowerCase (name c) <> toLowerCase categoryName) ->
  categoryService.add toLowerCase now categoryName userId (Some ls) =
  Some {| auth_session := auth_session ls;
          transactions := transactions ls;
          categories :=
            <[getUserKey ls STORAGE_KEYS.CATEGORIES userId :=
                categoryService.getAll (Some ls) userId ++
                [ {| name := categoryName; createdAt := now |} ]]>
              (categories ls) |}.
Proof.
  intros H. unfold categoryService.add.
  destruct (List.find _ _) eqn:F; [| reflexivity].
  apply find_some in F as [Hc E]. apply String.eqb_eq in E.
  now apply H in Hc.
Qed.

(** Reading back after a write of the category list under the key of
    [userId]. *)
Lemma getAll_write ls l userId userId' :
  categoryService.getAll
    (Some {| auth_session := auth_session ls;
             transactions := transactions ls;
             categories :=
               <[getUserKey ls STORAGE_KEYS.CATEGORIES userId := l]> (categories ls) |})
    userId' =
  if decide (getUserKey ls STORAGE_KEYS.CATEGORIES userId =
             getUserKey ls STORAGE_KEYS.CATEGORIES userId')
  then l else categoryService.getAll (Some ls) userId'.
Proof.
  unfold categoryService.getAll. simpl.
  rewrite (getUserKey_session ls) by reflexivity.
  rewrite lookup_insert. now case_decide.
Qed.

Lemma getAll_add_fresh now categoryName userId ls :
  (forall c, In c (categoryService.getAll (Some ls) userId) ->
             toLowerCase (name c) <> toLowerCase categoryName) ->
  categoryService.getAll
    (categoryService.add toLowerCase now categoryName userId (Some ls)) userId =
  categoryService.getAll (Some ls) userId ++
  [ {| name := categoryName; createdAt := now |} ].
Proof.
  intros H. rewrite add_fresh by assumption. rewrite getAll_write.
  now rewrite decide_True by reflexivity.
Qed.

Lemma getAll_remove categoryName userId ls :
  categoryService.getAll (categoryService.remove categoryName userId (Some ls)) userId =
  List.filter (fun c => negb (String.eqb (name c) categoryName))
    (categoryService.getAll (Some ls) userId).
Proof.
  unfold categoryService.remove. rewrite getAll_write.
  now rewrite decide_True by reflexivity.
Qed.

Lemma add_decide categoryName userId ls :
  (exists c, In c (categoryService.getAll (Some ls) userId) /\
             toLowerCase (name c) = toLowerCase categoryName) \/
  (forall c, In c (categoryService.getAll (Some ls) userId) ->
             toLowerCase (name c) <> toLowerCase categoryName).
Proof.
  destruct (List.find
              (fun c => String.eqb (toLowerCase (name c)) (toLowerCase categoryName))
              (categoryService.getAll (Some ls) userId)) eqn:F.
  - left. apply find_some in F as [Hc E]. apply String.eqb_eq in E. eauto.
  - right. intros c Hc E. apply (find_none _ _ F) in Hc.
    rewrite E, String.eqb_refl in Hc. discriminate.
Qed.

Lemma duplicateFree_add now categoryName userId w :
  duplicateFree toLowerCase w ->
  duplicateFree toLowerCase (categoryService.add toLowerCase now categoryName userId w).
Proof.
  destruct w as [ls|]; [| intros _ ?; constructor].
  intros Inv userId'.
  destruct (add_decide categoryName userId ls) as [Hex | Hfresh].
  - rewrite add_existing by assumption. apply Inv.
  - rewrite add_fresh by assumption. rewrite getAll_write.
    case_decide; [| apply Inv].
    apply caseDistinct_snoc; [apply Inv | exact Hfresh].
Qed.

Lemma duplicateFree_remove categoryName userId w :
  duplicateFree toLowerCase w ->
  duplicateFree toLowerCase (categoryService.remove categoryName userId w).
Proof.
  destruct w as [ls|]; [| intros _ ?; constructor].
  intros Inv userId'. unfold categoryService.remove. rewrite getAll_write.
  case_decide; [| apply Inv]. apply caseDistinct_filter, Inv.
Qed.

Lemma duplicateFree_performAll cs w :
  duplicateFree toLowerCase w ->
  duplicateFree toLowerCase (performAll toLowerCase cs w).
Proof.
  revert w. induction cs as [|c cs IH]; intros w Inv; [exact Inv |].
  simpl. apply IH. destruct c; simpl.
  - now apply duplicateFree_add.
  - now apply duplicateFree_remove.
Qed.

End Categories.

End StorageFacts.

Module TransactionFacts.
Import LocalStorageService StorageSpec StorageFacts.

Lemma hasId_false id0 (l : list Transaction) :
  (forall t, In t l -> id t <> id0) ->
  forall t, In t l -> String.eqb (id t) id0 = false.
Proof. intros H t Ht. apply String.eqb_neq. now apply H. Qed.

(** No transaction has the id: nothing is written. *)
Lemma update_missing id0 updates userId ls :
  (forall t, In t (transactionService.getAll (Some ls) userId) -> id t <> id0) ->
  transactionService.update id0 updates userId (Some ls) = Some ls.
Proof.
  intros H. unfold transactionService.update.
  assert (E : findIndex (fun t => String.eqb (id t) id0)
                (transactionService.getAll (Some ls) userId) = (-1)%Z)
    by now apply findIndex_none, hasId_false.
  now rewrite E.
Qed.

(** The object spread is the field-wise merge. *)
Lemma spread_MergeOf t updates : MergeOf t updates (spread t updates).
Proof.
  unfold MergeOf, Overrides, spread.
  destruct updates as [[i|] [d|] [a|] [c|] [dt|] [r|] [ty|]]; cbn; repeat split.
Qed.

(** The first transaction with the id is replaced in place. *)
Lemma update_found id0 updates userId ls pre t post :
  transactionService.getAll (Some ls) userId = pre ++ t :: post ->
  (forall t', In t' pre -> id t' <> id0) ->
  id t = id0 ->
  transactionService.update id0 updates userId (Some ls) =
  Some {| auth_session := auth_session ls;
          transactions :=
            <[getUserKey ls STORAGE_KEYS.TRANSACTIONS userId :=
                pre ++ spread t updates :: post]> (transactions ls);
          categories := categories ls |}.
Proof.
  intros Hall Hpre Ht. unfold transactionService.update. rewrite Hall.
  rewrite (findIndex_first _ pre post t);
    [| now apply hasId_false | now apply String.eqb_eq].
  destruct (Z.of_nat (length pre) =? -1)%Z eqn:E; [apply Z.eqb_eq in E; lia |].
  simpl negb. cbv iota. rewrite Nat2Z.id.
  rewrite list_lookup_middle by reflexivity.
  replace (length pre) with (length pre + 0)%nat at 1 by lia.
  now rewrite insert_app_r.
Qed.

Lemma getAll_after_update ls l userId :
  transactionService.getAll
    (Some {| auth_session := auth_session ls;
             transactions :=
               <[getUserKey ls STORAGE_KEYS.TRANSACTIONS userId := l]> (transactions ls);
             categories := categories ls |})
    userId = l.
Proof.
  unfold transactionService.getAll. simpl.
  rewrite (getUserKey_session ls) by reflexivity.
  now rewrite lookup_insert_eq.
Qed.

End TransactionFacts.

Section StorageClaims.
Import LocalStorageService StorageSpec StorageFacts StorageSamples.

Variable toLowerCase : string -> string.

(** C6.  Registering a category in a browser: whatever the stored category
    list of the user is, when no stored category has a name equal to
    [categoryName] ignoring case, after [categoryService.add] the names read
    back by [categoryService.getNames] include [categoryName] (it is
    appended after the names that were there).  The call writes that one
    list and nothing else: the session item, every transaction list and
    every other category list are as before, so it creates no centroid and
    no classifier weight. *)
Theorem C6_add_registers_category now categoryName userId ls :
  (forall c, In c (categoryService.getAll (Some ls) userId) ->
             toLowerCase (name c) <> toLowerCase categoryName) ->
  let w' := categoryService.add toLowerCase now categoryName userId (Some ls) in
  In categoryName (categoryService.getNames w' userId) /\
  categoryService.getNames w' userId =
    categoryService.getNames (Some ls) userId ++ [categoryName] /\
  sameExceptCategories (getUserKey ls STORAGE_KEYS.CATEGORIES userId) (Some ls) w'.
Proof.
  intros Hfresh w'.
  assert (Hnames : categoryService.getNames w' userId =
                   categoryService.getNames (Some ls) userId ++ [categoryName]).
  { unfold categoryService.getNames, w'.
    rewrite getAll_add_fresh by assumption. now rewrite map_app. }
  split; [| split].
  - rewrite Hnames. apply in_or_app. right. now left.
  - exact Hnames.
  - unfold w'. rewrite add_fresh by assumption. simpl.
    repeat split. intros k Hk. now rewrite lookup_insert_ne.
Qed.

(** C8.  The stored category lists stay duplicate-free ignoring case.  From
    a store whose lists have pairwise distinct names ignoring case:
    [add] with a name that equals a stored name ignoring case leaves the
    store as it is; [add] with a fresh name appends exactly one entry;
    [remove] only deletes entries; and after any sequence of [add] and
    [remove] calls, for any users, every list is still duplicate-free. *)
Theorem C8_categories_stay_case_distinct ls :
  duplicateFree toLowerCase (Some ls) ->
  (forall now categoryName userId,
     (exists c, In c (categoryService.getAll (Some ls) userId) /\
                toLowerCase (name c) = toLowerCase categoryName) ->
     categoryService.add toLowerCase now categoryName userId (Some ls) = Some ls) /\
  (forall now categoryName userId,
     (forall c, In c (categoryService.getAll (Some ls) userId) ->
                toLowerCase (name c) <> toLowerCase categoryName) ->
     categoryService.getAll
       (categoryService.add toLowerCase now categoryName userId (Some ls)) userId =
     categoryService.getAll (Some ls) userId ++
     [ {| name := categoryName; createdAt := now |} ]) /\
  (forall categoryName userId,
     sublist
       (categoryService.getAll
          (categoryService.remove categoryName userId (Some ls)) userId)
       (categoryService.getAll (Some ls) userId)) /\
  (forall calls, duplicateFree toLowerCase (performAll toLowerCase calls (Some ls))).
Proof.
  intros Inv. repeat split.
  - intros now categoryName userId. apply add_existing.
  - intros now categoryName userId. apply getAll_add_fresh.
  - intros categoryName userId. rewrite getAll_remove. apply filter_sublist.
  - intros calls. now apply duplicateFree_performAll.
Qed.

(** C9.  [transactionService.update] is a point update.  When no stored
    transaction of the user has the id, the store is left exactly as it is.
    Otherwise the list splits at the first transaction with the id, and
    that transaction is replaced by its field-wise merge with the update:
    every field the update carries has the update's value, every other
    field the value it had.  The transactions before and after it keep
    their places, and nothing but this list is written. *)
Theorem C9_update_is_point_update id0 updates userId ls :
  let all := transactionService.getAll (Some ls) userId in
  let w' := transactionService.update id0 updates userId (Some ls) in
  ((forall t, In t all -> id t <> id0) -> w' = Some ls) /\
  ((exists t, In t all /\ id t = id0) ->
   exists pre t post merged,
     all = pre ++ t :: post /\
     (forall t', In t' pre -> id t' <> id0) /\
     id t = id0 /\
     MergeOf t updates merged /\
     transactionService.getAll w' userId = pre ++ merged :: post /\
     sameExceptTransactions
       (getUserKey ls STORAGE_KEYS.TRANSACTIONS userId) (Some ls) w').
Proof.
  intros all w'. split.
  - apply TransactionFacts.update_missing.
  - intros (t0 & Hin & Hid).
    destruct (findIndex_some (fun t => String.eqb (id t) id0) all)
      as (pre & t & post & Hall & Hpre & Ht).
    { intros E. apply (proj1 (findIndex_none _ _) E) in Hin.
      apply String.eqb_neq in Hin. contradiction. }
    apply String.eqb_eq in Ht.
    assert (Hpre' : forall t', In t' pre -> id t' <> id0)
      by (intros t' Ht'; apply String.eqb_neq; now apply Hpre).
    exists pre, t, post, (spread t updates).
    split; [assumption |]. split; [assumption |]. split; [assumption |].
    split; [apply TransactionFacts.spread_MergeOf |]. split.
    + unfold w'. rewrite (TransactionFacts.update_found _ _ _ _ pre t post) by assumption.
      apply TransactionFacts.getAll_after_update.
    + unfold w'. rewrite (TransactionFacts.update_found _ _ _ _ pre t post) by assumption.
      simpl. repeat split. intros k Hk. now rewrite lookup_insert_ne.
Qed.

End StorageClaims.

Module StorageWitnesses.
Import LocalStorageService StorageSpec StorageFacts StorageSamples.

Example getNames_browser :
  categoryService.getNames (Some browser) None = ["Food"; "Bills"].
Proof. vm_compute. reflexivity. Qed.

Example add_same_name_other_case :
  categoryService.add asciiLower "2025-12-01T00:00:00.000Z" "FOOD" None (Some browser)
  = Some browser.
Proof. vm_compute. reflexivity. Qed.

Example update_second_of_three :
  transactionService.getAll
    (transactionService.update "txn_2" (recategorize "Travel") None (Some browser))
    None
  = [ lunch;
      {| id := "txn_2"; description := "Payment to Uber"; amount := 120 # 1;
         category := "Travel"; date := "2025-11-21T09:00:00.000Z";
         recipient := Some "Uber"; type := Some debit |};
      cabAgain ].
Proof. vm_compute. reflexivity. Qed.

(** On the server there is no window: nothing is read and nothing written. *)
Example update_without_window :
  transactionService.update "txn_2" (recategorize "Travel") None None = None.
Proof. reflexivity. Qed.

Example add_without_window :
  categoryService.getNames
    (categoryService.add asciiLower "2025-12-01T00:00:00.000Z" "Pet Care" None None)
    None = [].
Proof. reflexivity. Qed.

(** A user id given by the caller wins over the session. *)
Example getUserKey_explicit :
  getUserKey browser STORAGE_KEYS.CATEGORIES (Some "42") = "transactai_categories_42".
Proof. reflexivity. Qed.

Example getUserKey_session_phone :
  getUserKey browser STORAGE_KEYS.CATEGORIES None
  = "transactai_categories_919876543210".
Proof. reflexivity. Qed.

Lemma C6_witness :
  (forall c, In c (categoryService.getAll (Some browser) None) ->
             asciiLower (name c) <> asciiLower "Pet Care") /\
  In "Pet Care"
    (categoryService.getNames
       (categoryService.add asciiLower "2025-12-01T00:00:00.000Z" "Pet Care" None
          (Some browser)) None).
Proof.
  assert (H : forall c, In c (categoryService.getAll (Some browser) None) ->
                        asciiLower (name c) <> asciiLower "Pet Care").
  { intros c Hc. vm_compute in Hc.
    destruct Hc as [<- | [<- | []]]; vm_compute; discriminate. }
  split; [exact H |].
  exact (proj1 (C6_add_registers_category asciiLower
                  "2025-12-01T00:00:00.000Z" "Pet Care" None browser H)).
Defined.

Lemma C8_witness :
  duplicateFree asciiLower (Some browser) /\
  forall calls, duplicateFree asciiLower (performAll asciiLower calls (Some browser)).
Proof.
  assert (H : duplicateFree asciiLower (Some browser)).
  { intros userId. unfold caseDistinct, categoryService.getAll.
    simpl categories.
    destruct (decide (getUserKey browser STORAGE_KEYS.CATEGORIES userId
                      = "transactai_categories_919876543210")) as [E | E].
    - rewrite E, lookup_singleton_eq. simpl.
      apply NoDup_cons. split; [| apply NoDup_singleton].
      intros Hin. apply list_elem_of_singleton in Hin.
      vm_compute in Hin. discriminate.
    - rewrite lookup_singleton_ne by congruence. simpl. constructor. }
  split; [exact H |].
  exact (proj2 (proj2 (proj2 (C8_categories_stay_case_distinct asciiLower browser H)))).
Defined.

Lemma C9_witness :
  (exists t, In t (transactionService.getAll (Some browser) None) /\ id t = "txn_2") /\
  exists pre t post merged,
    transactionService.getAll (Some browser) None = pre ++ t :: post /\
    (forall t', In t' pre -> id t' <> "txn_2") /\
    id t = "txn_2" /\
    category merged = "Travel" /\
    description merged = description t /\
    recipient merged = recipient t /\
    transactionService.getAll
      (transactionService.update "txn_2" (recategorize "Travel") None (Some browser))
      None
    = pre ++ merged :: post.
Proof.
  assert (H : exists t, In t (transactionService.getAll (Some browser) None) /\
                        id t = "txn_2").
  { exists cab. split; [vm_compute; tauto | reflexivity]. }
  split; [exact H |].
  destruct (proj2 (C9_update_is_point_update "txn_2" (recategorize "Travel") None
                     browser) H)
    as (pre & t & post & merged & Hall & Hpre & Hid & Hmerge & Hget & _).
  destruct Hmerge as (_ & Hdescription & _ & Hcategory & _ & Hrecipient & _).
  exists pre, t, post, merged. auto 10.
Defined.

End StorageWitnesses.

(** ** NotificationService.kt *)

Module RegexFacts.
Import NotificationService NotifierSpec.

Lemma Matches_Eps_inv s : Matches Eps s -> s = [].
Proof. now inversion 1. Qed.

Lemma Matches_Class_inv p s :
  Matches (Class p) s -> exists c, s = [c] /\ p c = true.
Proof. inversion 1; subst; eauto. Qed.

Lemma Matches_Alt_inv r1 r2 s :
  Matches (Alt r1 r2) s -> Matches r1 s \/ Matches r2 s.
Proof. inversion 1; subst; auto. Qed.

Lemma Matches_Seq_inv r1 r2 s :
  Matches (Seq r1 r2) s ->
  exists s1 s2, s = s1 ++ s2 /\ Matches r1 s1 /\ Matches r2 s2.
Proof. inversion 1; subst; eauto. Qed.

(** A non-empty match of a repetition starts with a non-empty match of its
    body. *)
Lemma Matches_Star_inv r s :
  Matches (Star r) s ->
  s = [] \/
  exists c s1 s2,
    s = (c :: s1) ++ s2 /\ Matches r (c :: s1) /\ Matches (Star r) s2.
Proof.
  intros H. remember (Star r) as r' eqn:E.
  induction H as [ | | | | | r0 | r0 s1 s2 H1 _ H2 IH2 ]; try discriminate.
  - now left.
  - injection E as ->. destruct s1 as [|c s1].
    + simpl. now apply IH2.
    + right. exists c, s1, s2. auto.
Qed.

Lemma nullable_Matches r : nullable r = true <-> Matches r [].
Proof.
  induction r as [ | | p | r1 IH1 r2 IH2 | r1 IH1 r2 IH2 | r IH ]; simpl.
  - split; [discriminate | inversion 1].
  - split; [constructor | reflexivity].
  - split; [discriminate |].
    intros H. apply Matches_Class_inv in H as (c & E & _). discriminate.
  - rewrite orb_true_iff, IH1, IH2. split.
    + intros [H | H]; [now apply MatchesAltL | now apply MatchesAltR].
    + apply Matches_Alt_inv.
  - rewrite andb_true_iff, IH1, IH2. split.
    + intros [H1 H2]. exact (MatchesSeq _ _ [] [] H1 H2).
    + intros H. apply Matches_Seq_inv in H as (s1 & s2 & E & H1 & H2).
      symmetry in E. apply app_eq_nil in E as [-> ->]. now split.
  - split; [constructor | reflexivity].
Qed.

Lemma deriv_Matches c r : forall s, Matches (deriv c r) s <-> Matches r (c :: s).
Proof.
  induction r as [ | | p | r1 IH1 r2 IH2 | r1 IH1 r2 IH2 | r IH ];
    intros s; simpl.
  - split; inversion 1.
  - split; inversion 1.
  - destruct (p c) eqn:Hp; split; intros H.
    + apply Matches_Eps_inv in H as ->. now constructor.
    + apply Matches_Class_inv in H as (c' & E & _).
      injection E as <- ->. constructor.
    + inversion H.
    + apply Matches_Class_inv in H as (c' & E & Hp').
      injection E as <- ->. congruence.
  - split; intros H; apply Matches_Alt_inv in H as [H | H].
    + apply MatchesAltL. now apply IH1.
    + apply MatchesAltR. now apply IH2.
    + apply MatchesAltL. now apply IH1.
    + apply MatchesAltR. now apply IH2.
  - destruct (nullable r1) eqn:Hn.
    + split; intros H.
      * apply Matches_Alt_inv in H as [H | H].
        -- apply Matches_Seq_inv in H as (s1 & s2 & -> & H1 & H2).
           apply IH1 in H1. exact (MatchesSeq _ _ (c :: s1) s2 H1 H2).
        -- apply IH2 in H. apply nullable_Matches in Hn.
           exact (MatchesSeq _ _ [] (c :: s) Hn H).
      * apply Matches_Seq_inv in H as (s1 & s2 & E & H1 & H2).
        destruct s1 as [|c' s1]; simpl in E.
        -- subst s2. apply MatchesAltR. now apply IH2.
        -- injection E as <- ->. apply MatchesAltL.
           apply MatchesSeq; [now apply IH1 | assumption].
    + split; intros H.
      * apply Matches_Seq_inv in H as (s1 & s2 & -> & H1 & H2).
        apply IH1 in H1. exact (MatchesSeq _ _ (c :: s1) s2 H1 H2).
      * apply Matches_Seq_inv in H as (s1 & s2 & E & H1 & H2).
        destruct s1 as [|c' s1]; simpl in E.
        -- apply nullable_Matches in H1. congruence.
        -- injection E as <- ->.
           apply MatchesSeq; [now apply IH1 | assumption].
  - split; intros H.
    + apply Matches_Seq_inv in H as (s1 & s2 & -> & H1 & H2).
      apply IH in H1. exact (MatchesStarApp _ (c :: s1) s2 H1 H2).
    + apply Matches_Star_inv in H as [E | (c' & s1 & s2 & E & H1 & H2)];
        [discriminate |].
      simpl in E. injection E as <- ->.
      apply MatchesSeq; [now apply IH | assumption].
Qed.

(** [lookingAt] finds the matches that are prefixes of the text. *)
Lemma lookingAt_Matches s : forall r,
  lookingAt r s = true <-> exists found post, s = found ++ post /\ Matches r found.
Proof.
  induction s as [|c s IH]; intros r; simpl; rewrite orb_true_iff.
  - split.
    + intros [H | H]; [| discriminate].
      exists [], []. split; [reflexivity | now apply nullable_Matches].
    + intros (found & post & E & H). left.
      symmetry in E. apply app_eq_nil in E as [-> _]. now apply nullable_Matches.
  - rewrite IH. split.
    + intros [H | (found & post & -> & H)].
      * exists [], (c :: s). split; [reflexivity | now apply nullable_Matches].
      * exists (c :: found), post. split; [reflexivity | now apply deriv_Matches].
    + intros (found & post & E & H). destruct found as [|c' found]; simpl in E.
      * left. now apply nullable_Matches.
      * injection E as <- ->. right. exists found, post.
        split; [reflexivity | now apply deriv_Matches].
Qed.

(** [containsMatchIn] finds the matches anywhere in the text. *)
Lemma containsMatchIn_Matches r s :
  containsMatchIn r s = true <->
  exists pre found post, s = pre ++ found ++ post /\ Matches r found.
Proof.
  induction s as [|c s IH]; cbn [containsMatchIn];
    rewrite orb_true_iff, lookingAt_Matches.
  - split.
    + intros [(found & post & E & H) | H]; [| discriminate].
      exists [], found, post. auto.
    + intros (pre & found & post & E & H). left.
      destruct pre; [| discriminate]. exists found, post. auto.
  - rewrite IH. split.
    + intros [(found & post & E & H) | (pre & found & post & -> & H)].
      * exists [], found, post. auto.
      * exists (c :: pre), found, post. auto.
    + intros (pre & found & post & E & H). destruct pre as [|c' pre]; simpl in E.
      * left. exists found, post. auto.
      * injection E as <- ->. right. exists pre, found, post. auto.
Qed.

Lemma Matches_Star_Class p s :
  Matches (Star (Class p)) s <-> Forall (fun c => p c = true) s.
Proof.
  split.
  - intros H. remember (Star (Class p)) as r eqn:E.
    induction H as [ | | | | | r0 | r0 s1 s2 H1 _ H2 IH2 ]; try discriminate.
    + constructor.
    + injection E as ->.
      apply Matches_Class_inv in H1 as (c & -> & Hc).
      constructor; [assumption | now apply IH2].
  - induction 1 as [|c s Hc _ IH]; [constructor |].
    exact (MatchesStarApp _ [c] s (MatchesClass p c Hc) IH).
Qed.

Lemma Matches_Plus_Class p s :
  Matches (Plus (Class p)) s <-> s <> [] /\ Forall (fun c => p c = true) s.
Proof.
  unfold Plus. split.
  - intros H. apply Matches_Seq_inv in H as (s1 & s2 & -> & H1 & H2).
    apply Matches_Class_inv in H1 as (c & -> & Hc).
    apply Matches_Star_Class in H2. split; [discriminate | now constructor].
  - intros [Hne H]. destruct H as [|c s Hc H]; [contradiction |].
    apply (MatchesSeq _ _ [c] s); [now constructor | now apply Matches_Star_Class].
Qed.

Section Literals.

Variable regexEqualsIgnoreCase : Char -> Char -> bool.

Lemma Matches_literal word : forall s,
  Matches (literal regexEqualsIgnoreCase word) s <->
  Spells regexEqualsIgnoreCase word s.
Proof.
  unfold Spells. induction word as [|o word IH]; intros s; simpl.
  - split.
    + intros H. apply Matches_Eps_inv in H as ->. constructor.
    + intros H. inversion H. constructor.
  - split.
    + intros H. apply Matches_Seq_inv in H as (s1 & s2 & -> & H1 & H2).
      apply Matches_Class_inv in H1 as (c & -> & Hc).
      constructor; [assumption | now apply IH].
    + intros H. inversion H as [| ? c ? s' Hc Hs]; subst.
      apply (MatchesSeq _ _ [c] s'); [now constructor | now apply IH].
Qed.

Lemma Spells_app w1 w2 s :
  Spells regexEqualsIgnoreCase (w1 ++ w2) s <->
  exists s1 s2, s = s1 ++ s2 /\
    Spells regexEqualsIgnoreCase w1 s1 /\ Spells regexEqualsIgnoreCase w2 s2.
Proof.
  unfold Spells. split.
  - intros H. apply Forall2_app_inv_l in H as (s1 & s2 & H1 & H2 & ->). eauto.
  - intros (s1 & s2 & -> & H1 & H2). now apply Forall2_app.
Qed.

End Literals.

End RegexFacts.

Section NotifierClaims.
Import NotificationService NotifierSpec RegexFacts.

Variable uppercaseChar lowercaseChar : Char -> Char.
Variable regexEqualsIgnoreCase : Char -> Char -> bool.
Variable regexSpace regexDigit : Char -> bool.

Local Abbreviation contains := (contains uppercaseChar lowercaseChar).
Local Abbreviation Occurs := (Occurs uppercaseChar lowercaseChar).
Local Abbreviation Spells := (Spells regexEqualsIgnoreCase).
Local Abbreviation CurrencyMarker := (CurrencyMarker regexEqualsIgnoreCase).
Local Abbreviation IsAmount := (IsAmount regexEqualsIgnoreCase regexSpace regexDigit).
Local Abbreviation HasAmountPattern :=
  (HasAmountPattern regexEqualsIgnoreCase regexSpace regexDigit).
Local Abbreviation amountPattern :=
  (amountPattern regexEqualsIgnoreCase regexSpace regexDigit).

Lemma regionMatches_spec other : forall this,
  regionMatches uppercaseChar lowercaseChar true other this = true <->
  exists found post,
    this = found ++ post /\
    Forall2 (fun o c => charEquals uppercaseChar lowercaseChar true o c = true)
      other found.
Proof.
  induction other as [|o other IH]; intros this; simpl.
  - split; [| reflexivity]. intros _. exists [], this. split; [reflexivity | constructor].
  - destruct this as [|c this].
    + split; [discriminate |]. intros (found & post & E & H).
      inversion H; subst. discriminate.
    + rewrite andb_true_iff, IH. split.
      * intros (Hc & found & post & -> & H).
        exists (c :: found), post. split; [reflexivity | now constructor].
      * intros (found & post & E & H).
        inversion H as [| ? c' ? found' Hc Hf]; subst.
        simpl in E. injection E as -> ->. split; [assumption |]. eauto.
Qed.

Lemma charEquals_spec a b :
  charEquals uppercaseChar lowercaseChar true a b = true <->
  EqualIgnoringCase uppercaseChar lowercaseChar a b.
Proof.
  unfold charEquals, EqualIgnoringCase.
  rewrite orb_true_iff, andb_true_iff, orb_true_iff, !N.eqb_eq. tauto.
Qed.

Lemma Forall2_charEquals word found :
  Forall2 (fun o c => charEquals uppercaseChar lowercaseChar true o c = true)
    word found
  <-> Forall2 (EqualIgnoringCase uppercaseChar lowercaseChar) word found.
Proof.
  split; intros H; induction H; constructor; try assumption;
    now apply charEquals_spec.
Qed.

Lemma contains_code this : forall other,
  contains this other true = true <->
  exists pre found post,
    this = pre ++ found ++ post /\
    Forall2 (fun o c => charEquals uppercaseChar lowercaseChar true o c = true)
      other found.
Proof.
  intros other.
  induction this as [|c this IH]; cbn [NotificationService.contains];
    rewrite orb_true_iff, regionMatches_spec.
  - split.
    + intros [(found & post & E & H) | H]; [| discriminate].
      exists [], found, post. auto.
    + intros (pre & found & post & E & H). left.
      destruct pre; [| discriminate]. exists found, post. auto.
  - rewrite IH. split.
    + intros [(found & post & E & H) | (pre & found & post & -> & H)].
      * exists [], found, post. auto.
      * exists (c :: pre), found, post. auto.
    + intros (pre & found & post & E & H). destruct pre as [|c' pre]; simpl in E.
      * left. exists found, post. auto.
      * injection E as <- ->. right. exists pre, found, post. auto.
Qed.

Lemma contains_spec other this :
  contains this other true = true <-> Occurs other this.
Proof.
  unfold NotifierSpec.Occurs. rewrite contains_code.
  split; intros (pre & found & post & E & H); exists pre, found, post;
    (split; [exact E | now apply Forall2_charEquals]).
Qed.

(** The first group of the pattern: [₹|rs\.?|inr]. *)
Lemma marker_Matches s :
  Matches
    (Alt (literal regexEqualsIgnoreCase [RUPEE])
       (Alt (Seq (literal regexEqualsIgnoreCase (lit "rs"))
               (Opt (literal regexEqualsIgnoreCase (lit "."))))
          (literal regexEqualsIgnoreCase (lit "inr")))) s
  <-> CurrencyMarker s.
Proof.
  unfold NotifierSpec.CurrencyMarker, Opt. split.
  - intros H. apply Matches_Alt_inv in H as [H | H].
    + left. now apply Matches_literal.
    + apply Matches_Alt_inv in H as [H | H].
      * apply Matches_Seq_inv in H as (s1 & s2 & -> & H1 & H2).
        apply Matches_literal in H1.
        apply Matches_Alt_inv in H2 as [H2 | H2].
        -- right. left. apply Matches_literal in H2.
           change (lit "rs.") with (lit "rs" ++ lit ".").
           apply Spells_app. eauto.
        -- apply Matches_Eps_inv in H2 as ->. rewrite app_nil_r.
           right. right. now left.
      * right. right. right. now apply Matches_literal.
  - intros [H | [H | [H | H]]].
    + apply MatchesAltL. now apply Matches_literal.
    + apply MatchesAltR, MatchesAltL.
      change (lit "rs.") with (lit "rs" ++ lit ".") in H.
      apply Spells_app in H as (s1 & s2 & -> & H1 & H2).
      apply MatchesSeq; [now apply Matches_literal |].
      apply MatchesAltL. now apply Matches_literal.
    + apply MatchesAltR, MatchesAltL.
      rewrite <- (app_nil_r s).
      apply MatchesSeq; [now apply Matches_literal |].
      apply MatchesAltR. constructor.
    + apply MatchesAltR, MatchesAltR. now apply Matches_literal.
Qed.

Lemma amountPattern_Matches s : Matches amountPattern s <-> IsAmount s.
Proof.
  unfold NotificationService.amountPattern, NotifierSpec.IsAmount. split.
  - intros H. apply Matches_Seq_inv in H as (marker & rest & -> & Hm & H).
    apply Matches_Seq_inv in H as (spaces & digits & -> & Hs & Hd).
    apply marker_Matches in Hm. apply Matches_Star_Class in Hs.
    apply Matches_Plus_Class in Hd as [Hne Hd].
    exists marker, spaces, digits. auto.
  - intros (marker & spaces & digits & -> & Hm & Hs & Hne & Hd).
    apply MatchesSeq; [now apply marker_Matches |].
    apply MatchesSeq; [now apply Matches_Star_Class |].
    now apply Matches_Plus_Class.
Qed.

Lemma hasAmountPattern_spec text :
  containsMatchIn amountPattern text = true <-> HasAmountPattern text.
Proof.
  unfold NotifierSpec.HasAmountPattern. rewrite containsMatchIn_Matches.
  split; intros (pre & found & post & E & H); exists pre, found, post;
    (split; [exact E | now apply amountPattern_Matches]).
Qed.

Lemma isPaymentApp_spec packageName :
  contains packageName (lit "payment") true ||
  contains packageName (lit "bank") true ||
  contains packageName (lit "upi") true ||
  contains packageName (lit "wallet") true ||
  contains packageName (lit "pay") true ||
  bool_decide (packageName ∈ paymentPackages) = true
  <-> IsPaymentApp uppercaseChar lowercaseChar packageName.
Proof.
  unfold IsPaymentApp, paymentWords.
  change listedPackages with paymentPackages.
  rewrite !orb_true_iff, !contains_spec, bool_decide_eq_true, list_elem_of_In.
  split.
  - intros [[[[[H | H] | H] | H] | H] | H]; [left .. | now right];
      eexists; (split; [| exact H]); simpl; tauto.
  - intros [(word & Hin & H) | H]; [| now right].
    simpl in Hin. destruct Hin as [<- | [<- | [<- | [<- | [<- | []]]]]]; tauto.
Qed.

Lemma hasTransactionKeywords_spec text :
  existsb (fun keyword => contains text keyword true) transactionKeywords = true
  <-> HasTransactionKeyword uppercaseChar lowercaseChar text.
Proof.
  unfold HasTransactionKeyword. change keywords with transactionKeywords.
  rewrite existsb_exists.
  split; intros (keyword & Hin & H); exists keyword;
    (split; [exact Hin | now apply contains_spec]).
Qed.

(** C10.  [isTransactionNotification(packageName, text)] returns true
    exactly when the package passes the payment-app check (its name contains
    payment, bank, upi, wallet or pay ignoring case, or is one of the six
    listed packages) and the text contains a transaction keyword ignoring
    case, or the text contains an amount (the rupee sign, rs with or without
    its dot, or inr, ignoring case, then any whitespace, then digits).  In
    particular a text with such an amount is a transaction whichever package
    posted it. *)
Theorem C10_notification_filter packageName text :
  (isTransactionNotification uppercaseChar lowercaseChar regexEqualsIgnoreCase
     regexSpace regexDigit packageName text = true
   <->
   (IsPaymentApp uppercaseChar lowercaseChar packageName /\
    HasTransactionKeyword uppercaseChar lowercaseChar text) \/
   HasAmountPattern text) /\
  (HasAmountPattern text ->
   forall anyPackage,
     isTransactionNotification uppercaseChar lowercaseChar regexEqualsIgnoreCase
       regexSpace regexDigit anyPackage text = true).
Proof.
  assert (Spec : forall pkg,
    isTransactionNotification uppercaseChar lowercaseChar regexEqualsIgnoreCase
      regexSpace regexDigit pkg text = true
    <->
    (IsPaymentApp uppercaseChar lowercaseChar pkg /\
     HasTransactionKeyword uppercaseChar lowercaseChar text) \/
    HasAmountPattern text).
  { intros pkg. unfold isTransactionNotification.
    rewrite orb_true_iff, andb_true_iff.
    now rewrite isPaymentApp_spec, hasTransactionKeywords_spec, hasAmountPattern_spec. }
  split; [apply Spec |].
  intros H anyPackage. apply Spec. now right.
Qed.

End NotifierClaims.

Module NotifierExamples.
Import NotificationService NotifierSamples.

(** A game advertising a prize in rupees passes the filter. *)
Example amount_from_any_app :
  isTransactionNotificationAscii (lit "com.random.game")
    (lit "Win " ++ [RUPEE] ++ lit "500 today") = true.
Proof. vm_compute. reflexivity. Qed.

Example amount_without_dot_and_with_space :
  isTransactionNotificationAscii (lit "com.random.game") (lit "only RS 20 left")
  = true.
Proof. vm_compute. reflexivity. Qed.

Example keyword_from_payment_app :
  isTransactionNotificationAscii (lit "com.phonepe.app") (lit "Payment received")
  = true.
Proof. vm_compute. reflexivity. Qed.

Example keyword_from_other_app :
  isTransactionNotificationAscii (lit "com.random.game") (lit "Payment received")
  = false.
Proof. vm_compute. reflexivity. Qed.

Example payment_app_without_keyword :
  isTransactionNotificationAscii (lit "com.paytm") (lit "Hello there") = false.
Proof. vm_compute. reflexivity. Qed.

End NotifierExamples.

(** ** The normalizer *)

Module NormalizerFacts.
Import Core Core.Normalizer.

Lemma token_eqb_eq a : forall b, token_eqb a b = true <-> a = b.
Proof.
  induction a as [|x a IH]; intros [|y b]; simpl; try (split; [discriminate | congruence]).
  - split; reflexivity.
  - rewrite andb_true_iff, Ascii.eqb_eq, IH. split; [intros [-> ->] | intros [= -> ->]]; auto.
Qed.

Lemma toLower_idem c : toLower (toLower c) = toLower c.
Proof. destruct c as [[] [] [] [] [] [] [] []]; reflexivity. Qed.

Lemma cleanWord_iff t :
  cleanWord t = true <-> t <> [] /\ Forall cleanChar t.
Proof.
  unfold cleanWord, cleanChar.
  rewrite andb_true_iff, negb_true_iff, forallb_forall, Forall_forall.
  split; intros [Hne H]; split.
  - now destruct t.
  - intros c Hc. apply list_elem_of_In in Hc. specialize (H c Hc).
    apply andb_true_iff in H as [H1 H2].
    apply negb_true_iff in H1. apply Ascii.eqb_eq in H2. auto.
  - now destruct t.
  - intros c Hc. apply list_elem_of_In in Hc. destruct (H c Hc) as [H1 H2].
    now rewrite H1, H2, Ascii.eqb_refl.
Qed.

(** Reading a whitespace-free word only grows the current token. *)
Lemma tokens_from_word w : forall cur rest,
  Forall (fun c => isWhitespace c = false) w ->
  tokens_from cur (w ++ rest) = tokens_from (List.rev w ++ cur) rest.
Proof.
  induction w as [|c w IH]; intros cur rest H; [reflexivity |].
  inversion H as [| ? ? Hc Hw]; subst. simpl. rewrite Hc.
  rewrite IH by assumption. now rewrite <- app_assoc.
Qed.

Lemma rev_not_empty {A} (t : list A) : t <> [] -> isEmpty (List.rev t) = false.
Proof.
  intros Hne. destruct (List.rev t) eqn:E; [| reflexivity].
  exfalso. apply Hne. rewrite <- (rev_involutive t), E. reflexivity.
Qed.

(** Splitting what [join] produced gives the tokens back. *)
Lemma tokens_join ts :
  Forall (fun t => cleanWord t = true) ts -> tokens (join ts) = ts.
Proof.
  unfold tokens. induction 1 as [|t ts Ht Hts IH]; [reflexivity |].
  apply cleanWord_iff in Ht as [Hne Hclean].
  assert (Hws : Forall (fun c => isWhitespace c = false) t)
    by (eapply Forall_impl; [exact Hclean |]; now intros c [? _]).
  cbn [join]. destruct ts as [|t' ts]; cbn [isEmpty].
  - rewrite <- (app_nil_r t) at 1. rewrite tokens_from_word by assumption.
    rewrite app_nil_r. cbn [tokens_from].
    now rewrite rev_not_empty, rev_involutive.
  - rewrite tokens_from_word by assumption. rewrite app_nil_r.
    cbn [tokens_from]. change (isWhitespace " "%char) with true. cbn iota.
    rewrite rev_not_empty, rev_involutive by assumption.
    f_equal. exact IH.
Qed.

(** The tokens of a lower-case text are clean words. *)
Lemma tokens_from_clean s : forall cur,
  Forall (fun c => toLower c = c) s ->
  Forall cleanChar cur ->
  Forall (fun t => cleanWord t = true) (tokens_from cur s).
Proof.
  induction s as [|c s IH]; intros cur Hs Hcur; cbn [tokens_from].
  - destruct cur as [|x cur]; cbn [isEmpty]; [constructor |].
    constructor; [| constructor]. apply cleanWord_iff. split.
    + intros E. apply (f_equal (@List.rev ascii)) in E.
      rewrite rev_involutive in E. discriminate.
    + apply Forall_forall. intros y Hy. apply list_elem_of_In, in_rev in Hy.
      rewrite Forall_forall in Hcur. apply Hcur. now apply list_elem_of_In.
  - inversion Hs as [| ? ? Hc Hs']; subst.
    destruct (isWhitespace c) eqn:Hw.
    + destruct cur as [|x cur]; cbn [isEmpty]; [apply IH; auto |].
      constructor; [| apply IH; auto].
      apply cleanWord_iff. split.
      * intros E. apply (f_equal (@List.rev ascii)) in E.
        rewrite rev_involutive in E. discriminate.
      * apply Forall_forall. intros y Hy. apply list_elem_of_In, in_rev in Hy.
        rewrite Forall_forall in Hcur. apply Hcur. now apply list_elem_of_In.
    + apply IH; [assumption |]. constructor; [now split | assumption].
Qed.

Lemma lowercase_lower s : Forall (fun c => toLower c = c) (lowercase s).
Proof.
  unfold lowercase. induction s as [|c s IH]; simpl; constructor;
    [apply toLower_idem | exact IH].
Qed.

Lemma lowercase_clean t : Forall cleanChar t -> lowercase t = t.
Proof.
  unfold lowercase. induction 1 as [|c t [_ Hc] _ IH]; simpl; [reflexivity |].
  now rewrite Hc, IH.
Qed.

Lemma lowercase_join ts :
  Forall (fun t => cleanWord t = true) ts -> lowercase (join ts) = join ts.
Proof.
  induction 1 as [|t ts Ht Hts IH]; [reflexivity |].
  apply cleanWord_iff in Ht as [_ Hclean].
  cbn [join]. destruct (isEmpty ts).
  - now apply lowercase_clean.
  - unfold lowercase in *. rewrite map_app. cbn [List.map].
    change (toLower " "%char) with " "%char.
    rewrite IH. f_equal. now apply lowercase_clean.
Qed.

Lemma canonical_In table t v :
  canonical table t = Some v ->
  exists kv, In kv table /\ v = list_ascii_of_string (snd kv).
Proof.
  induction table as [|[variant form] table IH]; simpl; [discriminate |].
  destruct (token_eqb _ t).
  - intros [= <-]. exists (variant, form). auto.
  - intros H. destruct (IH H) as (kv & Hin & E). eauto.
Qed.

Lemma stable_iff T t :
  stable T t = true <-> cleanWord t = true /\ normalize_token T t = t.
Proof. unfold stable. now rewrite andb_true_iff, token_eqb_eq. Qed.

(** With canonical tables the token step produces stable words only. *)
Lemma normalize_token_stable T t :
  canonicalTables T = true ->
  cleanWord t = true ->
  cleanWord (normalize_token T t) = true /\
  normalize_token T (normalize_token T t) = normalize_token T t.
Proof.
  unfold canonicalTables. rewrite !andb_true_iff, forallb_forall.
  intros [[Htable Hamount] Hentity] Hclean.
  apply stable_iff in Hamount, Hentity.
  unfold normalize_token at 1 3 4.
  destruct (isEntity T t) eqn:Ee; [exact Hentity |].
  destruct (isAmount t) eqn:Ea; [exact Hamount |].
  destruct (canonical (substitutions T) t) as [v|] eqn:Ec; cbn [default].
  - apply canonical_In in Ec as (kv & Hin & ->).
    apply stable_iff. now apply Htable.
  - split; [exact Hclean |].
    unfold normalize_token. now rewrite Ee, Ea, Ec.
Qed.

Lemma dropWhile_idem {A} (p : A -> bool) (l : list A) :
  dropWhile p (dropWhile p l) = dropWhile p l.
Proof.
  induction l as [|x l IH]; simpl; [reflexivity |].
  destruct (p x) eqn:Hx; [exact IH |]. simpl. now rewrite Hx.
Qed.

Lemma dropWhile_Forall {A} (P : A -> Prop) (p : A -> bool) (l : list A) :
  Forall P l -> Forall P (dropWhile p l).
Proof.
  induction 1 as [|x l Hx Hl IH]; simpl; [constructor |].
  destruct (p x); [exact IH | now constructor].
Qed.

Lemma words_stable T raw :
  canonicalTables T = true ->
  Forall (fun t => cleanWord t = true /\ normalize_token T t = t) (words T raw).
Proof.
  intros HT. unfold words. apply dropWhile_Forall.
  assert (H : Forall (fun t => cleanWord t = true)
                (tokens (lowercase (list_ascii_of_string raw))))
    by (apply tokens_from_clean; [apply lowercase_lower | constructor]).
  induction H as [|t ts Ht _ IH]; simpl; constructor; [| exact IH].
  now apply normalize_token_stable.
Qed.

Lemma map_fixed {A} (f : A -> A) (l : list A) :
  Forall (fun x => f x = x) l -> List.map f l = l.
Proof. induction 1 as [|x l Hx _ IH]; simpl; [reflexivity |]. now rewrite Hx, IH. Qed.

Lemma normalize_idempotent T raw :
  canonicalTables T = true ->
  normalize T (normalize T raw) = normalize T raw.
Proof.
  intros HT.
  pose proof (words_stable T raw HT) as Hst.
  assert (Hdrop : dropWhile (isBoilerplate T) (words T raw) = words T raw)
    by apply dropWhile_idem.
  set (ws := words T raw) in *.
  assert (Hclean : Forall (fun t => cleanWord t = true) ws)
    by (eapply Forall_impl; [exact Hst |]; now intros t [? _]).
  assert (Hfix : Forall (fun t => normalize_token T t = t) ws)
    by (eapply Forall_impl; [exact Hst |]; now intros t [_ ?]).
  unfold normalize. fold ws. unfold words.
  rewrite list_ascii_of_string_of_list_ascii.
  rewrite lowercase_join, tokens_join by assumption.
  rewrite map_fixed by assumption.
  now rewrite Hdrop.
Qed.

Lemma normalize_empty T : normalize T "" = "".
Proof. reflexivity. Qed.

End NormalizerFacts.

(** ** The rule engine and the fusion controller *)

Module FusionFacts.
Import Core CoreSpec.

Lemma Qle_bool_false x y : Qle_bool x y = false <-> (y < x)%Q.
Proof.
  split.
  - intros H. apply Qnot_le_lt. intros Hle.
    apply Qle_bool_iff in Hle. congruence.
  - intros H. destruct (Qle_bool x y) eqn:E; [| reflexivity].
    apply Qle_bool_iff in E. exfalso. now apply (Qlt_not_le _ _ H).
Qed.

(** A verdict with a matched pattern is the verdict of the rule at that
    position, whose predicate holds. *)
Lemma evaluate_from_matched rules raw clean : forall k i,
  RuleVerdict.matched_pattern (evaluate_from k rules raw clean) = Some i ->
  exists r,
    rules !! (i - k)%nat = Some r /\ (k <= i)%nat /\
    evaluate_from k rules raw clean = verdict_of i r /\
    predicate r raw clean = true.
Proof.
  induction rules as [|r rules IH]; intros k i; simpl; [discriminate |].
  destruct (predicate r raw clean) eqn:Hp.
  - simpl. intros [= <-]. exists r. rewrite Nat.sub_diag. auto.
  - intros H. destruct (IH _ _ H) as (r' & Hl & Hk & E & Hp').
    exists r'. replace (i - k)%nat with (S (i - S k)) by lia.
    repeat split; [exact Hl | lia | exact E | exact Hp'].
Qed.

Lemma Fires_verdict ctx text i r :
  Fires ctx text i r ->
  evaluate (rules ctx) text (Normalizer.normalize (tables ctx) text) = verdict_of i r.
Proof.
  intros [Hl Hm]. unfold evaluate in *.
  apply evaluate_from_matched in Hm as (r' & Hl' & _ & E & _).
  rewrite Nat.sub_0_r in Hl'. congruence.
Qed.

Lemma evaluate_from_first pre r post raw clean : forall k,
  (forall r', In r' pre -> predicate r' raw clean = false) ->
  predicate r raw clean = true ->
  evaluate_from k (pre ++ r :: post) raw clean = verdict_of (k + length pre) r.
Proof.
  induction pre as [|r0 pre IH]; intros k Hpre Hr; simpl.
  - now rewrite Hr, Nat.add_0_r.
  - rewrite (Hpre r0 (or_introl eq_refl)).
    rewrite IH by (auto; intros r' Hr'; apply Hpre; now right).
    f_equal. lia.
Qed.

(** A rule fires when its predicate holds and no rule of higher priority
    has a predicate that holds. *)
Lemma first_match_Fires ctx text pre r post :
  rules ctx = pre ++ r :: post ->
  (forall r', In r' pre ->
     predicate r' text (Normalizer.normalize (tables ctx) text) = false) ->
  predicate r text (Normalizer.normalize (tables ctx) text) = true ->
  Fires ctx text (length pre) r.
Proof.
  intros E Hpre Hr. unfold Fires, evaluate. rewrite E. split.
  - now apply list_lookup_middle.
  - now rewrite evaluate_from_first.
Qed.

(** The decision does not look at the classifier or the centroid store when
    the rule check or the empty-text check ends the request. *)
Lemma classify_rule_only ctx ctx' text :
  sameRules ctx ctx' ->
  let clean := Normalizer.normalize (tables ctx) text in
  let rv := evaluate (rules ctx) text clean in
  Qle_bool HIGH_RULE_THRESHOLD (RuleVerdict.confidence rv) = true \/ clean = "" ->
  classify ctx' text = classify ctx text.
Proof.
  intros [Et Er] clean rv H. unfold classify. rewrite Et, Er.
  fold clean. fold rv.
  destruct (Qle_bool HIGH_RULE_THRESHOLD (RuleVerdict.confidence rv)); [reflexivity |].
  destruct H as [H | H]; [discriminate |]. now rewrite H.
Qed.







End FusionFacts.

Section CoreClaims.
Import Core CoreSpec FusionFacts.

(** C1.  Rule pre-emption.  When the pattern the rule engine matches on a
    text (the first rule in priority order whose predicate holds) has
    confidence at least 0.9, the decision has strategy RULE, its label is
    that rule's target label and its confidence the rule's confidence; and
    the decision is the same whatever classifier, embedding model and
    centroid store are loaded. *)
Theorem C1_rule_preemption ctx text i r :
  Fires ctx text i r ->
  (HIGH_RULE_THRESHOLD <= base_confidence r)%Q ->
  Decision.strategy (classify ctx text) = RULE /\
  Decision.category (classify ctx text) = target r /\
  Decision.confidence (classify ctx text) = base_confidence r /\
  forall ctx', sameRules ctx ctx' -> classify ctx' text = classify ctx text.
Proof.
  intros HF Hc. pose proof (Fires_verdict _ _ _ _ HF) as E.
  apply Qle_bool_iff in Hc.
  assert (D : classify ctx text =
              {| Decision.category := target r;
                 Decision.confidence := base_confidence r;
                 Decision.strategy := RULE;
                 Decision.trace := [RuleConsulted (verdict_of i r)] |}).
  { unfold classify. rewrite E. simpl. now rewrite Hc. }
  rewrite D. simpl. repeat split.
  intros ctx' Hsame. rewrite <- D. apply classify_rule_only; [exact Hsame |].
  left. rewrite E. exact Hc.
Qed.

(** C2.  The normalizer is total, maps the empty string to the empty clean
    text, and is idempotent, for canonical tables (every canonical form and
    both placeholders are words the token step leaves alone). *)
Theorem C2_normalize_total_idempotent T :
  Normalizer.canonicalTables T = true ->
  (forall x, exists clean, Normalizer.normalize T x = clean) /\
  Normalizer.normalize T "" = "" /\
  (forall x,
     Normalizer.normalize T (Normalizer.normalize T x) = Normalizer.normalize T x).
Proof.
  intros HT. split; [| split].
  - intros x. eexists. reflexivity.
  - apply NormalizerFacts.normalize_empty.
  - intros x. now apply NormalizerFacts.normalize_idempotent.
Qed.

(** C3, as amended.  When no rule fires and the normalized text is not
    empty, the classifier's arg-max label is accepted at an inclusive
    threshold: with top probability at least 0.7, and so at exactly 0.7,
    the decision carries that label, that probability and strategy ML; with
    top probability below 0.7 the request goes on to the embedding rescue,
    which consults the centroid store and decides HYBRID or FALLBACK.  The
    centroid store is consulted only below 0.7. *)
Theorem C3_classifier_acceptance ctx text :
  let clean := Normalizer.normalize (tables ctx) text in
  let rv := evaluate (rules ctx) text clean in
  let cv := predict ctx clean in
  (RuleVerdict.confidence rv < HIGH_RULE_THRESHOLD)%Q ->
  clean <> "" ->
  ((ML_ACCEPT_THRESHOLD <= snd (top cv))%Q ->
   classify ctx text =
   {| Decision.category := fst (top cv);
      Decision.confidence := snd (top cv);
      Decision.strategy := ML;
      Decision.trace := [RuleConsulted rv; ClassifierConsulted cv] |}) /\
  ((snd (top cv) == ML_ACCEPT_THRESHOLD)%Q ->
   Decision.strategy (classify ctx text) = ML) /\
  ((snd (top cv) < ML_ACCEPT_THRESHOLD)%Q ->
   classify ctx text = embedding_rescue ctx rv cv clean /\
   centroidConsulted (classify ctx text) = true /\
   (Decision.strategy (classify ctx text) = HYBRID \/
    Decision.strategy (classify ctx text) = FALLBACK)) /\
  (centroidConsulted (classify ctx text) = true ->
   (snd (top cv) < ML_ACCEPT_THRESHOLD)%Q).
Proof.
  intros clean rv cv Hrule Hne.
  apply Qle_bool_false in Hrule. apply String.eqb_neq in Hne.
  assert (E : classify ctx text = classifier_check ctx rv clean).
  { unfold classify. fold clean. fold rv. now rewrite Hrule, Hne. }
  assert (Hacc : (ML_ACCEPT_THRESHOLD <= snd (top cv))%Q ->
    classify ctx text =
    {| Decision.category := fst (top cv);
       Decision.confidence := snd (top cv);
       Decision.strategy := ML;
       Decision.trace := [RuleConsulted rv; ClassifierConsulted cv] |}).
  { intros H. apply Qle_bool_iff in H. rewrite E. unfold classifier_check.
    fold cv. destruct (top cv) as [l p]. simpl in *. now rewrite H. }
  assert (Hres : (snd (top cv) < ML_ACCEPT_THRESHOLD)%Q ->
    classify ctx text = embedding_rescue ctx rv cv clean).
  { intros H. apply Qle_bool_false in H. rewrite E. unfold classifier_check.
    fold cv. destruct (top cv) as [l p]. simpl in *. now rewrite H. }
  split; [exact Hacc |]. split; [| split].
  - intros H. rewrite Hacc; [reflexivity |]. rewrite H. apply Qle_refl.
  - intros H. specialize (Hres H). rewrite Hres. split; [reflexivity |].
    unfold embedding_rescue. destruct (top cv) as [l p].
    destruct (nearest_label ctx clean) as [[cl s]|]; [| auto].
    destruct (_ && _); auto.
  - intros H. destruct (Qlt_le_dec (snd (top cv)) ML_ACCEPT_THRESHOLD) as [Hlt | Hle];
      [exact Hlt |].
    rewrite (Hacc Hle) in H. discriminate.
Qed.


End CoreClaims.

Module CoreWitnesses.
Import Core CoreSpec CoreSamples.

(** The scenarios of the design document. *)
Example scenario_swiggy :
  let d := classify (sampleContext [salaryRule; swiggyRule] unsure)
             "Rs. 1,250 debited via UPI to SWIGGY" in
  Decision.category d = "Food" /\ Decision.strategy d = RULE /\
  (9 # 10 <= Decision.confidence d)%Q.
Proof. vm_compute. repeat split; discriminate. Qed.

Example scenario_fuel :
  let d := classify (sampleContext [salaryRule; swiggyRule] unsure)
             "petrol pump 500" in
  Decision.category d = "Fuel" /\ Decision.strategy d = HYBRID.
Proof. vm_compute. split; reflexivity. Qed.

Example scenario_gibberish :
  let ctx :=
    {| tables := sampleTables; labels := ["Food"; "Fuel"; "Bills"];
       rules := [salaryRule; swiggyRule]; predict := fun _ => unsure;
       embed := fun _ => [0; 1]%Q; cosine := dot;
       centroids := [("Fuel", [1; 0]%Q)]; config := sampleConfig |} in
  let d := classify ctx "qwe rty uiop" in
  Decision.category d = "Others" /\ Decision.strategy d = FALLBACK /\
  Decision.confidence d = 55 # 100.
Proof. vm_compute. repeat split. Qed.

Example normalize_rupee_sign :
  Normalizer.normalize sampleTables "₹389 paid to 8636987542 using Google Pay"
  = "amounttoken paid to entitytoken using google pay".
Proof. vm_compute. reflexivity. Qed.

Example normalize_sample :
  Normalizer.normalize sampleTables
    "  GPay:   PhonePe: Rs.389 paid to 8636987542 using Google Pay  pymt "
  = "amounttoken paid to entitytoken using google pay payment".
Proof. vm_compute. reflexivity. Qed.

(** A rule of lower priority does not fire when an earlier one matches. *)
Example first_match_wins :
  RuleVerdict.matched_pattern
    (evaluate [swiggyRule; catchAllRule] "paid to swiggy" "paid to swiggy") = Some 0%nat.
Proof. reflexivity. Qed.

Lemma C1_witness :
  Fires (sampleContext [salaryRule; swiggyRule] unsure)
    "Rs. 1,250 debited via UPI to SWIGGY" 1 swiggyRule /\
  (HIGH_RULE_THRESHOLD <= base_confidence swiggyRule)%Q /\
  Decision.strategy
    (classify (sampleContext [salaryRule; swiggyRule] unsure)
       "Rs. 1,250 debited via UPI to SWIGGY") = RULE /\
  Decision.category
    (classify (sampleContext [salaryRule; swiggyRule] unsure)
       "Rs. 1,250 debited via UPI to SWIGGY") = "Food".
Proof.
  assert (F : Fires (sampleContext [salaryRule; swiggyRule] unsure)
                "Rs. 1,250 debited via UPI to SWIGGY" 1 swiggyRule).
  { split; [reflexivity | vm_compute; reflexivity]. }
  assert (H : (HIGH_RULE_THRESHOLD <= base_confidence swiggyRule)%Q).
  { unfold Qle. simpl. lia. }
  split; [exact F |]. split; [exact H |].
  pose proof (C1_rule_preemption _ _ _ _ F H) as (Hs & Hc & _).
  split; [exact Hs | exact Hc].
Defined.

Lemma C2_witness :
  Normalizer.canonicalTables sampleTables = true /\
  Normalizer.normalize sampleTables
    (Normalizer.normalize sampleTables "  GPay: Rs.389 paid to 8636987542 pymt")
  = Normalizer.normalize sampleTables "  GPay: Rs.389 paid to 8636987542 pymt".
Proof.
  assert (H : Normalizer.canonicalTables sampleTables = true)
    by (vm_compute; reflexivity).
  split; [exact H |].
  exact (proj2 (proj2 (C2_normalize_total_idempotent sampleTables H)) _).
Defined.

Lemma C3_witness :
  let ctx := sampleContext [salaryRule; swiggyRule] atThreshold in
  let clean := Normalizer.normalize (tables ctx) "petrol pump 500" in
  (RuleVerdict.confidence (evaluate (rules ctx) "petrol pump 500" clean)
   < HIGH_RULE_THRESHOLD)%Q /\
  clean <> "" /\
  (snd (top (predict ctx clean)) == ML_ACCEPT_THRESHOLD)%Q /\
  Decision.strategy (classify ctx "petrol pump 500") = ML.
Proof.
  intros ctx clean.
  assert (H1 : (RuleVerdict.confidence (evaluate (rules ctx) "petrol pump 500" clean)
                < HIGH_RULE_THRESHOLD)%Q) by (vm_compute; reflexivity).
  assert (H2 : clean <> "") by (vm_compute; discriminate).
  assert (H3 : (snd (top (predict ctx clean)) == ML_ACCEPT_THRESHOLD)%Q)
    by (vm_compute; reflexivity).
  split; [exact H1 |]. split; [exact H2 |]. split; [exact H3 |].
  exact (proj1 (proj2 (C3_classifier_acceptance ctx "petrol pump 500" H1 H2)) H3).
Defined.

(** The claim without the guard fails on the empty text: no rule fires, the
    classifier would answer with probability 0.8, and the decision is the
    short-circuit of section 7, not ML. *)
Lemma C3_counterexample :
  let ctx := sampleContext [] sure in
  let clean := Normalizer.normalize (tables ctx) "" in
  (RuleVerdict.confidence (evaluate (rules ctx) "" clean) < HIGH_RULE_THRESHOLD)%Q /\
  (ML_ACCEPT_THRESHOLD <= snd (top (predict ctx clean)))%Q /\
  Decision.strategy (classify ctx "") <> ML /\
  Decision.category (classify ctx "") = Others.
Proof.
  intros ctx clean. split; [vm_compute; reflexivity |].
  split; [vm_compute; discriminate |].
  split; [vm_compute; discriminate | vm_compute; reflexivity].
Qed.


End CoreWitnesses.

Module NotifierWitnesses.
Import NotificationService NotifierSpec NotifierSamples.

Ltac spelled :=
  repeat (constructor;
          [first [left; reflexivity | right; left; reflexivity] |]);
  constructor.

Lemma C10_witness :
  (HasAmountPattern asciiEqualsIgnoreCase asciiSpace asciiDigit
     (lit "Win " ++ [RUPEE] ++ lit " 500 today") /\
   forall anyPackage,
     isTransactionNotificationAscii anyPackage
       (lit "Win " ++ [RUPEE] ++ lit " 500 today") = true) /\
  (IsPaymentApp asciiUpper asciiLower (lit "com.phonepe.app") /\
   HasTransactionKeyword asciiUpper asciiLower (lit "Payment received") /\
   isTransactionNotificationAscii (lit "com.phonepe.app") (lit "Payment received")
   = true) /\
  (IsPaymentApp asciiUpper asciiLower (lit "net.MyBank.app") /\
   HasTransactionKeyword asciiUpper asciiLower (lit "Your ACCOUNT was used") /\
   isTransactionNotificationAscii (lit "net.MyBank.app")
     (lit "Your ACCOUNT was used") = true).
Proof.
  assert (H : HasAmountPattern asciiEqualsIgnoreCase asciiSpace asciiDigit
                (lit "Win " ++ [RUPEE] ++ lit " 500 today")).
  { exists (lit "Win "), ([RUPEE] ++ lit " 500"), (lit " today").
    split; [reflexivity |].
    exists [RUPEE], (lit " "), (lit "500").
    split; [reflexivity |]. split.
    - left. repeat constructor.
    - split; [repeat constructor |].
      split; [discriminate | repeat constructor]. }
  assert (P1 : IsPaymentApp asciiUpper asciiLower (lit "com.phonepe.app")).
  { right. vm_compute. tauto. }
  assert (K1 : HasTransactionKeyword asciiUpper asciiLower (lit "Payment received")).
  { exists (lit "payment"). split; [vm_compute; tauto |].
    exists [], (lit "Payment"), (lit " received"). split; [reflexivity | spelled]. }
  assert (P2 : IsPaymentApp asciiUpper asciiLower (lit "net.MyBank.app")).
  { left. exists (lit "bank"). split; [vm_compute; tauto |].
    exists (lit "net.My"), (lit "Bank"), (lit ".app"). split; [reflexivity | spelled]. }
  assert (K2 : HasTransactionKeyword asciiUpper asciiLower
                 (lit "Your ACCOUNT was used")).
  { exists (lit "account"). split; [vm_compute; tauto |].
    exists (lit "Your "), (lit "ACCOUNT"), (lit " was used").
    split; [reflexivity | spelled]. }
  split; [split; [exact H |] |].
  - exact (proj2 (C10_notification_filter asciiUpper asciiLower
                    asciiEqualsIgnoreCase asciiSpace asciiDigit [] _) H).
  - split.
    + split; [exact P1 |]. split; [exact K1 |].
      exact (proj2 (proj1 (C10_notification_filter asciiUpper asciiLower
                             asciiEqualsIgnoreCase asciiSpace asciiDigit
                             (lit "com.phonepe.app") (lit "Payment received")))
               (or_introl (conj P1 K1))).
    + split; [exact P2 |]. split; [exact K2 |].
      exact (proj2 (proj1 (C10_notification_filter asciiUpper asciiLower
                             asciiEqualsIgnoreCase asciiSpace asciiDigit
                             (lit "net.MyBank.app") (lit "Your ACCOUNT was used")))
               (or_introl (conj P2 K2))).
Defined.

End NotifierWitnesses.

(* ===================================================================== *)
(** * Part III. Further properties of the storage service and its callers *)
(* ===================================================================== *)

Module KeyFacts.
Import LocalStorageService.

Lemma append_empty s : s +:+ "" = s.
Proof.
  induction s as [|c s IH]; [reflexivity |].
  change (String c (s +:+ "") = String c s). now rewrite IH.
Qed.

Lemma getUserKey_prefix ls baseKey userId :
  exists suffix, getUserKey ls baseKey userId = baseKey +:+ suffix.
Proof.
  assert (Hs : exists suffix, sessionKey ls baseKey = baseKey +:+ suffix).
  { unfold sessionKey. destruct (auth_session ls) as [[|phone| |]|]; eauto;
      exists ""; now rewrite append_empty. }
  unfold getUserKey. destruct userId as [u|]; [| exact Hs].
  destruct (truthy (Some u)); [eauto | exact Hs].
Qed.

Lemma pinKey_prefix userId :
  exists suffix, BrowserServices.pinService.key userId = STORAGE_KEYS.PIN +:+ suffix.
Proof.
  assert (H0 : exists suffix, STORAGE_KEYS.PIN = STORAGE_KEYS.PIN +:+ suffix)
    by (exists ""; now rewrite append_empty).
  unfold BrowserServices.pinService.key. destruct userId as [u|]; [| exact H0].
  destruct (truthy (Some u)); [eauto | exact H0].
Qed.

(** The character at a position inside the base key survives the suffix. *)
Lemma get_prefix n base suffix :
  (n < String.length base)%nat -> String.get n (base +:+ suffix) = String.get n base.
Proof. intros H. symmetry. now apply append_correct1. Qed.

Lemma removePlus_idem s : removePlus (removePlus s) = removePlus s.
Proof.
  induction s as [|c s IH]; simpl; [reflexivity |].
  destruct (Ascii.eqb c "+") eqn:E; [exact IH |]. simpl. now rewrite E, IH.
Qed.

(** The key for the user id a page computes from the phone of the session
    is the key the service derives from the session. *)
Lemma getUserKey_of_session_phone ls baseKey phone :
  auth_session ls = Some (SessionParsed (Some phone)) ->
  getUserKey ls baseKey (Some (removePlus phone)) = getUserKey ls baseKey None.
Proof.
  intros H. unfold getUserKey, sessionKey. rewrite H. simpl.
  unfold orElse, truthy. simpl.
  destruct (String.eqb (removePlus phone) ""); reflexivity.
Qed.

End KeyFacts.

Section StorageExtras.
Import LocalStorageService StorageSpec StorageFacts StorageRestSpec KeyFacts.

Variable toLowerCase : string -> string.

(** X1.  The keys of the different services never coincide: whatever the
    sessions and the user ids, the key of a transaction list, of a category
    list, of a profile and of a PIN, and the keys of the session and the
    onboarding flag are six different strings.  No user id makes one
    service overwrite the item of another. *)
Theorem X1_service_keys_differ ls1 ls2 ls3 u1 u2 u3 u4 :
  NoDup [ getUserKey ls1 STORAGE_KEYS.TRANSACTIONS u1;
          getUserKey ls2 STORAGE_KEYS.CATEGORIES u2;
          getUserKey ls3 STORAGE_KEYS.USER_PROFILE u3;
          BrowserServices.pinService.key u4;
          STORAGE_KEYS.AUTH_SESSION;
          STORAGE_KEYS.ONBOARDING_COMPLETE ].
Proof.
  destruct (getUserKey_prefix ls1 STORAGE_KEYS.TRANSACTIONS u1) as [s1 ->].
  destruct (getUserKey_prefix ls2 STORAGE_KEYS.CATEGORIES u2) as [s2 ->].
  destruct (getUserKey_prefix ls3 STORAGE_KEYS.USER_PROFILE u3) as [s3 ->].
  destruct (pinKey_prefix u4) as [s4 ->].
  apply (NoDup_fmap_1 (String.get 11)).
  cbn [fmap list_fmap].
  rewrite !get_prefix by (vm_compute; lia).
  vm_compute. apply (bool_decide_unpack _). vm_compute. exact I.
Qed.

(** X2.  The user id the pages compute from the session resolves to the
    key the service derives from the session itself: with a session
    written by [saveSession(phone)], calling a service with
    [phone.replace(/\+/g, '')] and calling it without user id address the
    same item; without a session, [undefined] and [""] both address the
    global item. *)
Theorem X2_page_user_id_is_session_key ls baseKey :
  (forall phone,
     auth_session ls = Some (SessionParsed (Some phone)) ->
     getUserKey ls baseKey (StorageRest.pageUserId (Some phone))
     = getUserKey ls baseKey None) /\
  (auth_session ls = None ->
   getUserKey ls baseKey (StorageRest.pageUserId None) = baseKey /\
   getUserKey ls baseKey (Some "") = baseKey /\
   getUserKey ls baseKey None = baseKey).
Proof.
  split.
  - intros phone H. now apply getUserKey_of_session_phone.
  - intros H. unfold getUserKey, sessionKey. rewrite H. simpl. auto.
Qed.

End StorageExtras.

Module TransactionRestFacts.
Import LocalStorageService StorageSpec StorageFacts.

(** Reading a user's list after a write under the key of another call. *)
Lemma getAll_written ls l userId userId' :
  transactionService.getAll
    (Some {| auth_session := auth_session ls;
             transactions :=
               <[getUserKey ls STORAGE_KEYS.TRANSACTIONS userId := l]> (transactions ls);
             categories := categories ls |})
    userId' =
  if decide (getUserKey ls STORAGE_KEYS.TRANSACTIONS userId =
             getUserKey ls STORAGE_KEYS.TRANSACTIONS userId')
  then l else transactionService.getAll (Some ls) userId'.
Proof.
  unfold transactionService.getAll. simpl.
  rewrite (getUserKey_session ls) by reflexivity.
  rewrite lookup_insert. now case_decide.
Qed.

Lemma getAll_save t userId ls :
  transactionService.getAll (transactionService.save t userId (Some ls)) userId
  = transactionService.getAll (Some ls) userId ++ [t].
Proof.
  unfold transactionService.save. rewrite getAll_written.
  now rewrite decide_True by reflexivity.
Qed.

Lemma getAll_delete id0 userId ls :
  transactionService.getAll
    (StorageRest.transactionService.delete id0 userId (Some ls)) userId
  = List.filter (fun t => negb (String.eqb (id t) id0))
      (transactionService.getAll (Some ls) userId).
Proof.
  unfold StorageRest.transactionService.delete. rewrite getAll_written.
  now rewrite decide_True by reflexivity.
Qed.

(** What [update] leaves in the list, in one equation: the list read back
    is [updateFirst] of the list read before. *)
Lemma getAll_update id0 updates userId ls :
  (forall t, In t (transactionService.getAll (Some ls) userId) -> id t <> id0) /\
  transactionService.getAll
    (transactionService.update id0 updates userId (Some ls)) userId
  = transactionService.getAll (Some ls) userId
  \/
  exists pre t post,
    transactionService.getAll (Some ls) userId = pre ++ t :: post /\
    (forall t', In t' pre -> id t' <> id0) /\ id t = id0 /\
    transactionService.getAll
      (transactionService.update id0 updates userId (Some ls)) userId
    = pre ++ spread t updates :: post.
Proof.
  destruct (Z.eq_dec
              (findIndex (fun t => String.eqb (id t) id0)
                 (transactionService.getAll (Some ls) userId)) (-1)%Z) as [E | E].
  - left. pose proof (proj1 (findIndex_none _ _) E) as Hnone.
    assert (Hne : forall t, In t (transactionService.getAll (Some ls) userId) ->
                            id t <> id0)
      by (intros t Ht; apply String.eqb_neq; now apply Hnone).
    split; [exact Hne |]. now rewrite TransactionFacts.update_missing.
  - right. destruct (findIndex_some _ _ E) as (pre & t & post & Hall & Hpre & Ht).
    apply String.eqb_eq in Ht.
    assert (Hpre' : forall t', In t' pre -> id t' <> id0)
      by (intros t' Ht'; apply String.eqb_neq; now apply Hpre).
    exists pre, t, post. repeat split; try assumption.
    rewrite (TransactionFacts.update_found _ _ _ _ pre t post) by assumption.
    apply TransactionFacts.getAll_after_update.
Qed.

Lemma filter_all {A} (p : A -> bool) (l : list A) :
  (forall x, In x l -> p x = true) -> List.filter p l = l.
Proof.
  induction l as [|x l IH]; intros H; simpl; [reflexivity |].
  rewrite (H x (or_introl eq_refl)). f_equal. apply IH.
  intros y Hy. apply H. now right.
Qed.

Lemma filter_filter {A} (p : A -> bool) (l : list A) :
  List.filter p (List.filter p l) = List.filter p l.
Proof.
  apply filter_all. intros x Hx. now apply filter_In in Hx.
Qed.

End TransactionRestFacts.

Section TransactionExtras.
Import LocalStorageService StorageSpec StorageFacts StorageRestSpec KeyFacts.
Import TransactionRestFacts.

(** X3.  [save] appends without looking at ids, and [update] then reaches
    only the oldest transaction with an id: after saving a transaction
    whose id is already stored, updating that id changes the older one and
    leaves the one just saved as it is. *)
Theorem X3_save_appends_update_reaches_oldest t updates userId ls :
  transactionService.getAll (transactionService.save t userId (Some ls)) userId
  = transactionService.getAll (Some ls) userId ++ [t] /\
  ((exists t0, In t0 (transactionService.getAll (Some ls) userId) /\ id t0 = id t) ->
   transactionService.getAll
     (transactionService.update (id t) updates userId
        (transactionService.save t userId (Some ls))) userId
   = transactionService.getAll
       (transactionService.update (id t) updates userId (Some ls)) userId
     ++ [t]).
Proof.
  split; [apply getAll_save |].
  intros (t0 & Hin & Hid).
  destruct (getAll_update (id t) updates userId ls)
    as [[Hnone _] | (pre & t1 & post & Hall & Hpre & Ht1 & Hupd)].
  { exfalso. now apply (Hnone t0 Hin). }
  rewrite Hupd.
  destruct (transactionService.save t userId (Some ls)) as [ls'|] eqn:Es;
    [| discriminate].
  assert (Hall' : transactionService.getAll (Some ls') userId
                  = pre ++ t1 :: (post ++ [t])).
  { rewrite <- Es, getAll_save, Hall. now rewrite <- app_assoc. }
  rewrite (TransactionFacts.update_found _ _ _ _ pre t1 (post ++ [t]))
    by assumption.
  rewrite TransactionFacts.getAll_after_update.
  now rewrite <- app_assoc.
Qed.

(** X4.  [saveMany] replaces the list: what [getAll] reads afterwards is
    exactly the list given, whatever was stored; and writing back the list
    just read changes what no user reads. *)
Theorem X4_saveMany_getAll_round_trip ls userId :
  (forall l,
     transactionService.getAll
       (StorageRest.transactionService.saveMany l userId (Some ls)) userId = l) /\
  (forall userId',
     transactionService.getAll
       (StorageRest.transactionService.saveMany
          (transactionService.getAll (Some ls) userId) userId (Some ls)) userId'
     = transactionService.getAll (Some ls) userId').
Proof.
  split.
  - intros l. unfold StorageRest.transactionService.saveMany.
    rewrite getAll_written. now rewrite decide_True by reflexivity.
  - intros userId'. unfold StorageRest.transactionService.saveMany.
    rewrite getAll_written. case_decide as E; [| reflexivity].
    unfold transactionService.getAll. now rewrite E.
Qed.

(** X5.  [delete] removes every transaction with the id, not only the first
    one: afterwards no stored transaction of the user has the id, the
    transactions with other ids are all still there in their order, a
    second [delete] changes nothing more, and an [update] of that id leaves
    the store as it is. *)
Theorem X5_delete_removes_every_match id0 userId ls :
  let w' := StorageRest.transactionService.delete id0 userId (Some ls) in
  transactionService.getAll w' userId
  = List.filter (fun t => negb (String.eqb (id t) id0))
      (transactionService.getAll (Some ls) userId) /\
  (forall t, In t (transactionService.getAll w' userId) -> id t <> id0) /\
  (forall t, In t (transactionService.getAll (Some ls) userId) -> id t <> id0 ->
             In t (transactionService.getAll w' userId)) /\
  StorageRest.transactionService.delete id0 userId w' = w' /\
  (forall updates, transactionService.update id0 updates userId w' = w').
Proof.
  intros w'.
  assert (Hget : transactionService.getAll w' userId
                 = List.filter (fun t => negb (String.eqb (id t) id0))
                     (transactionService.getAll (Some ls) userId))
    by apply getAll_delete.
  assert (Hnone : forall t, In t (transactionService.getAll w' userId) -> id t <> id0).
  { intros t Ht. rewrite Hget in Ht. apply filter_In in Ht as [_ Ht].
    apply negb_true_iff in Ht. now apply String.eqb_neq. }
  split; [exact Hget |]. split; [exact Hnone |]. split; [| split].
  - intros t Ht Hne. rewrite Hget. apply filter_In. split; [exact Ht |].
    apply negb_true_iff. now apply String.eqb_neq.
  - assert (Ew : w' = Some {| auth_session := auth_session ls;
                              transactions :=
                                <[getUserKey ls STORAGE_KEYS.TRANSACTIONS userId :=
                                    transactionService.getAll w' userId]>
                                  (transactions ls);
                              categories := categories ls |})
      by (rewrite Hget; reflexivity).
    rewrite Ew. unfold StorageRest.transactionService.delete.
    rewrite getAll_written, decide_True by reflexivity.
    cbn [auth_session transactions categories].
    rewrite (getUserKey_session ls) by reflexivity.
    rewrite insert_insert_eq. rewrite Hget at 1. now rewrite filter_filter, <- Hget.
  - intros updates. unfold w' in *.
    unfold StorageRest.transactionService.delete in *.
    now apply TransactionFacts.update_missing.
Qed.

End TransactionExtras.

Module FilterFacts.

Lemma filter_comm {A} (p q : A -> bool) (l : list A) :
  List.filter p (List.filter q l) = List.filter q (List.filter p l).
Proof.
  induction l as [|x l IH]; simpl; [reflexivity |].
  destruct (q x) eqn:Hq, (p x) eqn:Hp; simpl; rewrite ?Hq, ?Hp, IH; reflexivity.
Qed.

(** An element the filter rejects can be exchanged for another one it
    rejects. *)
Lemma filter_replace_rejected {A} (p : A -> bool) (pre post : list A) (x y : A) :
  p x = false -> p y = false ->
  List.filter p (pre ++ x :: post) = List.filter p (pre ++ y :: post).
Proof.
  intros Hx Hy. rewrite !List.filter_app. simpl. now rewrite Hx, Hy.
Qed.

End FilterFacts.

Section UpdateExtras.
Import LocalStorageService StorageSpec StorageFacts StorageRestSpec KeyFacts.
Import TransactionRestFacts FilterFacts.

(** X6.  [update] never adds or drops a transaction and never touches a
    transaction with another id; when the update carries no [id] key, the
    ids stored, in their order, are the same before and after. *)
Theorem X6_update_keeps_length_and_ids id0 updates userId ls :
  let before := transactionService.getAll (Some ls) userId in
  let after :=
    transactionService.getAll
      (transactionService.update id0 updates userId (Some ls)) userId in
  length after = length before /\
  (forall t, In t before -> id t <> id0 -> In t after) /\
  (Partial.id updates = None -> List.map id after = List.map id before).
Proof.
  intros before after. subst before after.
  destruct (getAll_update id0 updates userId ls)
    as [[_ E] | (pre & t & post & Hall & Hpre & Ht & E)].
  - rewrite E. auto.
  - rewrite E, Hall. split; [| split].
    + now rewrite !length_app.
    + intros t' Hin Hne. apply in_app_or in Hin as [Hin | [<- | Hin]].
      * apply in_or_app. now left.
      * contradiction.
      * apply in_or_app. right. now right.
    + intros Hid. rewrite !map_app. cbn [List.map spread id].
      now rewrite Hid.
Qed.

(** X7.  Changing the category of a transaction on the transactions page
    changes that field of the first transaction with the id and nothing
    else; the transaction is afterwards listed by [getByCategory] under the
    new category, and in every category the transactions with other ids are
    listed as before. *)
Theorem X7_recategorized_transaction_is_listed id0 newCat phone ls :
  let userId := Some (orElse (removePlus <$> phone) "") in
  let w' := StorageRest.TransactionsPage.handleCategoryChange id0 newCat phone (Some ls) in
  (exists t, In t (transactionService.getAll (Some ls) userId) /\ id t = id0) ->
  (exists pre t post,
     transactionService.getAll (Some ls) userId = pre ++ t :: post /\
     (forall t', In t' pre -> id t' <> id0) /\ id t = id0 /\
     transactionService.getAll w' userId = pre ++ withCategory newCat t :: post /\
     In (withCategory newCat t)
       (StorageRest.transactionService.getByCategory newCat userId w')) /\
  (forall d,
     List.filter (fun t => negb (String.eqb (id t) id0))
       (StorageRest.transactionService.getByCategory d userId w')
     = List.filter (fun t => negb (String.eqb (id t) id0))
         (StorageRest.transactionService.getByCategory d userId (Some ls))).
Proof.
  intros userId w' (t0 & Hin & Hid).
  unfold StorageRest.TransactionsPage.handleCategoryChange in w'. fold userId in w'.
  destruct (getAll_update id0
              {| Partial.id := None; Partial.description := None;
                 Partial.amount := None; Partial.category := Some newCat;
                 Partial.date := None; Partial.recipient := None;
                 Partial.type := None |} userId ls)
    as [[Hnone _] | (pre & t & post & Hall & Hpre & Ht & E)].
  { exfalso. now apply (Hnone t0 Hin). }
  fold w' in E. change (spread t _) with (withCategory newCat t) in E.
  split.
  - exists pre, t, post. repeat split; try assumption.
    unfold StorageRest.transactionService.getByCategory. rewrite E.
    apply filter_In. split.
    + apply in_or_app. right. now left.
    + simpl. apply String.eqb_refl.
  - intros d. unfold StorageRest.transactionService.getByCategory.
    rewrite (filter_comm _ _ (transactionService.getAll w' userId)).
    rewrite (filter_comm _ _ (transactionService.getAll (Some ls) userId)).
    f_equal. rewrite E, Hall. apply filter_replace_rejected.
    + simpl. rewrite Ht. now rewrite String.eqb_refl.
    + rewrite Ht. now rewrite String.eqb_refl.
Qed.

End UpdateExtras.

Module CategoryRestFacts.
Import LocalStorageService StorageSpec StorageFacts StorageRestSpec KeyFacts.

Lemma map_filter_name (p : string -> bool) (l : list Category) :
  List.map name (List.filter (fun c => p (name c)) l)
  = List.filter p (List.map name l).
Proof.
  induction l as [|c l IH]; simpl; [reflexivity |].
  destruct (p (name c)); simpl; now rewrite IH.
Qed.

(** With pairwise distinct images, equal images mean the same element. *)
Lemma NoDup_map_eq {A B} (f : A -> B) (l : list A) (x y : A) :
  NoDup (List.map f l) -> In x l -> In y l -> f x = f y -> x = y.
Proof.
  induction l as [|z l IH]; simpl; [intros _ [] |].
  intros Hnd Hx Hy E. apply NoDup_cons in Hnd as [Hz Hnd].
  destruct Hx as [-> | Hx], Hy as [-> | Hy]; auto.
  - exfalso. apply Hz. rewrite E. apply list_elem_of_In, in_map, Hy.
  - exfalso. apply Hz. rewrite <- E. apply list_elem_of_In, in_map, Hx.
Qed.

Section WithLowerCase.

Variable toLowerCase : string -> string.

(** [add] keeps the session and the transactions, in a browser. *)
Lemma add_frame now categoryName userId ls :
  exists ls',
    categoryService.add toLowerCase now categoryName userId (Some ls) = Some ls' /\
    auth_session ls' = auth_session ls /\
    transactions ls' = transactions ls.
Proof.
  destruct (add_decide toLowerCase categoryName userId ls) as [H | H].
  - rewrite add_existing by assumption. eauto.
  - rewrite add_fresh by assumption. eauto.
Qed.

(** What [add] leaves in the list of its user: the list, or the list and
    the new entry. *)
Lemma getAll_add now categoryName userId ls :
  let l := categoryService.getAll (Some ls) userId in
  let l' :=
    categoryService.getAll
      (categoryService.add toLowerCase now categoryName userId (Some ls)) userId in
  ((exists c, In c l /\ toLowerCase (name c) = toLowerCase categoryName) /\ l' = l) \/
  ((forall c, In c l -> toLowerCase (name c) <> toLowerCase categoryName) /\
   l' = l ++ [ {| name := categoryName; createdAt := now |} ]).
Proof.
  intros l l'. subst l l'.
  destruct (add_decide toLowerCase categoryName userId ls) as [H | H].
  - left. split; [exact H |]. now rewrite add_existing.
  - right. split; [exact H |]. now apply getAll_add_fresh.
Qed.

Lemma transactions_after_add now categoryName userId userId' w :
  transactionService.getAll
    (categoryService.add toLowerCase now categoryName userId w) userId'
  = transactionService.getAll w userId'.
Proof.
  destruct w as [ls|]; [| reflexivity].
  destruct (add_frame now categoryName userId ls) as (ls' & -> & Hs & Ht).
  unfold transactionService.getAll. now rewrite Ht, (getUserKey_session ls ls').
Qed.

Lemma addEach_frame now cats userId : forall i ls,
  exists ls',
    StorageRest.addEach toLowerCase now i cats userId (Some ls) = Some ls' /\
    auth_session ls' = auth_session ls /\
    transactions ls' = transactions ls.
Proof.
  induction cats as [|cat cats IH]; intros i ls; cbn [StorageRest.addEach]; [eauto |].
  destruct (add_frame (now i) cat userId ls) as (ls1 & -> & Hs1 & Ht1).
  destruct (IH (S i) ls1) as (ls' & E & Hs & Ht).
  exists ls'. rewrite E. repeat split; congruence.
Qed.

(** The names after adding, one after the other, names that are new and
    pairwise different ignoring case. *)
Lemma addEach_names now cats userId : forall i ls,
  NoDup (List.map toLowerCase (categoryService.getNames (Some ls) userId ++ cats)) ->
  categoryService.getNames
    (StorageRest.addEach toLowerCase now i cats userId (Some ls)) userId
  = categoryService.getNames (Some ls) userId ++ cats.
Proof.
  induction cats as [|cat cats IH]; intros i ls Hnd; cbn [StorageRest.addEach].
  - now rewrite app_nil_r.
  - assert (Hfresh : forall c, In c (categoryService.getAll (Some ls) userId) ->
                               toLowerCase (name c) <> toLowerCase cat).
    { intros c Hc E. rewrite map_app in Hnd. apply NoDup_app in Hnd as (_ & Hd & _).
      apply (Hd (toLowerCase (name c))).
      - apply list_elem_of_In. unfold categoryService.getNames.
        rewrite map_map. apply in_map_iff. eauto.
      - rewrite E. apply list_elem_of_In. simpl. now left. }
    destruct (add_frame (now i) cat userId ls) as (ls1 & E1 & _).
    assert (Hn1 : categoryService.getNames (Some ls1) userId
                  = categoryService.getNames (Some ls) userId ++ [cat]).
    { rewrite <- E1. unfold categoryService.getNames.
      rewrite getAll_add_fresh by assumption. now rewrite map_app. }
    rewrite E1, IH; rewrite Hn1, <- app_assoc; [reflexivity | exact Hnd].
Qed.

(** [add] never shortens the list of its user. *)
Lemma add_not_empty now categoryName userId ls :
  categoryService.getAll
    (categoryService.add toLowerCase now categoryName userId (Some ls)) userId <> [].
Proof.
  destruct (getAll_add now categoryName userId ls) as [[(c & Hc & _) E] | [_ E]];
    cbv zeta in E; rewrite E.
  - intros E0. rewrite E0 in Hc. destruct Hc.
  - now destruct (categoryService.getAll (Some ls) userId).
Qed.

Lemma addEach_not_empty now cats userId : forall i ls,
  categoryService.getAll (Some ls) userId <> [] \/ cats <> [] ->
  categoryService.getAll
    (StorageRest.addEach toLowerCase now i cats userId (Some ls)) userId <> [].
Proof.
  induction cats as [|cat cats IH]; intros i ls H; cbn [StorageRest.addEach].
  - destruct H as [H | H]; [exact H | contradiction].
  - destruct (add_frame (now i) cat userId ls) as (ls1 & E1 & _).
    rewrite E1. apply IH. left. rewrite <- E1. apply add_not_empty.
Qed.

(** The truthiness of the pages' [find] means a stored category with that
    name, ignoring case. *)
Lemma foundName_stored name0 userId ls :
  StorageRest.foundName toLowerCase name0
    (categoryService.getNames (Some ls) userId) = true ->
  exists c, In c (categoryService.getAll (Some ls) userId) /\
            toLowerCase (name c) = toLowerCase name0.
Proof.
  unfold StorageRest.foundName.
  destruct (List.find _ _) as [found|] eqn:F; [| discriminate].
  intros _. apply find_some in F as [Hin E]. apply String.eqb_eq in E.
  unfold categoryService.getNames in Hin.
  apply in_map_iff in Hin as (c & <- & Hc). eauto.
Qed.

End WithLowerCase.

End CategoryRestFacts.

Section CategoryExtras.
Import LocalStorageService StorageSpec StorageFacts StorageRestSpec KeyFacts.
Import TransactionRestFacts CategoryRestFacts.

Variable toLowerCase : string -> string.

(** X8.  [remove] matches the name exactly while [add] compares ignoring
    case.  After [remove(n)] no stored category of the user is named [n]
    and the other names are there in their order; but a stored name that
    differs from [n] only by case survives, and [add(n)] then still stores
    nothing. *)
Theorem X8_remove_is_exact_add_ignores_case categoryName userId ls :
  let w' := categoryService.remove categoryName userId (Some ls) in
  ~ In categoryName (categoryService.getNames w' userId) /\
  categoryService.getNames w' userId
  = List.filter (fun n => negb (String.eqb n categoryName))
      (categoryService.getNames (Some ls) userId) /\
  (forall c,
     In c (categoryService.getAll (Some ls) userId) ->
     name c <> categoryName ->
     toLowerCase (name c) = toLowerCase categoryName ->
     In c (categoryService.getAll w' userId) /\
     forall now, categoryService.add toLowerCase now categoryName userId w' = w').
Proof.
  intros w'.
  assert (Hget : categoryService.getAll w' userId
                 = List.filter (fun c => negb (String.eqb (name c) categoryName))
                     (categoryService.getAll (Some ls) userId))
    by apply getAll_remove.
  assert (Hnames : categoryService.getNames w' userId
                   = List.filter (fun n => negb (String.eqb n categoryName))
                       (categoryService.getNames (Some ls) userId)).
  { unfold categoryService.getNames. rewrite Hget.
    apply (map_filter_name (fun n => negb (String.eqb n categoryName))). }
  split; [| split; [exact Hnames |]].
  - rewrite Hnames. intros H. apply filter_In in H as [_ H].
    now rewrite String.eqb_refl in H.
  - intros c Hc Hne Hlow.
    assert (Hc' : In c (categoryService.getAll w' userId)).
    { rewrite Hget. apply filter_In. split; [exact Hc |].
      apply negb_true_iff. now apply String.eqb_neq. }
    split; [exact Hc' |]. intros now.
    unfold w' in *. unfold categoryService.remove in *.
    apply add_existing. eauto.
Qed.

(** X9.  Removing a stored name and adding it again moves it to the end:
    from a list with pairwise distinct names ignoring case, the names after
    [remove(n)] and [add(n)] are the other names in their order, then
    [n]. *)
Theorem X9_remove_then_add_moves_to_end now categoryName userId ls :
  caseDistinct toLowerCase (categoryService.getAll (Some ls) userId) ->
  In categoryName (categoryService.getNames (Some ls) userId) ->
  categoryService.getNames
    (categoryService.add toLowerCase now categoryName userId
       (categoryService.remove categoryName userId (Some ls))) userId
  = List.filter (fun n => negb (String.eqb n categoryName))
      (categoryService.getNames (Some ls) userId) ++ [categoryName].
Proof.
  intros Hnd Hin.
  unfold categoryService.getNames in Hin.
  apply in_map_iff in Hin as (c0 & Hn0 & Hc0).
  pose proof (getAll_remove categoryName userId ls) as Hget.
  destruct (categoryService.remove categoryName userId (Some ls)) as [ls'|] eqn:Er;
    [| discriminate].
  assert (Hfresh : forall c, In c (categoryService.getAll (Some ls') userId) ->
                             toLowerCase (name c) <> toLowerCase categoryName).
  { intros c Hc E. rewrite Hget in Hc. apply filter_In in Hc as [Hc Hne].
    apply negb_true_iff, String.eqb_neq in Hne. apply Hne.
    rewrite <- Hn0 in E |- *.
    now rewrite (NoDup_map_eq (fun c => toLowerCase (name c)) _ c c0 Hnd Hc Hc0 E). }
  unfold categoryService.getNames.
  rewrite getAll_add_fresh by assumption.
  rewrite map_app, Hget. simpl. f_equal.
  apply (map_filter_name (fun n => negb (String.eqb n categoryName))).
Qed.

(** X10.  The check the category dialog makes before calling [add] never
    changes what is stored: the dialog leaves the store exactly as a plain
    [add] of the trimmed name would (and untouched for a blank name).  When
    it reports the name as added, the list it shows, read without user id,
    contains the name. *)
Theorem X10_dialog_check_agrees_with_add trim now newCategory phone w :
  (forall s, toLowerCase s = toLowerCase "" -> s = "") ->
  ReadsSession w phone ->
  let result :=
    StorageRest.CategorizeTransactionDialog.handleAddCategory
      toLowerCase trim now newCategory phone w in
  snd result
  = (if String.eqb (trim newCategory) "" then w
     else categoryService.add toLowerCase now (trim newCategory)
            (StorageRest.pageUserId phone) w) /\
  (fst result = StorageRest.CategorizeTransactionDialog.AlreadyExists ->
   snd result = w) /\
  (forall shown,
     w <> None ->
     fst result = StorageRest.CategorizeTransactionDialog.Added shown ->
     In (trim newCategory) shown).
Proof.
  intros Hlow Hread result. subst result.
  unfold StorageRest.CategorizeTransactionDialog.handleAddCategory.
  destruct (String.eqb (trim newCategory) "") eqn:Eblank.
  { simpl. split; [reflexivity |]. split; [reflexivity | discriminate]. }
  apply String.eqb_neq in Eblank.
  destruct w as [ls|];
    [| simpl; split; [reflexivity |]; split; [discriminate |];
       intros shown Hw; now contradiction Hw].
  destruct (StorageRest.foundName toLowerCase (trim newCategory) _) eqn:Ef.
  - cbn [fst snd]. split; [| split; [reflexivity | discriminate]].
    symmetry. apply add_existing. now apply foundName_stored.
  - cbn [fst snd]. split; [reflexivity |]. split; [discriminate |].
    intros shown _ [= <-].
    change (In (trim newCategory)
              (categoryService.getNames
                 (categoryService.add toLowerCase now (trim newCategory)
                    (StorageRest.pageUserId phone) (Some ls)) None)).
    assert (Ekey : getUserKey ls STORAGE_KEYS.CATEGORIES None
                   = getUserKey ls STORAGE_KEYS.CATEGORIES
                       (StorageRest.pageUserId phone)).
    { destruct phone as [p|]; simpl in Hread.
      - unfold StorageRest.authService.getSession in Hread.
        destruct (auth_session ls) as [[|[q|]| |]|] eqn:Es; try discriminate.
        injection Hread as ->. symmetry.
        now apply getUserKey_of_session_phone.
      - reflexivity. }
    destruct (add_frame toLowerCase now (trim newCategory)
                (StorageRest.pageUserId phone) ls) as (ls' & Eadd & Hs & _).
    assert (Eread : categoryService.getNames (Some ls') None
                    = categoryService.getNames (Some ls')
                        (StorageRest.pageUserId phone)).
    { unfold categoryService.getNames, categoryService.getAll.
      rewrite !(getUserKey_session ls ls') by assumption. now rewrite Ekey. }
    rewrite Eadd, Eread, <- Eadd.
    destruct (getAll_add toLowerCase now (trim newCategory)
                (StorageRest.pageUserId phone) ls)
      as [[(c & Hc & Elow) E] | [_ E]]; cbv zeta in E;
      unfold categoryService.getNames; rewrite E.
    + exfalso. unfold StorageRest.foundName in Ef.
      destruct (List.find _ _) as [found|] eqn:F.
      * apply negb_false_iff, String.eqb_eq in Ef. subst found.
        apply find_some in F as [_ F]. apply String.eqb_eq in F.
        apply Eblank, Hlow. now rewrite F.
      * assert (Hn : In (name c)
                        (categoryService.getNames (Some ls)
                           (StorageRest.pageUserId phone)))
          by (unfold categoryService.getNames; now apply in_map).
        apply (find_none _ _ F) in Hn.
        rewrite Elow, String.eqb_refl in Hn. discriminate.
    + rewrite map_app. apply in_or_app. right. now left.
Qed.

End CategoryExtras.

Section SimulatorExtras.
Import LocalStorageService StorageSpec StorageFacts StorageRestSpec KeyFacts.
Import TransactionRestFacts CategoryRestFacts.

Variable toLowerCase : string -> string.

Lemma categories_after_save t userId userId' w :
  categoryService.getAll (transactionService.save t userId w) userId'
  = categoryService.getAll w userId'.
Proof.
  destruct w as [ls|]; [| reflexivity].
  unfold transactionService.save, categoryService.getAll. simpl.
  now rewrite (getUserKey_session ls) by reflexivity.
Qed.

(** X11.  A transaction saved by the notification simulator is appended to
    the user's transactions, and its category is afterwards a registered
    category of the user, up to case: the simulator registers the category
    first when no stored name equals it ignoring case. *)
Theorem X11_saved_transaction_has_a_registered_category
    newId nowCategory nowTransaction amount0 receiver category0 phone ls :
  let userId := StorageRest.pageUserId phone in
  let w' :=
    StorageRest.NotificationSimulator.saveTransaction toLowerCase
      newId nowCategory nowTransaction amount0 receiver category0 phone (Some ls) in
  transactionService.getAll w' userId
  = transactionService.getAll (Some ls) userId ++
    [ {| id := newId; description := "Payment to " +:+ receiver;
         amount := amount0; category := category0; date := nowTransaction;
         recipient := Some receiver; type := Some debit |} ] /\
  exists stored,
    In stored (categoryService.getNames w' userId) /\
    toLowerCase stored = toLowerCase category0.
Proof.
  intros userId w'. subst w'.
  unfold StorageRest.NotificationSimulator.saveTransaction. fold userId.
  set (t := {| id := newId; description := _ |}).
  destruct (StorageRest.foundName toLowerCase category0 _) eqn:Ef; cbn [negb].
  - split; [apply getAll_save |].
    apply foundName_stored in Ef as (c & Hc & E).
    exists (name c). split; [| exact E].
    unfold categoryService.getNames. rewrite categories_after_save.
    now apply in_map.
  - destruct (add_frame toLowerCase nowCategory category0 userId ls)
      as (ls1 & Eadd & _).
    split.
    + rewrite Eadd, getAll_save, <- Eadd. now rewrite transactions_after_add.
    + unfold categoryService.getNames. rewrite categories_after_save.
      destruct (getAll_add toLowerCase nowCategory category0 userId ls)
        as [[(c & Hc & E) El] | [_ El]]; cbv zeta in El; rewrite El.
      * exists (name c). split; [now apply in_map | exact E].
      * exists category0. split; [| reflexivity].
        rewrite map_app. apply in_or_app. right. now left.
Qed.

(** X12.  [initializeData] only fills what is empty, and a second run
    changes nothing: a user's transactions, when there are some, and
    categories, when there are some, are left as they are; and after one
    run with a non-empty simulated list, another run, whatever it would
    generate, returns the store unchanged. *)
Theorem X12_initializeData_fills_once simulated now userId ls :
  let w1 := StorageRest.initializeData toLowerCase simulated now userId (Some ls) in
  (transactionService.getAll (Some ls) userId <> [] ->
   transactionService.getAll w1 userId = transactionService.getAll (Some ls) userId) /\
  (categoryService.getAll (Some ls) userId <> [] ->
   categoryService.getAll w1 userId = categoryService.getAll (Some ls) userId) /\
  (simulated <> [] ->
   forall simulated' now',
     StorageRest.initializeData toLowerCase simulated' now' userId w1 = w1).
Proof.
  intros w1.
  assert (Hlen : forall A (l : list A), (length l =? 0)%nat = true <-> l = []).
  { intros A l. rewrite Nat.eqb_eq. destruct l; simpl; split; congruence. }
  assert (Hlen' : forall A (l : list A), l <> [] -> (length l =? 0)%nat = false).
  { intros A l H. destruct (length l =? 0)%nat eqn:E; [| reflexivity].
    apply Hlen in E. contradiction. }
  (* the store after the transaction step *)
  set (wt := if (length (transactionService.getAll (Some ls) userId) =? 0)%nat
             then StorageRest.transactionService.saveMany simulated userId (Some ls)
             else Some ls).
  assert (Ewt : exists lst, wt = Some lst /\ auth_session lst = auth_session ls /\
                            categories lst = categories ls).
  { subst wt. destruct (_ =? _)%nat; simpl; eauto. }
  destruct Ewt as (lst & Ewt & Hst & Hct).
  assert (Ecat : categoryService.getAll wt userId
                 = categoryService.getAll (Some ls) userId).
  { rewrite Ewt. unfold categoryService.getAll.
    now rewrite Hct, (getUserKey_session ls lst). }
  assert (Ew1 : w1 = if (length (categoryService.getAll wt userId) =? 0)%nat
                     then StorageRest.addEach toLowerCase now 0
                            StorageRest.defaultCategories userId wt
                     else wt) by reflexivity.
  assert (Etx : transactionService.getAll w1 userId
                = transactionService.getAll wt userId).
  { rewrite Ew1.
    destruct (length (categoryService.getAll wt userId) =? 0)%nat; [| reflexivity].
    rewrite Ewt.
    destruct (addEach_frame toLowerCase now StorageRest.defaultCategories
                userId 0 lst) as (ls' & -> & Hs' & Ht').
    unfold transactionService.getAll.
    now rewrite Ht', (getUserKey_session lst ls'). }
  split; [| split].
  - intros Hne. rewrite Etx. subst wt. now rewrite (Hlen' _ _ Hne).
  - intros Hne. rewrite Ew1, Ecat, (Hlen' _ _ Hne). exact Ecat.
  - intros Hsim simulated' now'.
    assert (Htx1 : transactionService.getAll w1 userId <> []).
    { rewrite Etx. subst wt.
      destruct (length (transactionService.getAll (Some ls) userId) =? 0)%nat eqn:E.
      - unfold StorageRest.transactionService.saveMany.
        rewrite getAll_written, decide_True by reflexivity. exact Hsim.
      - intros E0. rewrite E0 in E. discriminate. }
    assert (Hcat1 : categoryService.getAll w1 userId <> []).
    { rewrite Ew1.
      destruct (length (categoryService.getAll wt userId) =? 0)%nat eqn:E.
      - rewrite Ewt. apply addEach_not_empty. right. discriminate.
      - intros E0. rewrite E0 in E. discriminate. }
    destruct w1 as [ls1|] eqn:E1.
    + unfold StorageRest.initializeData.
      rewrite (Hlen' _ _ Htx1). now rewrite (Hlen' _ _ Hcat1).
    + exfalso. now apply Htx1.
Qed.

(** X13.  On a user without categories [initializeData] registers the nine
    default categories, in their order, provided lower-casing keeps them
    apart. *)
Theorem X13_initializeData_registers_defaults simulated now userId ls :
  NoDup (List.map toLowerCase StorageRest.defaultCategories) ->
  categoryService.getAll (Some ls) userId = [] ->
  categoryService.getNames
    (StorageRest.initializeData toLowerCase simulated now userId (Some ls)) userId
  = StorageRest.defaultCategories.
Proof.
  intros Hnd Hempty. unfold StorageRest.initializeData.
  set (wt := if (length (transactionService.getAll (Some ls) userId) =? 0)%nat
             then StorageRest.transactionService.saveMany simulated userId (Some ls)
             else Some ls).
  assert (Ewt : exists lst, wt = Some lst /\ auth_session lst = auth_session ls /\
                            categories lst = categories ls).
  { subst wt. destruct (_ =? _)%nat; simpl; eauto. }
  destruct Ewt as (lst & Ewt & Hst & Hct).
  assert (Ecat : categoryService.getAll (Some lst) userId = []).
  { rewrite <- Hempty. unfold categoryService.getAll.
    now rewrite Hct, (getUserKey_session ls lst). }
  rewrite Ewt, Ecat. cbn [length Nat.eqb].
  rewrite addEach_names.
  - unfold categoryService.getNames. now rewrite Ecat.
  - unfold categoryService.getNames. rewrite Ecat. exact Hnd.
Qed.

End SimulatorExtras.

(** ** The PIN, profile and session services and the pages that use them *)

Module BrowserFacts.
Import LocalStorageService BrowserServices KeyFacts.

Lemma append_inj base s1 s2 : base +:+ s1 = base +:+ s2 -> s1 = s2.
Proof.
  induction base as [|c base IH]; intros H; [exact H |].
  apply IH.
  change (String c (base +:+ s1) = String c (base +:+ s2)) in H.
  now injection H.
Qed.

Lemma append_not_base base c s : base +:+ String c s <> base.
Proof.
  intros H. rewrite <- (append_empty base) in H at 2.
  apply append_inj in H. discriminate.
Qed.

Lemma truthy_Some u : truthy (Some u) = true <-> u <> "".
Proof.
  unfold truthy. destruct (String.eqb_spec u ""); simpl; split; congruence.
Qed.

(** The PIN key of a non-empty user id belongs to no other user id. *)
Lemma pinKey_inj u userId :
  truthy (Some u) = true -> pinService.key userId = pinService.key (Some u) ->
  userId = Some u.
Proof.
  intros Hu. unfold pinService.key. rewrite Hu.
  destruct userId as [u'|].
  - destruct (truthy (Some u')).
    + intros H. now apply append_inj, append_inj in H as ->.
    + intros H. symmetry in H. now apply append_not_base in H.
  - intros H. symmetry in H. now apply append_not_base in H.
Qed.

(** The key of a non-empty user id is the key of no other non-empty user
    id. *)
Lemma getUserKey_inj ls ls' baseKey u u' :
  truthy (Some u) = true -> truthy (Some u') = true ->
  getUserKey ls baseKey (Some u) = getUserKey ls' baseKey (Some u') -> u = u'.
Proof.
  intros Hu Hu'. unfold getUserKey. rewrite Hu, Hu'.
  intros H. now apply append_inj, append_inj in H.
Qed.

End BrowserFacts.

Section PinExtras.
Import LocalStorageService BrowserServices BrowserSpec KeyFacts BrowserFacts.

(** X14.  A saved PIN is the one read back and the only one that
    verifies.  [exists] reports it unless it is the empty string: an empty
    PIN verifies although [exists] says there is none. *)
Theorem X14_pin_round_trip pin userId b :
  let p := pinService.save pin userId (Some b) in
  pinService.get userId p = Some pin /\
  (forall entered, pinService.verify entered userId p = true <-> entered = pin) /\
  (pinService.exists_ userId p = true <-> pin <> "").
Proof.
  cbn. rewrite lookup_insert_eq. split; [reflexivity | split].
  - intros entered. rewrite bool_decide_eq_true. split; congruence.
  - apply truthy_Some.
Qed.

(** X15.  PINs are kept per user: saving or removing the PIN of a user
    with a non-empty id changes what no other user id reads, and after
    [remove] the user has no PIN and no entry verifies. *)
Theorem X15_pins_are_per_user pin u other p :
  truthy (Some u) = true ->
  other <> Some u ->
  (pinService.get other (pinService.save pin (Some u) p) = pinService.get other p /\
   pinService.get other (pinService.remove (Some u) p) = pinService.get other p) /\
  (pinService.get (Some u) (pinService.remove (Some u) p) = None /\
   pinService.exists_ (Some u) (pinService.remove (Some u) p) = false /\
   forall entered,
     pinService.verify entered (Some u) (pinService.remove (Some u) p) = false).
Proof.
  intros Hu Hother.
  assert (Hk : pinService.key (Some u) <> pinService.key other).
  { intros E. symmetry in E. now apply pinKey_inj in E. }
  destruct p as [b|]; cbn; [| repeat split; reflexivity].
  rewrite lookup_insert_ne, lookup_delete_ne, lookup_delete_eq by exact Hk.
  repeat split.
Qed.

End PinExtras.

Section ProfileExtras.
Import LocalStorageService BrowserServices BrowserSpec KeyFacts BrowserFacts.

Ltac profile_step :=
  unfold userService.getProfile, userService.saveProfile, stamped;
  cbn [local profiles]; change (truthy None) with false; cbv iota.

(** X16.  A saved profile is read back with its new time stamp: under the
    user id it was saved with when that is not empty, and, when the setup
    page saves the profile of the logged-in phone without a user id, both
    under the user id the landing page computes from the session and
    without a user id. *)
Theorem X16_profile_round_trip now profile b :
  (forall u,
     truthy (Some u) = true ->
     userService.getProfile (Some u)
       (userService.saveProfile now profile (Some u) (Some b))
     = Some (stamped now profile)) /\
  (authService.getSession (Some b)
   = StorageRest.authService.SessionOf (UserProfile.phone profile) ->
   let p := userService.saveProfile now profile None (Some b) in
   userService.getProfile (Some (removePlus (UserProfile.phone profile))) p
   = Some (stamped now profile) /\
   userService.getProfile None p = Some (stamped now profile)).
Proof.
  split.
  - intros u Hu. profile_step. rewrite Hu. now rewrite lookup_insert_eq.
  - intros Hs.
    assert (E : auth_session (local b)
                = Some (SessionParsed (Some (UserProfile.phone profile)))).
    { unfold authService.getSession in Hs. cbn in Hs.
      destruct (auth_session (local b)) as [[|[ph|]| |]|]; try discriminate.
      now injection Hs as ->. }
    profile_step. split; [now rewrite lookup_insert_eq |].
    rewrite <- (getUserKey_of_session_phone (local b) _ _ E).
    now rewrite lookup_insert_eq.
Qed.

(** X17.  Without a session, a profile saved without a user id is stored
    under its own phone and not under the global key: reading without a
    user id afterwards gives what was there before, not the saved
    profile. *)
Theorem X17_profile_saved_under_phone_not_read_globally now profile b :
  auth_session (local b) = None ->
  removePlus (UserProfile.phone profile) <> "" ->
  let p := userService.saveProfile now profile None (Some b) in
  userService.getProfile None p = userService.getProfile None (Some b) /\
  userService.getProfile (Some (removePlus (UserProfile.phone profile))) p
  = Some (stamped now profile).
Proof.
  intros Hs Hne. apply truthy_Some in Hne.
  profile_step. unfold getUserKey, sessionKey.
  rewrite Hs, Hne. split; [| now rewrite lookup_insert_eq].
  apply lookup_insert_ne. apply append_not_base.
Qed.

(** X18.  [updateProfile] for a non-empty user id: without a stored profile
    nothing is written; with one, the stored profile becomes the old one
    overridden by the updates: every field the update carries has the
    update's value, every other field the value it had, and the time stamp
    is the new one whatever the update carries for it.  The profiles of the
    other non-empty user ids stay as they are. *)
Theorem X18_updateProfile_merges now updates u b :
  truthy (Some u) = true ->
  let p := userService.updateProfile now updates (Some u) (Some b) in
  match userService.getProfile (Some u) (Some b) with
  | None => p = Some b
  | Some current =>
      exists updated,
        userService.getProfile (Some u) p = Some updated /\
        UpdatedProfile now current updates updated
  end /\
  forall u', truthy (Some u') = true -> u' <> u ->
    userService.getProfile (Some u') p = userService.getProfile (Some u') (Some b).
Proof.
  intros Hu p. subst p. unfold userService.updateProfile.
  destruct (userService.getProfile (Some u) (Some b)) as [current|] eqn:E.
  - split.
    + exists (stamped now (spreadProfile current updates)). split.
      * profile_step. rewrite Hu. now rewrite lookup_insert_eq.
      * unfold UpdatedProfile, StorageSpec.Overrides, stamped, spreadProfile.
        destruct updates as [[ph|] [n|] [f|] [g|] [e|] [c|] [up|]];
          cbn; repeat split.
    + intros u' Hu' Hne. profile_step. rewrite Hu.
      apply lookup_insert_ne. intros K.
      apply (getUserKey_inj (local b) (local b)) in K; congruence.
  - split; [reflexivity | intros; reflexivity].
Qed.

End ProfileExtras.

Module SessionFacts.
Import LocalStorageService BrowserServices BrowserSpec KeyFacts BrowserFacts.

Lemma getSession_SessionOf b phone :
  authService.getSession (Some b) = StorageRest.authService.SessionOf phone <->
  auth_session (local b) = Some (SessionParsed (Some phone)).
Proof.
  unfold authService.getSession, StorageRest.authService.getSession, window.
  cbn [fmap option_fmap option_map].
  destruct (auth_session (local b)) as [[|[ph|]| |]|];
    split; intros H; try discriminate; congruence.
Qed.

(** What the landing page decides with a session of [phone]. *)
Lemma checkAuthFlow_session b phone :
  auth_session (local b) = Some (SessionParsed (Some phone)) ->
  Home.checkAuthFlow b =
  if negb (bool_decide (onboarding b = Some "true")) then Some Onboarding
  else
    match profiles b !! getUserKey (local b) STORAGE_KEYS.USER_PROFILE
                          (Some (removePlus phone)) with
    | None => Some Setup
    | Some profile =>
        if negb (truthy (UserProfile.fullName profile)) then Some Setup
        else if truthy (pins b !! pinService.key (Some (removePlus phone))) &&
                negb (truthy (sessionStorage b !! unlockKey (removePlus phone)))
        then Some Unlock
        else Some Dashboard
    end.
Proof.
  intros H. apply getSession_SessionOf in H.
  unfold Home.checkAuthFlow. rewrite H. reflexivity.
Qed.

(** The landing page sends a browser to the dashboard or to the unlock
    page only with onboarding done and a complete profile. *)
Lemma checkAuthFlow_inside b phone :
  auth_session (local b) = Some (SessionParsed (Some phone)) ->
  Home.checkAuthFlow b = Some Dashboard \/ Home.checkAuthFlow b = Some Unlock ->
  forall b',
    local b' = local b -> profiles b' = profiles b -> onboarding b' = onboarding b ->
    Home.checkAuthFlow b' =
    if truthy (pins b' !! pinService.key (Some (removePlus phone))) &&
       negb (truthy (sessionStorage b' !! unlockKey (removePlus phone)))
    then Some Unlock
    else Some Dashboard.
Proof.
  intros H Hr b' El Ep Eo.
  rewrite (checkAuthFlow_session b' phone) by now rewrite El.
  rewrite (checkAuthFlow_session b phone H) in Hr.
  rewrite El, Ep, Eo.
  destruct (negb (bool_decide (onboarding b = Some "true")));
    [destruct Hr; discriminate |].
  destruct (profiles b !! _) as [profile|]; [| destruct Hr; discriminate].
  destruct (negb (truthy (UserProfile.fullName profile)));
    [destruct Hr; discriminate | reflexivity].
Qed.

Lemma local_eta ls phone :
  auth_session ls = Some (SessionParsed (Some phone)) ->
  {| auth_session := Some (SessionParsed (Some phone));
     transactions := transactions ls;
     categories := categories ls |} = ls.
Proof. destruct ls; simpl; now intros ->. Qed.

(** Logging out of a session written by [saveSession] and logging in
    again. *)
Lemma logout_login b phone :
  auth_session (local b) = Some (SessionParsed (Some phone)) ->
  exists b1 b2,
    Sidebar.handleLogout b = Some (Some b1) /\
    auth_session (local b1) = None /\
    authService.saveSession phone (Some b1) = Some b2 /\
    local b2 = local b /\ profiles b2 = profiles b /\ pins b2 = pins b /\
    onboarding b2 = onboarding b /\
    sessionStorage b2
    = base.delete (unlockKey (removePlus phone)) (sessionStorage b).
Proof.
  intros H. pose proof (proj2 (getSession_SessionOf b phone) H) as Hs.
  unfold Sidebar.handleLogout. rewrite Hs.
  unfold authService.clearSession.
  set (b0 := {| local := local b; profiles := profiles b; pins := pins b;
                onboarding := onboarding b; sessionStorage := _ |}).
  assert (Hs0 : authService.getSession (Some b0)
                = StorageRest.authService.SessionOf phone)
    by now apply getSession_SessionOf.
  rewrite Hs0. eexists _, _. split; [reflexivity |].
  split; [reflexivity |]. split; [reflexivity |].
  cbn [local profiles pins onboarding sessionStorage transactions categories b0].
  rewrite (local_eta (local b) phone H), delete_delete_eq. repeat split.
Qed.

(** Without a user id the services address the item of the session's
    phone. *)
Lemma sessionKey_of_phone ls baseKey phone :
  auth_session ls = Some (SessionParsed (Some phone)) ->
  removePlus phone <> "" ->
  getUserKey ls baseKey None = baseKey +:+ "_" +:+ removePlus phone.
Proof.
  intros H Hne. apply truthy_Some in Hne.
  unfold getUserKey, sessionKey, orElse. rewrite H.
  cbn [fmap option_fmap option_map]. now rewrite Hne.
Qed.

End SessionFacts.

Section SessionExtras.
Import LocalStorageService BrowserServices BrowserSpec KeyFacts BrowserFacts.
Import SessionFacts.

(** X19.  Logging out and in again with the same phone changes nothing in
    [localStorage] and drops the unlock flag of the user: every list,
    profile and PIN is as before, and a browser that was on the dashboard
    or the unlock page is, after it, sent to the unlock page when the user
    has a PIN and to the dashboard otherwise. *)
Theorem X19_logout_then_login_relocks b phone :
  authService.getSession (Some b) = StorageRest.authService.SessionOf phone ->
  exists b1 b2,
    Sidebar.handleLogout b = Some (Some b1) /\
    authService.getSession (Some b1) = StorageRest.authService.NoSession /\
    authService.saveSession phone (Some b1) = Some b2 /\
    sameLocalStorage b2 b /\
    sessionStorage b2
    = base.delete (unlockKey (removePlus phone)) (sessionStorage b) /\
    (Home.checkAuthFlow b = Some Dashboard \/ Home.checkAuthFlow b = Some Unlock ->
     Home.checkAuthFlow b2 =
     if pinService.exists_ (Some (removePlus phone)) (Some b)
     then Some Unlock else Some Dashboard).
Proof.
  intros Hs. apply getSession_SessionOf in Hs.
  destruct (logout_login b phone Hs)
    as (b1 & b2 & Hout & Hnone & Hin & El & Ep & Epin & Eo & Ess).
  exists b1, b2. split; [exact Hout |]. split.
  { unfold authService.getSession, StorageRest.authService.getSession, window.
    cbn [fmap option_fmap option_map]. now rewrite Hnone. }
  split; [exact Hin |]. split; [now repeat split |]. split; [exact Ess |].
  intros Hr. rewrite (checkAuthFlow_inside b phone Hs Hr b2 El Ep Eo).
  rewrite Epin, Ess, lookup_delete_eq. cbn [truthy negb pinService.exists_].
  now rewrite andb_true_r.
Qed.

(** X20.  The lists are kept per phone: what one user saves while logged
    in is not in the lists another user sees after logging in, and is there
    again when the first user logs in again. *)
Theorem X20_lists_are_per_user toLowerCase t now categoryName phoneA phoneB w :
  removePlus phoneA <> "" ->
  removePlus phoneB <> "" ->
  removePlus phoneA <> removePlus phoneB ->
  let wA := StorageRest.authService.saveSession phoneA w in
  let wA' :=
    categoryService.add toLowerCase now categoryName None
      (transactionService.save t None wA) in
  let wB := StorageRest.authService.saveSession phoneB wA' in
  (transactionService.getAll wB None
   = transactionService.getAll (StorageRest.authService.saveSession phoneB w) None /\
   categoryService.getAll wB None
   = categoryService.getAll (StorageRest.authService.saveSession phoneB w) None) /\
  (transactionService.getAll (StorageRest.authService.saveSession phoneA wB) None
   = transactionService.getAll wA' None /\
   categoryService.getAll (StorageRest.authService.saveSession phoneA wB) None
   = categoryService.getAll wA' None).
Proof.
  intros HA HB Hne wA wA' wB.
  destruct w as [ls|]; [| repeat split].
  assert (Kne : forall baseKey,
            baseKey +:+ "_" +:+ removePlus phoneA
            <> baseKey +:+ "_" +:+ removePlus phoneB).
  { intros baseKey K. now apply append_inj, append_inj in K. }
  set (lsA := {| auth_session := Some (SessionParsed (Some phoneA));
                 transactions := transactions ls; categories := categories ls |}).
  set (lsT := {| auth_session := auth_session lsA;
                 transactions :=
                   <[getUserKey lsA STORAGE_KEYS.TRANSACTIONS None :=
                       transactionService.getAll (Some lsA) None ++ [t]]>
                     (transactions lsA);
                 categories := categories lsA |}).
  assert (ET : transactionService.save t None wA = Some lsT) by reflexivity.
  destruct (CategoryRestFacts.add_frame toLowerCase now categoryName None lsT)
    as (ls' & Eadd & Hs' & Ht').
  assert (EA' : wA' = Some ls') by (subst wA'; now rewrite ET).
  assert (Hc' : forall k, k <> getUserKey lsT STORAGE_KEYS.CATEGORIES None ->
                  categories ls' !! k = categories ls !! k).
  { intros k Hk.
    destruct (StorageFacts.add_decide toLowerCase categoryName None lsT)
      as [Hex | Hfr].
    - rewrite (StorageFacts.add_existing toLowerCase now _ _ _ Hex) in Eadd.
      injection Eadd as <-. reflexivity.
    - rewrite (StorageFacts.add_fresh toLowerCase now _ _ _ Hfr) in Eadd.
      injection Eadd as <-. cbn [categories].
      now rewrite lookup_insert_ne by (intros E; now apply Hk). }
  assert (KA : forall ls0 baseKey,
            auth_session ls0 = Some (SessionParsed (Some phoneA)) ->
            getUserKey ls0 baseKey None = baseKey +:+ "_" +:+ removePlus phoneA).
  { intros ls0 baseKey E. now apply sessionKey_of_phone. }
  assert (KB : forall ls0 baseKey,
            auth_session ls0 = Some (SessionParsed (Some phoneB)) ->
            getUserKey ls0 baseKey None = baseKey +:+ "_" +:+ removePlus phoneB).
  { intros ls0 baseKey E. now apply sessionKey_of_phone. }
  subst wB. rewrite EA'. cbn [StorageRest.authService.saveSession].
  unfold transactionService.getAll, categoryService.getAll.
  rewrite !KB by reflexivity. rewrite !KA by (reflexivity || exact Hs').
  cbn [transactions categories].
  split; split; try reflexivity.
  - rewrite Ht'. cbn [transactions lsT lsA]. rewrite KA by reflexivity.
    now rewrite lookup_insert_ne by apply Kne.
  - rewrite Hc'; [reflexivity |].
    rewrite KA by reflexivity. intros K. symmetry in K. now apply Kne in K.
Qed.

End SessionExtras.

Section UnlockExtras.
Import LocalStorageService BrowserServices BrowserSpec KeyFacts BrowserFacts.
Import SessionFacts.

(** X21.  The unlock page opens the dashboard for the stored PIN only: for
    a browser the landing page sends to the unlock page, entering a PIN
    leaves the browser as it is unless the PIN verifies, and the landing
    page afterwards opens the dashboard exactly when the entered PIN is the
    stored one. *)
Theorem X21_unlock_needs_the_pin b phone entered :
  authService.getSession (Some b) = StorageRest.authService.SessionOf phone ->
  removePlus phone <> "" ->
  Home.checkAuthFlow b = Some Unlock ->
  let userId := Some (removePlus phone) in
  let b' := UnlockPage.handlePinComplete entered userId b in
  (pinService.get userId (Some b) <> Some entered -> b' = b) /\
  (Home.checkAuthFlow b' = Some Dashboard <->
   pinService.get userId (Some b) = Some entered) /\
  (Home.checkAuthFlow b' = Some Unlock <->
   pinService.get userId (Some b) <> Some entered).
Proof.
  intros Hs Hne Hr userId b'. apply getSession_SessionOf in Hs.
  set (u := removePlus phone) in *. subst userId.
  apply truthy_Some in Hne.
  assert (Hb' : b' = if bool_decide (pins b !! pinService.key (Some u) = Some entered)
                     then {| local := local b; profiles := profiles b;
                             pins := pins b; onboarding := onboarding b;
                             sessionStorage :=
                               <[unlockKey u := "true"]>
                                 (sessionStorage b) |}
                     else b).
  { subst b'. unfold UnlockPage.handlePinComplete. now rewrite Hne. }
  assert (Hflow : Home.checkAuthFlow b' =
                  if truthy (pins b' !! pinService.key (Some u)) &&
                     negb (truthy (sessionStorage b' !! unlockKey u))
                  then Some Unlock else Some Dashboard).
  { apply (checkAuthFlow_inside b phone Hs (or_intror Hr));
      rewrite Hb'; now destruct (bool_decide _). }
  assert (Hlocked : truthy (pins b !! pinService.key (Some u)) &&
                    negb (truthy (sessionStorage b !! unlockKey u))
                    = true).
  { pose proof (checkAuthFlow_inside b phone Hs (or_intror Hr) b eq_refl eq_refl eq_refl)
      as E. rewrite Hr in E.
    match type of E with
    | _ = (if ?c then _ else _) => destruct c eqn:K; [| discriminate]
    end.
    first [reflexivity | exact K]. }
  cbn [pinService.get]. rewrite Hflow, Hb'.
  destruct (bool_decide_reflect (pins b !! pinService.key (Some u) = Some entered))
    as [E | E].
  - cbn [pins sessionStorage]. rewrite lookup_insert_eq. cbn [truthy String.eqb negb].
    rewrite andb_false_r. split; [intros K; contradiction |].
    split; split; intros K; try reflexivity; try exact E; try discriminate.
    contradiction.
  - rewrite Hlocked. split; [reflexivity |].
    split; split; intros K; try reflexivity; try exact E; try discriminate.
    contradiction.
Qed.

(** X22.  A PIN set on the PIN setup page is asked for at the next login:
    the browser stays on the dashboard for the running session; after
    logging out and in again with the same phone the landing page sends it
    to the unlock page, and from there the dashboard opens for the PIN that
    was set and for no other entry. *)
Theorem X22_pin_set_up_is_asked_after_login b phone pin :
  authService.getSession (Some b) = StorageRest.authService.SessionOf phone ->
  removePlus phone <> "" ->
  pin <> "" ->
  Home.checkAuthFlow b = Some Dashboard ->
  exists b1 b2 b3,
    PinSetupPage.handlePinComplete pin (Some phone) b = Some b1 /\
    Home.checkAuthFlow b1 = Some Dashboard /\
    Sidebar.handleLogout b1 = Some (Some b2) /\
    authService.saveSession phone (Some b2) = Some b3 /\
    Home.checkAuthFlow b3 = Some Unlock /\
    forall entered,
      Home.checkAuthFlow
        (UnlockPage.handlePinComplete entered (Some (removePlus phone)) b3)
      = if String.eqb entered pin then Some Dashboard else Some Unlock.
Proof.
  intros Hs Hne Hpin Hr. apply getSession_SessionOf in Hs.
  pose proof Hne as Hu. apply truthy_Some in Hu.
  apply truthy_Some in Hpin.
  assert (Eid : orElse (removePlus <$> Some phone) "default" = removePlus phone).
  { unfold orElse. cbn [fmap option_fmap option_map]. now rewrite Hu. }
  set (b1 := {| local := local b; profiles := profiles b;
                pins := <[pinService.key (Some (removePlus phone)) := pin]> (pins b);
                onboarding := onboarding b;
                sessionStorage :=
                  <[unlockKey (removePlus phone) := "true"]> (sessionStorage b) |}).
  assert (E1 : PinSetupPage.handlePinComplete pin (Some phone) b = Some b1).
  { unfold PinSetupPage.handlePinComplete. rewrite Eid. reflexivity. }
  assert (Hs1 : auth_session (local b1) = Some (SessionParsed (Some phone)))
    by exact Hs.
  destruct (logout_login b1 phone Hs1)
    as (b2 & b3 & Hout & _ & Hin & El & Ep & Epin & Eo & Ess).
  assert (Hs3 : auth_session (local b3) = Some (SessionParsed (Some phone)))
    by now rewrite El.
  assert (Hflow : forall b',
            local b' = local b -> profiles b' = profiles b ->
            onboarding b' = onboarding b ->
            Home.checkAuthFlow b' =
            if truthy (pins b' !! pinService.key (Some (removePlus phone))) &&
               negb (truthy (sessionStorage b' !! unlockKey (removePlus phone)))
            then Some Unlock else Some Dashboard).
  { apply (checkAuthFlow_inside b phone Hs). now left. }
  assert (H3 : Home.checkAuthFlow b3 = Some Unlock).
  { rewrite Hflow by (rewrite ?El, ?Ep, ?Eo; reflexivity).
    rewrite Epin, Ess. cbn [pins b1].
    rewrite lookup_insert_eq, lookup_delete_eq, Hpin. reflexivity. }
  exists b1, b2, b3. split; [exact E1 |]. split.
  { rewrite Hflow by reflexivity. cbn [pins sessionStorage b1].
    rewrite !lookup_insert_eq, Hpin. reflexivity. }
  split; [exact Hout |]. split; [exact Hin |]. split; [exact H3 |].
  intros entered. unfold UnlockPage.handlePinComplete. rewrite Hu.
  cbn [pinService.verify]. rewrite Epin. cbn [pins b1]. rewrite lookup_insert_eq.
  destruct (String.eqb_spec entered pin) as [-> | Hd].
  - rewrite bool_decide_eq_true_2 by reflexivity.
    rewrite Hflow by (cbn [local profiles onboarding]; rewrite ?El, ?Ep, ?Eo; reflexivity).
    cbn [pins sessionStorage]. rewrite ?Epin. cbn [pins b1].
    rewrite !lookup_insert_eq. cbn [truthy String.eqb negb].
    now rewrite andb_false_r.
  - rewrite bool_decide_eq_false_2 by congruence. exact H3.
Qed.

(** X23.  When the phone of the session has no character but plus signs,
    the PIN setup page stores the PIN under the user id [default], where
    the landing page never looks: with no PIN under the global key, the
    landing page opens the dashboard whatever [sessionStorage] holds, and
    the PIN that was set is never asked for. *)
Theorem X23_pin_without_user_id_is_not_enforced b phone pin :
  authService.getSession (Some b) = StorageRest.authService.SessionOf phone ->
  removePlus phone = "" ->
  pinService.exists_ None (Some b) = false ->
  Home.checkAuthFlow b = Some Dashboard ->
  exists b1,
    PinSetupPage.handlePinComplete pin (Some phone) b = Some b1 /\
    pinService.get (Some "default") (Some b1) = Some pin /\
    forall b', sameLocalStorage b' b1 -> Home.checkAuthFlow b' = Some Dashboard.
Proof.
  intros Hs He Hnone Hr. apply getSession_SessionOf in Hs.
  assert (Eid : orElse (removePlus <$> Some phone) "default" = "default").
  { unfold orElse. cbn [fmap option_fmap option_map]. now rewrite He. }
  unfold PinSetupPage.handlePinComplete. rewrite Eid.
  eexists. split; [reflexivity |]. split.
  { cbn. now rewrite lookup_insert_eq. }
  intros b' (El & Ep & Epin & Eo). cbn [local profiles pins onboarding] in *.
  rewrite (checkAuthFlow_inside b phone Hs (or_introl Hr) b' El Ep Eo).
  rewrite Epin, He.
  replace (pinService.key (Some "")) with (pinService.key None) by reflexivity.
  rewrite lookup_insert_ne.
  - cbn [pinService.exists_] in Hnone. now rewrite Hnone.
  - apply append_not_base.
Qed.

End UnlockExtras.

(** ** NotificationService.kt: the listener *)

Module ListenerFacts.
Import NotificationService NotifierSpec NotificationListener NotifierRestSpec.

Section Trim.

Variable isWhitespace : Char -> bool.

Local Abbreviation trimStart := (trimStart isWhitespace).
Local Abbreviation trimEnd := (trimEnd isWhitespace).
Local Abbreviation trim := (trim isWhitespace).

(** [trimStart] drops a prefix of whitespace and stops at the first other
    character. *)
Lemma trimStart_spec s :
  exists pre,
    s = pre ++ trimStart s /\
    Forall (fun c => isWhitespace c = true) pre /\
    (trimStart s = [] \/
     exists c rest, trimStart s = c :: rest /\ isWhitespace c = false).
Proof.
  induction s as [|c s IH]; cbn [NotificationListener.trimStart].
  - exists []. repeat split; [constructor | now left].
  - destruct (isWhitespace c) eqn:E.
    + destruct IH as (pre & E1 & Hpre & Hrest).
      exists (c :: pre). split; [cbn; now rewrite <- E1 |].
      split; [now constructor | exact Hrest].
    + exists []. repeat split; [constructor |]. right. eauto.
Qed.

Lemma trimStart_keeps pre x rest :
  isWhitespace x = false ->
  exists pre', trimStart (pre ++ x :: rest) = pre' ++ x :: rest.
Proof.
  intros Hx. induction pre as [|c pre IH]; cbn [app NotificationListener.trimStart].
  - rewrite Hx. now exists [].
  - destruct (isWhitespace c); [exact IH |]. now exists (c :: pre).
Qed.

Lemma trimEnd_keeps init x post :
  isWhitespace x = false ->
  exists post', trimEnd (init ++ x :: post) = init ++ x :: post'.
Proof.
  intros Hx. unfold NotificationListener.trimEnd.
  rewrite rev_app_distr. cbn [rev]. rewrite <- app_assoc. cbn [app].
  destruct (trimStart_keeps (rev post) x (rev init) Hx) as (pre' & ->).
  exists (rev pre'). rewrite rev_app_distr. cbn [rev].
  now rewrite rev_involutive, <- app_assoc.
Qed.

(** [trimEnd] leaves nothing, or a text whose last character is no
    whitespace. *)
Lemma trimEnd_last s :
  trimEnd s = [] \/
  exists init c, trimEnd s = init ++ [c] /\ isWhitespace c = false.
Proof.
  unfold NotificationListener.trimEnd.
  destruct (trimStart_spec (rev s)) as (_ & _ & _ & [-> | (c & rest & -> & Hc)]).
  - now left.
  - right. exists (rev rest), c. split; [reflexivity | exact Hc].
Qed.

(** A trimmed text is empty, or begins and ends with characters that are
    no whitespace. *)
Lemma trim_ends s :
  trim s = [] \/
  (exists c rest, trim s = c :: rest /\ isWhitespace c = false) /\
  (exists init c, trim s = init ++ [c] /\ isWhitespace c = false).
Proof.
  unfold NotificationListener.trim.
  destruct (trimStart_spec s) as (_ & _ & _ & [-> | (c & rest & E & Hc)]).
  - now left.
  - right. rewrite E. split.
    + destruct (trimEnd_keeps [] c rest Hc) as (post' & E').
      cbn [app] in E'. rewrite E'. eauto.
    + destruct (trimEnd_last (c :: rest)) as [K | K]; [| exact K].
      destruct (trimEnd_keeps [] c rest Hc) as (post' & E').
      cbn [app] in E'. rewrite E' in K. discriminate.
Qed.

(** A text of whitespace is trimmed to nothing. *)
Lemma trim_blank s :
  Forall (fun c => isWhitespace c = true) s -> trim s = [].
Proof.
  intros H. unfold NotificationListener.trim.
  assert (E : trimStart s = []).
  { induction H as [|c s Hc _ IH]; cbn [NotificationListener.trimStart];
      [reflexivity | now rewrite Hc]. }
  now rewrite E.
Qed.

(** A piece of the text that begins and ends with characters that are no
    whitespace survives [trim]. *)
Lemma trim_keeps pre found post first last_ middle :
  found = first :: middle ->
  (exists init, found = init ++ [last_]) ->
  isWhitespace first = false ->
  isWhitespace last_ = false ->
  exists pre' post', trim (pre ++ found ++ post) = pre' ++ found ++ post'.
Proof.
  intros E1 (init & E2) Hf Hl. unfold NotificationListener.trim.
  assert (Es : exists pre', trimStart (pre ++ found ++ post) = pre' ++ found ++ post).
  { rewrite E1. cbn [app]. apply trimStart_keeps, Hf. }
  destruct Es as (pre' & ->).
  destruct (trimEnd_keeps (pre' ++ init) last_ post Hl) as (post' & Ee).
  exists pre', post'. rewrite E2.
  replace (pre' ++ (init ++ [last_]) ++ post)
    with ((pre' ++ init) ++ last_ :: post) by (now rewrite <- !app_assoc).
  rewrite Ee. now rewrite <- !app_assoc.
Qed.

End Trim.

Section Filter.

Variable uppercaseChar lowercaseChar : Char -> Char.
Variable regexEqualsIgnoreCase : Char -> Char -> bool.
Variable regexSpace regexDigit : Char -> bool.

Local Abbreviation Occurs := (Occurs uppercaseChar lowercaseChar).
Local Abbreviation HasAmountPattern :=
  (HasAmountPattern regexEqualsIgnoreCase regexSpace regexDigit).
Local Abbreviation IsAmount := (IsAmount regexEqualsIgnoreCase regexSpace regexDigit).
Local Abbreviation isTransactionNotification :=
  (isTransactionNotification uppercaseChar lowercaseChar regexEqualsIgnoreCase
     regexSpace regexDigit).

Lemma Occurs_around word text pre post :
  Occurs word text -> Occurs word (pre ++ text ++ post).
Proof.
  intros (p & found & q & -> & H). exists (pre ++ p), found, (q ++ post).
  split; [now rewrite <- !app_assoc | exact H].
Qed.

Lemma HasAmountPattern_around text pre post :
  HasAmountPattern text -> HasAmountPattern (pre ++ text ++ post).
Proof.
  intros (p & found & q & -> & H). exists (pre ++ p), found, (q ++ post).
  split; [now rewrite <- !app_assoc | exact H].
Qed.

(** The filter, in terms of what occurs in the package name and the
    text. *)
Lemma filter_spec packageName text :
  isTransactionNotification packageName text = true <->
  (IsPaymentApp uppercaseChar lowercaseChar packageName /\
   HasTransactionKeyword uppercaseChar lowercaseChar text) \/
  HasAmountPattern text.
Proof.
  unfold NotificationService.isTransactionNotification.
  cbv zeta. rewrite orb_true_iff, andb_true_iff.
  now rewrite isPaymentApp_spec, hasTransactionKeywords_spec, hasAmountPattern_spec.
Qed.

(** The empty text passes for no package. *)
Lemma filter_empty packageName : isTransactionNotification packageName [] = false.
Proof.
  unfold NotificationService.isTransactionNotification. cbv zeta.
  replace (existsb _ transactionKeywords) with false by reflexivity.
  rewrite andb_false_r. reflexivity.
Qed.

(** An amount begins with the first letter of a currency marker and ends
    with a digit. *)
Lemma IsAmount_ends found :
  IsAmount found ->
  exists first middle init last_,
    found = first :: middle /\ found = init ++ [last_] /\
    startsMarker regexEqualsIgnoreCase first = true /\ regexDigit last_ = true.
Proof.
  intros (marker & spaces & digits & -> & Hm & _ & Hne & Hd).
  assert (Hfirst : exists first rest,
            marker = first :: rest /\
            startsMarker regexEqualsIgnoreCase first = true).
  { unfold startsMarker, NotifierSpec.Spells in *.
    change (lit "rs.") with (N_of_ascii "r" :: lit "s.") in Hm.
    change (lit "rs") with (N_of_ascii "r" :: lit "s") in Hm.
    change (lit "inr") with (N_of_ascii "i" :: lit "nr") in Hm.
    destruct Hm as [H | [H | [H | H]]];
      apply Forall2_cons_inv_l in H as (c & s & Hc & _ & ->);
      exists c, s; (split; [reflexivity |]); rewrite Hc;
      rewrite ?orb_true_r; reflexivity. }
  destruct Hfirst as (first & rest & -> & Hfirst).
  destruct (exists_last Hne) as (dinit & (dlast & ->)).
  exists first, (rest ++ spaces ++ dinit ++ [dlast]),
    (first :: rest ++ spaces ++ dinit), dlast.
  split; [reflexivity |]. split.
  - cbn [app]. now rewrite <- !app_assoc.
  - split; [exact Hfirst |].
    apply Forall_app in Hd as [_ Hd]. now inversion Hd.
Qed.

End Filter.

End ListenerFacts.

Section ListenerExtras.
Import NotificationService NotifierSpec NotificationListener NotifierRestSpec.
Import ListenerFacts.

Variable isWhitespace : Char -> bool.
Variable uppercaseChar lowercaseChar : Char -> Char.
Variable regexEqualsIgnoreCase : Char -> Char -> bool.
Variable regexSpace regexDigit : Char -> bool.

Local Abbreviation isTransactionNotification :=
  (isTransactionNotification uppercaseChar lowercaseChar regexEqualsIgnoreCase
     regexSpace regexDigit).
Local Abbreviation HasAmountPattern :=
  (HasAmountPattern regexEqualsIgnoreCase regexSpace regexDigit).
Local Abbreviation extractNotificationText := (extractNotificationText isWhitespace).
Local Abbreviation onNotificationPosted :=
  (onNotificationPosted isWhitespace uppercaseChar lowercaseChar
     regexEqualsIgnoreCase regexSpace regexDigit).

(** X24.  Text around a transaction notification never hides it: a text
    the filter accepts for a package is accepted with anything before and
    after it. *)
Theorem X24_filter_is_monotone packageName text before after :
  isTransactionNotification packageName text = true ->
  isTransactionNotification packageName (before ++ text ++ after) = true.
Proof.
  rewrite !filter_spec. intros [[Happ (keyword & Hin & Hocc)] | Hamount].
  - left. split; [exact Happ |]. exists keyword. split; [exact Hin |].
    now apply Occurs_around.
  - right. now apply HasAmountPattern_around.
Qed.

(** X25.  What the listener hands to the categorization API is never empty
    and has no whitespace at its ends, and nothing is handed over when
    reading the extras throws. *)
Theorem X25_forwarded_text_is_trimmed sbn sent :
  onNotificationPosted sbn = Some sent ->
  sent <> [] /\
  extras sbn <> None /\
  (forall c rest, sent = c :: rest -> isWhitespace c = false) /\
  (forall init c, sent = init ++ [c] -> isWhitespace c = false).
Proof.
  unfold NotificationListener.onNotificationPosted. cbv zeta.
  destruct (isTransactionNotification _ _) eqn:Hf; [| discriminate].
  intros [= <-].
  assert (Hne : extractNotificationText sbn <> []).
  { intros E. rewrite E, filter_empty in Hf. discriminate. }
  split; [exact Hne |]. revert Hne.
  unfold NotificationListener.extractNotificationText.
  destruct (extras sbn) as [e|]; [| intros K; now contradiction K].
  cbv zeta. intros Hne. split; [discriminate |].
  destruct (trim_ends isWhitespace
              (default [] (android_title e) ++ [SPACE] ++
               default [] (android_text e) ++ [SPACE] ++
               default [] (android_bigText e)))
    as [E | [(c0 & r0 & E0 & H0) (i1 & c1 & E1 & H1)]]; [contradiction |].
  split.
  - intros c rest E. rewrite E0 in E. now injection E as <- _.
  - intros init c E. rewrite E1 in E. apply app_inj_tail in E as [_ <-]. exact H1.
Qed.

(** X26.  A notification whose title, text and big text are absent or
    hold whitespace only is skipped, whatever the app that posted it. *)
Theorem X26_blank_notification_is_skipped sbn e :
  isWhitespace SPACE = true ->
  extras sbn = Some e ->
  Forall (fun c => isWhitespace c = true)
    (field (android_title e) ++ field (android_text e) ++
     field (android_bigText e)) ->
  onNotificationPosted sbn = None.
Proof.
  intros Hsp He Hall.
  apply Forall_app in Hall as [Ht Hall]. apply Forall_app in Hall as [Hx Hb].
  unfold NotificationListener.onNotificationPosted,
    NotificationListener.extractNotificationText.
  rewrite He. cbv zeta. rewrite trim_blank.
  - now rewrite filter_empty.
  - apply Forall_app. split; [exact Ht |]. constructor; [exact Hsp |].
    apply Forall_app. split; [exact Hx |]. constructor; [exact Hsp | exact Hb].
Qed.

(** X27.  An amount in the title, the text or the big text of a
    notification is handed to the categorization API with the text around
    it, from any app, when no digit and no first letter of a currency
    marker counts as whitespace. *)
Theorem X27_amount_in_any_field_is_forwarded sbn e :
  (forall c, regexDigit c = true -> isWhitespace c = false) ->
  (forall c, startsMarker regexEqualsIgnoreCase c = true -> isWhitespace c = false) ->
  extras sbn = Some e ->
  HasAmountPattern (field (android_title e)) \/
  HasAmountPattern (field (android_text e)) \/
  HasAmountPattern (field (android_bigText e)) ->
  exists sent, onNotificationPosted sbn = Some sent /\ HasAmountPattern sent.
Proof.
  intros Hdigit Hmarker He Hfield.
  set (title := field (android_title e)) in *.
  set (text := field (android_text e)) in *.
  set (bigText := field (android_bigText e)) in *.
  assert (Hall : HasAmountPattern (title ++ [SPACE] ++ text ++ [SPACE] ++ bigText)).
  { destruct Hfield as [H | [H | H]].
    - exact (HasAmountPattern_around _ _ _ _ []
               ([SPACE] ++ text ++ [SPACE] ++ bigText) H).
    - pose proof (HasAmountPattern_around _ _ _ _ (title ++ [SPACE])
                    ([SPACE] ++ bigText) H) as K.
      now rewrite <- app_assoc in K.
    - pose proof (HasAmountPattern_around _ _ _ _
                    (title ++ [SPACE] ++ text ++ [SPACE]) [] H) as K.
      now rewrite app_nil_r, <- !app_assoc in K. }
  destruct Hall as (pre & found & post & Eall & Hfound).
  destruct (IsAmount_ends _ _ _ found Hfound)
    as (first & middle & init & last_ & E1 & E2 & Hfirst & Hlast).
  destruct (trim_keeps isWhitespace pre found post first last_ middle E1
              (ex_intro _ init E2) (Hmarker _ Hfirst) (Hdigit _ Hlast))
    as (pre' & post' & Etrim).
  assert (Hsent : HasAmountPattern (extractNotificationText sbn)).
  { unfold NotificationListener.extractNotificationText. rewrite He. cbv zeta.
    fold (field (android_title e)) (field (android_text e))
      (field (android_bigText e)).
    fold title text bigText. rewrite Eall, Etrim.
    exists pre', found, post'. split; [reflexivity | exact Hfound]. }
  exists (extractNotificationText sbn). split; [| exact Hsent].
  unfold NotificationListener.onNotificationPosted. cbv zeta.
  assert (Hf : isTransactionNotification (packageName sbn)
                 (extractNotificationText sbn) = true)
    by (apply filter_spec; now right).
  now rewrite Hf.
Qed.

(** X28.  The word [payment] and the listed packages [com.paytm] and
    [in.org.npci.upiapp] never decide: the filter gives the same answer
    with the four words [bank], [upi], [wallet] and [pay] and the four
    other packages. *)
Theorem X28_filter_equals_reduced_filter packageName text :
  isTransactionNotification packageName text
  = reducedFilter uppercaseChar lowercaseChar regexEqualsIgnoreCase
      regexSpace regexDigit packageName text.
Proof.
  unfold NotificationService.isTransactionNotification, reducedFilter. cbv zeta.
  f_equal. f_equal.
  assert (Hrefl : forall w : Text,
            Forall2 (fun o c => charEquals uppercaseChar lowercaseChar true o c = true)
              w w).
  { induction w as [|c w IH]; constructor; [| exact IH].
    unfold charEquals. now rewrite N.eqb_refl. }
  assert (Hpay : contains uppercaseChar lowercaseChar packageName (lit "payment") true
                 = true ->
                 contains uppercaseChar lowercaseChar packageName (lit "pay") true
                 = true).
  { rewrite !contains_code. intros (pre & found & post & -> & H).
    change (lit "payment") with (lit "pay" ++ lit "ment") in H.
    apply Forall2_app_inv_l in H as (f1 & f2 & H1 & _ & ->).
    exists pre, f1, (f2 ++ post). split; [now rewrite <- app_assoc | exact H1]. }
  assert (Hpaytm : contains uppercaseChar lowercaseChar (lit "com.paytm")
                     (lit "pay") true = true).
  { apply contains_code. exists (lit "com."), (lit "pay"), (lit "tm").
    split; [reflexivity | apply Hrefl]. }
  assert (Hnpci : contains uppercaseChar lowercaseChar (lit "in.org.npci.upiapp")
                    (lit "upi") true = true).
  { apply contains_code. exists (lit "in.org.npci."), (lit "upi"), (lit "app").
    split; [reflexivity | apply Hrefl]. }
  apply eq_true_iff_eq. cbn [existsb decidingWords].
  rewrite !orb_true_iff, !bool_decide_eq_true.
  unfold paymentPackages, decidingPackages. rewrite !elem_of_cons, !elem_of_nil.
  split.
  - intros [[[[[H | H] | H] | H] | H] | H]; [apply Hpay in H | | | | |]; try tauto.
    destruct H as [-> | [-> | [-> | [-> | [-> | [-> | []]]]]]]; tauto.
  - intros [[H | [H | [H | [H | H]]]] | H]; try tauto; try discriminate.
Qed.

End ListenerExtras.

(** ** localStorageService.ts: transactions by date *)

Section DateExtras.
Import LocalStorageService StorageFacts StorageDates.

Variable dateValue : string -> TimeValue.

(** X29.  [getByDateRange] lists, in stored order and as often as they
    are stored, exactly the transactions whose date is valid and lies in
    the range, both ends included: the result is the stored list with the
    other transactions left out.  A start or an end that is no valid date,
    or a start after the end, gives the empty list, and a range inside
    another gives a sublist of what the other gives. *)
Theorem X29_getByDateRange_edges startDate endDate userId w :
  let found :=
    transactionService.getByDateRange dateValue startDate endDate userId w in
  found
  = List.filter (withinRange dateValue startDate endDate)
      (LocalStorageService.transactionService.getAll w userId) /\
  sublist found (LocalStorageService.transactionService.getAll w userId) /\
  (forall t,
     In t found <->
     In t (LocalStorageService.transactionService.getAll w userId) /\
     exists d s e,
       dateValue (date t) = Some d /\ dateValue startDate = Some s /\
       dateValue endDate = Some e /\ (s <= d <= e)%Z) /\
  (dateValue startDate = None \/ dateValue endDate = None -> found = []) /\
  (forall s e,
     dateValue startDate = Some s -> dateValue endDate = Some e -> (e < s)%Z ->
     found = []) /\
  (forall startDate' endDate' s s' e e',
     dateValue startDate = Some s -> dateValue startDate' = Some s' ->
     dateValue endDate = Some e -> dateValue endDate' = Some e' ->
     (s' <= s)%Z -> (e <= e')%Z ->
     sublist found
       (transactionService.getByDateRange dateValue startDate' endDate' userId w)).
Proof.
  intros found. subst found. unfold transactionService.getByDateRange.
  set (all := LocalStorageService.transactionService.getAll w userId).
  assert (Hin : forall sd ed t,
            geq (dateValue (date t)) (dateValue sd) &&
            leq (dateValue (date t)) (dateValue ed) = true <->
            exists d s e,
              dateValue (date t) = Some d /\ dateValue sd = Some s /\
              dateValue ed = Some e /\ (s <= d <= e)%Z).
  { intros sd ed t. unfold geq, leq. rewrite andb_true_iff. split.
    - destruct (dateValue (date t)) as [d|], (dateValue sd) as [s|],
        (dateValue ed) as [e|]; intros [H1 H2]; try discriminate.
      apply Z.leb_le in H1, H2. exists d, s, e. auto.
    - intros (d & s & e & -> & -> & -> & H1 & H2).
      split; now apply Z.leb_le. }
  assert (Hnone : forall l : list Transaction,
            (forall t, In t l ->
               geq (dateValue (date t)) (dateValue startDate) &&
               leq (dateValue (date t)) (dateValue endDate) = false) ->
            List.filter
              (fun t => geq (dateValue (date t)) (dateValue startDate) &&
                        leq (dateValue (date t)) (dateValue endDate)) l = []).
  { induction l as [|t l IH]; intros H; cbn [List.filter]; [reflexivity |].
    rewrite (H t) by now left. apply IH. intros t' Ht'. apply H. now right. }
  assert (Hfilter : forall l : list Transaction,
            List.filter
              (fun t => geq (dateValue (date t)) (dateValue startDate) &&
                        leq (dateValue (date t)) (dateValue endDate)) l
            = List.filter (withinRange dateValue startDate endDate) l).
  { intros l. apply filter_ext. intros t. unfold withinRange, geq, leq.
    destruct (dateValue (date t)) as [d|], (dateValue startDate) as [s|],
      (dateValue endDate) as [e|]; try reflexivity;
      try (destruct (_ <=? _)%Z; reflexivity).
    destruct (Z.leb_spec s d), (Z.leb_spec d e); cbn [andb]; symmetry;
      first [apply bool_decide_eq_true_2 | apply bool_decide_eq_false_2]; lia. }
  split; [apply Hfilter |]. split; [apply filter_sublist |].
  split; [| split; [| split]].
  - intros t. cbv zeta. rewrite filter_In, Hin. reflexivity.
  - intros Hbad. apply Hnone. intros t _.
    apply not_true_is_false. intros K. apply Hin in K as (d & s & e & _ & Hs & He & _).
    destruct Hbad; congruence.
  - intros s e Hs He Hlt. apply Hnone. intros t _.
    apply not_true_is_false. intros K.
    apply Hin in K as (d & s0 & e0 & _ & Hs0 & He0 & H1 & H2).
    rewrite Hs in Hs0. rewrite He in He0.
    injection Hs0 as <-. injection He0 as <-. lia.
  - intros startDate' endDate' s s' e e' Hs Hs' He He' Hle1 Hle2.
    assert (E : List.filter
                  (fun t => geq (dateValue (date t)) (dateValue startDate) &&
                            leq (dateValue (date t)) (dateValue endDate)) all
                = List.filter
                    (fun t => geq (dateValue (date t)) (dateValue startDate) &&
                              leq (dateValue (date t)) (dateValue endDate))
                    (List.filter
                       (fun t => geq (dateValue (date t)) (dateValue startDate') &&
                                 leq (dateValue (date t)) (dateValue endDate')) all)).
    { induction all as [|t l IH]; cbn [List.filter]; [reflexivity |].
      destruct (geq (dateValue (date t)) (dateValue startDate) &&
                leq (dateValue (date t)) (dateValue endDate)) eqn:K.
      - assert (K' : geq (dateValue (date t)) (dateValue startDate') &&
                     leq (dateValue (date t)) (dateValue endDate') = true).
        { apply Hin in K as (d & s0 & e0 & Hd & Hs0 & He0 & H1 & H2).
          rewrite Hs in Hs0. rewrite He in He0.
          injection Hs0 as <-. injection He0 as <-.
          apply Hin. exists d, s', e'. repeat split; auto; lia. }
        rewrite K'. cbn [List.filter]. rewrite K. now f_equal.
      - destruct (geq (dateValue (date t)) (dateValue startDate') &&
                  leq (dateValue (date t)) (dateValue endDate'));
          [cbn [List.filter]; rewrite K |]; exact IH. }
    rewrite E. apply filter_sublist.
Qed.

End DateExtras.

(** ** The properties above on the sample data *)

Module ExtraWitnesses.
Import LocalStorageService StorageSpec StorageRestSpec StorageSamples.
Import BrowserServices BrowserSpec BrowserSamples DialogSamples.

Lemma asciiLower_empty s : asciiLower s = asciiLower "" -> s = "".
Proof. destruct s as [|c s]; [reflexivity | discriminate]. Qed.

Lemma X3_witness :
  (exists t0, In t0 (transactionService.getAll (Some browser) None) /\
              id t0 = id cabAgain) /\
  transactionService.getAll
    (transactionService.update "txn_2" (recategorize "Travel") None
       (transactionService.save cabAgain None (Some browser))) None
  = transactionService.getAll
      (transactionService.update "txn_2" (recategorize "Travel") None (Some browser))
      None ++ [cabAgain].
Proof.
  assert (H : exists t0, In t0 (transactionService.getAll (Some browser) None) /\
                         id t0 = id cabAgain).
  { exists cab. split; [vm_compute; tauto | reflexivity]. }
  split; [exact H |].
  exact (proj2 (X3_save_appends_update_reaches_oldest cabAgain
                  (recategorize "Travel") None browser) H).
Defined.

Lemma X7_witness :
  (exists t, In t (transactionService.getAll (Some browser) (Some "919876543210")) /\
             id t = "txn_2") /\
  forall d,
    List.filter (fun t => negb (String.eqb (id t) "txn_2"))
      (StorageRest.transactionService.getByCategory d (Some "919876543210")
         (StorageRest.TransactionsPage.handleCategoryChange "txn_2" "Travel"
            (Some "+919876543210") (Some browser)))
    = List.filter (fun t => negb (String.eqb (id t) "txn_2"))
        (StorageRest.transactionService.getByCategory d (Some "919876543210")
           (Some browser)).
Proof.
  assert (H : exists t,
            In t (transactionService.getAll (Some browser) (Some "919876543210")) /\
            id t = "txn_2").
  { exists cab. split; [vm_compute; tauto | reflexivity]. }
  split; [exact H |].
  exact (proj2 (X7_recategorized_transaction_is_listed "txn_2" "Travel"
                  (Some "+919876543210") browser H)).
Defined.

Lemma X9_witness :
  caseDistinct asciiLower (categoryService.getAll (Some browser) None) /\
  In "Food" (categoryService.getNames (Some browser) None) /\
  categoryService.getNames
    (categoryService.add asciiLower "2025-12-01T00:00:00.000Z" "Food" None
       (categoryService.remove "Food" None (Some browser))) None
  = ["Bills"; "Food"].
Proof.
  assert (H1 : caseDistinct asciiLower (categoryService.getAll (Some browser) None)).
  { apply (bool_decide_unpack _). vm_compute. exact I. }
  assert (H2 : In "Food" (categoryService.getNames (Some browser) None)).
  { vm_compute. tauto. }
  split; [exact H1 |]. split; [exact H2 |].
  exact (X9_remove_then_add_moves_to_end asciiLower "2025-12-01T00:00:00.000Z"
           "Food" None browser H1 H2).
Defined.

Lemma X10_witness :
  (forall s, asciiLower s = asciiLower "" -> s = "") /\
  ReadsSession (Some browser) (Some "+919876543210") /\
  snd (StorageRest.CategorizeTransactionDialog.handleAddCategory asciiLower
         trimSpaces "2025-12-01T00:00:00.000Z" " Pet Care "
         (Some "+919876543210") (Some browser))
  = categoryService.add asciiLower "2025-12-01T00:00:00.000Z" "Pet Care"
      (Some "919876543210") (Some browser).
Proof.
  assert (H2 : ReadsSession (Some browser) (Some "+919876543210")) by reflexivity.
  split; [exact asciiLower_empty |]. split; [exact H2 |].
  exact (proj1 (X10_dialog_check_agrees_with_add asciiLower trimSpaces
                  "2025-12-01T00:00:00.000Z" " Pet Care " (Some "+919876543210")
                  (Some browser) asciiLower_empty H2)).
Defined.

Lemma X13_witness :
  NoDup (List.map asciiLower StorageRest.defaultCategories) /\
  categoryService.getAll (Some browser) (Some "42") = [] /\
  categoryService.getNames
    (StorageRest.initializeData asciiLower [lunch; cab]
       (fun _ => "2025-12-01T00:00:00.000Z") (Some "42") (Some browser)) (Some "42")
  = StorageRest.defaultCategories.
Proof.
  assert (H1 : NoDup (List.map asciiLower StorageRest.defaultCategories)).
  { apply (bool_decide_unpack _). vm_compute. exact I. }
  assert (H2 : categoryService.getAll (Some browser) (Some "42") = []) by reflexivity.
  split; [exact H1 |]. split; [exact H2 |].
  exact (X13_initializeData_registers_defaults asciiLower [lunch; cab]
           (fun _ => "2025-12-01T00:00:00.000Z") (Some "42") browser H1 H2).
Defined.

Lemma X2_witness :
  auth_session browser = Some (SessionParsed (Some "+919876543210")) /\
  getUserKey browser STORAGE_KEYS.TRANSACTIONS
    (StorageRest.pageUserId (Some "+919876543210"))
  = getUserKey browser STORAGE_KEYS.TRANSACTIONS None.
Proof.
  split; [reflexivity |].
  exact (proj1 (X2_page_user_id_is_session_key browser STORAGE_KEYS.TRANSACTIONS)
           "+919876543210" eq_refl).
Defined.

Lemma X6_witness :
  Partial.id (recategorize "Travel") = None /\
  List.map id
    (transactionService.getAll
       (transactionService.update "txn_2" (recategorize "Travel") None (Some browser))
       None)
  = List.map id (transactionService.getAll (Some browser) None).
Proof.
  split; [reflexivity |].
  exact (proj2 (proj2 (X6_update_keeps_length_and_ids "txn_2" (recategorize "Travel")
                         None browser)) eq_refl).
Defined.

Lemma X8_witness :
  In food (categoryService.getAll (Some browser) None) /\
  name food <> "FOOD" /\
  asciiLower (name food) = asciiLower "FOOD" /\
  In food
    (categoryService.getAll (categoryService.remove "FOOD" None (Some browser)) None).
Proof.
  assert (H1 : In food (categoryService.getAll (Some browser) None))
    by (vm_compute; tauto).
  assert (H2 : name food <> "FOOD") by discriminate.
  assert (H3 : asciiLower (name food) = asciiLower "FOOD") by reflexivity.
  split; [exact H1 |]. split; [exact H2 |]. split; [exact H3 |].
  exact (proj1 (proj2 (proj2 (X8_remove_is_exact_add_ignores_case asciiLower "FOOD"
                                None browser)) food H1 H2 H3)).
Defined.

Lemma X12_witness :
  [lunch] <> [] /\
  forall simulated' now',
    StorageRest.initializeData asciiLower simulated' now' (Some "42")
      (StorageRest.initializeData asciiLower [lunch]
         (fun _ => "2025-12-01T00:00:00.000Z") (Some "42") (Some browser))
    = StorageRest.initializeData asciiLower [lunch]
        (fun _ => "2025-12-01T00:00:00.000Z") (Some "42") (Some browser).
Proof.
  assert (H : [lunch] <> []) by discriminate.
  split; [exact H |].
  exact (proj2 (proj2 (X12_initializeData_fills_once asciiLower [lunch]
                         (fun _ => "2025-12-01T00:00:00.000Z") (Some "42") browser))
           H).
Defined.

Lemma X15_witness :
  truthy (Some "919876543210") = true /\
  Some "911" <> Some "919876543210" /\
  pinService.get (Some "911")
    (pinService.save "1357" (Some "919876543210") (Some locked))
  = pinService.get (Some "911") (Some locked).
Proof.
  assert (H1 : truthy (Some "919876543210") = true) by reflexivity.
  assert (H2 : Some "911" <> Some "919876543210") by discriminate.
  split; [exact H1 |]. split; [exact H2 |].
  exact (proj1 (proj1 (X15_pins_are_per_user "1357" "919876543210" (Some "911")
                         (Some locked) H1 H2))).
Defined.

Lemma X16_witness :
  authService.getSession (Some locked)
  = StorageRest.authService.SessionOf (UserProfile.phone asha) /\
  userService.getProfile None
    (userService.saveProfile "2025-12-01T00:00:00.000Z" asha None (Some locked))
  = Some (stamped "2025-12-01T00:00:00.000Z" asha).
Proof.
  assert (H : authService.getSession (Some locked)
              = StorageRest.authService.SessionOf (UserProfile.phone asha))
    by reflexivity.
  split; [exact H |].
  exact (proj2 (proj2 (X16_profile_round_trip "2025-12-01T00:00:00.000Z" asha locked)
                  H)).
Defined.

Lemma X17_witness :
  auth_session (local signedOut) = None /\
  removePlus (UserProfile.phone asha) <> "" /\
  userService.getProfile None
    (userService.saveProfile "2025-12-01T00:00:00.000Z" asha None (Some signedOut))
  = userService.getProfile None (Some signedOut).
Proof.
  assert (H1 : auth_session (local signedOut) = None) by reflexivity.
  assert (H2 : removePlus (UserProfile.phone asha) <> "") by discriminate.
  split; [exact H1 |]. split; [exact H2 |].
  exact (proj1 (X17_profile_saved_under_phone_not_read_globally
                  "2025-12-01T00:00:00.000Z" asha signedOut H1 H2)).
Defined.

Lemma X18_witness :
  truthy (Some "919876543210") = true /\
  exists updated,
    userService.getProfile (Some "919876543210")
      (userService.updateProfile "2025-12-01T00:00:00.000Z" newEmail
         (Some "919876543210") (Some locked))
    = Some updated /\
    UserProfile.email updated = Some "asha@example.com" /\
    UserProfile.fullName updated = Some "Asha Rao" /\
    UserProfile.updatedAt updated = Some "2025-12-01T00:00:00.000Z".
Proof.
  assert (H : truthy (Some "919876543210") = true) by reflexivity.
  split; [exact H |].
  destruct (proj1 (X18_updateProfile_merges "2025-12-01T00:00:00.000Z" newEmail
                     "919876543210" locked H))
    as (updated & Hget & _ & _ & HfullName & _ & Hemail & _ & Hstamp).
  exists updated. auto.
Defined.

Lemma X19_witness :
  authService.getSession (Some unlocked)
  = StorageRest.authService.SessionOf "+919876543210" /\
  exists b1 b2,
    Sidebar.handleLogout unlocked = Some (Some b1) /\
    authService.saveSession "+919876543210" (Some b1) = Some b2 /\
    Home.checkAuthFlow b2 = Some Unlock.
Proof.
  assert (H : authService.getSession (Some unlocked)
              = StorageRest.authService.SessionOf "+919876543210") by reflexivity.
  split; [exact H |].
  destruct (X19_logout_then_login_relocks unlocked "+919876543210" H)
    as (b1 & b2 & Hout & _ & Hin & _ & _ & Hflow).
  exists b1, b2. split; [exact Hout |]. split; [exact Hin |].
  exact (Hflow (or_introl eq_refl)).
Defined.

Lemma X20_witness :
  removePlus "+911" <> "" /\
  removePlus "+912" <> "" /\
  removePlus "+911" <> removePlus "+912" /\
  transactionService.getAll
    (StorageRest.authService.saveSession "+912"
       (categoryService.add asciiLower "2025-12-01T00:00:00.000Z" "Pets" None
          (transactionService.save lunch None
             (StorageRest.authService.saveSession "+911" (Some browser))))) None
  = transactionService.getAll
      (StorageRest.authService.saveSession "+912" (Some browser)) None.
Proof.
  assert (H1 : removePlus "+911" <> "") by discriminate.
  assert (H2 : removePlus "+912" <> "") by discriminate.
  assert (H3 : removePlus "+911" <> removePlus "+912") by discriminate.
  split; [exact H1 |]. split; [exact H2 |]. split; [exact H3 |].
  exact (proj1 (proj1 (X20_lists_are_per_user asciiLower lunch
                         "2025-12-01T00:00:00.000Z" "Pets" "+911" "+912"
                         (Some browser) H1 H2 H3))).
Defined.

Lemma X21_witness :
  authService.getSession (Some locked)
  = StorageRest.authService.SessionOf "+919876543210" /\
  removePlus "+919876543210" <> "" /\
  Home.checkAuthFlow locked = Some Unlock /\
  (Home.checkAuthFlow
     (UnlockPage.handlePinComplete "4821" (Some "919876543210") locked)
   = Some Dashboard <->
   pinService.get (Some "919876543210") (Some locked) = Some "4821").
Proof.
  assert (H1 : authService.getSession (Some locked)
               = StorageRest.authService.SessionOf "+919876543210") by reflexivity.
  assert (H2 : removePlus "+919876543210" <> "") by discriminate.
  assert (H3 : Home.checkAuthFlow locked = Some Unlock) by reflexivity.
  split; [exact H1 |]. split; [exact H2 |]. split; [exact H3 |].
  exact (proj1 (proj2 (X21_unlock_needs_the_pin locked "+919876543210" "4821"
                         H1 H2 H3))).
Defined.

Lemma X22_witness :
  authService.getSession (Some unlocked)
  = StorageRest.authService.SessionOf "+919876543210" /\
  removePlus "+919876543210" <> "" /\
  "1357" <> "" /\
  Home.checkAuthFlow unlocked = Some Dashboard /\
  exists b1 b2 b3,
    PinSetupPage.handlePinComplete "1357" (Some "+919876543210") unlocked = Some b1 /\
    Sidebar.handleLogout b1 = Some (Some b2) /\
    authService.saveSession "+919876543210" (Some b2) = Some b3 /\
    Home.checkAuthFlow b3 = Some Unlock.
Proof.
  assert (H1 : authService.getSession (Some unlocked)
               = StorageRest.authService.SessionOf "+919876543210") by reflexivity.
  assert (H2 : removePlus "+919876543210" <> "") by discriminate.
  assert (H3 : "1357" <> "") by discriminate.
  assert (H4 : Home.checkAuthFlow unlocked = Some Dashboard) by reflexivity.
  split; [exact H1 |]. split; [exact H2 |]. split; [exact H3 |]. split; [exact H4 |].
  destruct (X22_pin_set_up_is_asked_after_login unlocked "+919876543210" "1357"
              H1 H2 H3 H4)
    as (b1 & b2 & b3 & E1 & _ & E2 & E3 & E4 & _).
  exists b1, b2, b3. auto.
Defined.

Lemma X23_witness :
  authService.getSession (Some plusOnly) = StorageRest.authService.SessionOf "+" /\
  removePlus "+" = "" /\
  pinService.exists_ None (Some plusOnly) = false /\
  Home.checkAuthFlow plusOnly = Some Dashboard /\
  exists b1,
    PinSetupPage.handlePinComplete "1357" (Some "+") plusOnly = Some b1 /\
    pinService.get (Some "default") (Some b1) = Some "1357" /\
    forall b', sameLocalStorage b' b1 -> Home.checkAuthFlow b' = Some Dashboard.
Proof.
  assert (H1 : authService.getSession (Some plusOnly)
               = StorageRest.authService.SessionOf "+") by reflexivity.
  assert (H2 : removePlus "+" = "") by reflexivity.
  assert (H3 : pinService.exists_ None (Some plusOnly) = false) by reflexivity.
  assert (H4 : Home.checkAuthFlow plusOnly = Some Dashboard) by reflexivity.
  split; [exact H1 |]. split; [exact H2 |]. split; [exact H3 |]. split; [exact H4 |].
  exact (X23_pin_without_user_id_is_not_enforced plusOnly "+" "1357" H1 H2 H3 H4).
Defined.

Lemma X29_witness :
  StorageDates.sampleDateValue "2025-11-21" = Some 1763683200000%Z /\
  StorageDates.sampleDateValue "2025-11-01" = Some 1761955200000%Z /\
  StorageDates.sampleDateValue "2025-12-01" = Some 1764547200000%Z /\
  sublist
    (StorageDates.transactionService.getByDateRange StorageDates.sampleDateValue
       "2025-11-21" "2025-12-01" None (Some browser))
    (StorageDates.transactionService.getByDateRange StorageDates.sampleDateValue
       "2025-11-01" "2025-12-01" None (Some browser)).
Proof.
  split; [reflexivity |]. split; [reflexivity |]. split; [reflexivity |].
  refine (proj2 (proj2 (proj2 (proj2 (proj2
            (X29_getByDateRange_edges StorageDates.sampleDateValue
               "2025-11-21" "2025-12-01" None (Some browser))))))
            "2025-11-01" "2025-12-01" _ _ _ _ eq_refl eq_refl eq_refl eq_refl _ _);
    vm_compute; discriminate.
Defined.

End ExtraWitnesses.

Module ListenerWitnesses.
Import NotificationService NotifierSpec NotificationListener NotifierRestSpec.
Import NotifierSamples ListenerSamples.

Lemma asciiDigit_not_space c : asciiDigit c = true -> asciiSpace c = false.
Proof.
  unfold asciiDigit, asciiSpace. intros H.
  apply andb_true_iff in H as [H1 H2]. apply N.leb_le in H1, H2.
  apply orb_false_iff. split; [apply N.eqb_neq; lia |].
  apply andb_false_iff. right. apply N.leb_gt. lia.
Qed.

Lemma asciiMarker_not_space c :
  startsMarker asciiEqualsIgnoreCase c = true -> asciiSpace c = false.
Proof.
  unfold startsMarker, asciiEqualsIgnoreCase. intros H.
  assert (Hc : (32 < c)%N).
  { rewrite !orb_true_iff, !N.eqb_eq in H.
    change (asciiLower RUPEE) with 8377%N in H.
    change (asciiLower (N_of_ascii "r")) with 114%N in H.
    change (asciiLower (N_of_ascii "i")) with 105%N in H.
    unfold asciiLower in H.
    destruct ((65 <=? c) && (c <=? 90))%N eqn:E.
    - apply andb_true_iff in E as [E1 _]. apply N.leb_le in E1. lia.
    - lia. }
  unfold asciiSpace. apply orb_false_iff. split; [apply N.eqb_neq; lia |].
  apply andb_false_iff. right. apply N.leb_gt. lia.
Qed.

Lemma X24_witness :
  isTransactionNotificationAscii (lit "com.phonepe.app") (lit "Paid to Ravi") = true /\
  isTransactionNotificationAscii (lit "com.phonepe.app")
    (lit "Ravi: " ++ lit "Paid to Ravi" ++ lit " today") = true.
Proof.
  assert (H : isTransactionNotificationAscii (lit "com.phonepe.app")
                (lit "Paid to Ravi") = true) by (vm_compute; reflexivity).
  split; [exact H |].
  exact (X24_filter_is_monotone asciiUpper asciiLower asciiEqualsIgnoreCase
           asciiSpace asciiDigit (lit "com.phonepe.app") (lit "Paid to Ravi")
           (lit "Ravi: ") (lit " today") H).
Defined.

Lemma X25_witness :
  onNotificationPostedAscii paid = Some (lit "Ravi   Rs. 250 paid to Ravi") /\
  lit "Ravi   Rs. 250 paid to Ravi" <> [].
Proof.
  assert (H : onNotificationPostedAscii paid
              = Some (lit "Ravi   Rs. 250 paid to Ravi")) by (vm_compute; reflexivity).
  split; [exact H |].
  exact (proj1 (X25_forwarded_text_is_trimmed asciiSpace asciiUpper asciiLower
                  asciiEqualsIgnoreCase asciiSpace asciiDigit paid
                  (lit "Ravi   Rs. 250 paid to Ravi") H)).
Defined.

Lemma X26_witness :
  asciiSpace SPACE = true /\
  extras blank
  = Some {| android_title := Some (lit "  "); android_text := None;
            android_bigText := Some (lit " ") |} /\
  onNotificationPostedAscii blank = None.
Proof.
  assert (H1 : asciiSpace SPACE = true) by reflexivity.
  split; [exact H1 |]. split; [reflexivity |].
  refine (X26_blank_notification_is_skipped asciiSpace asciiUpper asciiLower
            asciiEqualsIgnoreCase asciiSpace asciiDigit blank _ H1 eq_refl _).
  repeat constructor.
Defined.

Lemma X27_witness :
  (forall c, asciiDigit c = true -> asciiSpace c = false) /\
  (forall c, startsMarker asciiEqualsIgnoreCase c = true -> asciiSpace c = false) /\
  HasAmountPattern asciiEqualsIgnoreCase asciiSpace asciiDigit
    (lit "  Rs. 250 paid to Ravi ") /\
  exists sent,
    onNotificationPostedAscii paid = Some sent /\
    HasAmountPattern asciiEqualsIgnoreCase asciiSpace asciiDigit sent.
Proof.
  assert (H : HasAmountPattern asciiEqualsIgnoreCase asciiSpace asciiDigit
                (lit "  Rs. 250 paid to Ravi ")).
  { apply hasAmountPattern_spec. vm_compute. reflexivity. }
  split; [exact asciiDigit_not_space |]. split; [exact asciiMarker_not_space |].
  split; [exact H |].
  exact (X27_amount_in_any_field_is_forwarded asciiSpace asciiUpper asciiLower
           asciiEqualsIgnoreCase asciiSpace asciiDigit paid _
           asciiDigit_not_space asciiMarker_not_space eq_refl
           (or_intror (or_introl H))).
Defined.

End ListenerWitnesses.
